(** * chproxy: request scopes, admission counters and host selection

    A shallow embedding of [scope.go] (package [main] of chproxy) and the
    properties of its specification that can be stated over it.

    Conventions of the embedding.
    - A Go [uint32] is a [Z]; every operation that can leave the range
      [0, 2^32) has its wrap-around written out (module [U32]).
    - The fields behind [sync/atomic] are plain fields of the records.
      [getHost], [inc], [dec], [killQuery] and [decorateRequest] are taken
      on a quiescent snapshot: one call runs without interference from
      other goroutines.  [penalize] is taken operation by operation,
      interleaved with the decays its earlier calls have scheduled and,
      in module [Overlap], with the operations of other calls.
    - Pointers to hosts are indices in the cluster's host slice; the
      pointers of a scope to its cluster, user and cluster user are not
      nil.
    - A function that can panic, or whose loop needs an argument to
      terminate, returns an [outcome].
    - What the Go standard library contributes is either modelled
      ([net/url] query strings, [encoding/base64], the header map of
      [net/http]) or left as a parameter ([url.Parse], [URL.String], the
      HTTP client).  Logging, the metric [hostHealth] and the debug
      rendering [String] of a scope are left out; of [runHeartbeat] only
      the single health check is kept. *)

From Stdlib Require Import ZArith Lia List String Ascii DecimalString.
From stdpp Require Import base list gmap strings sorting.

Local Open Scope Z_scope.

(** ** 32-bit unsigned arithmetic *)

Module U32.

Definition modulus : Z := 2 ^ 32.

Definition max : Z := modulus - 1.

(** Conversion to [uint32]: reduction modulo [2^32]. *)
Definition wrap (z : Z) : Z := z mod modulus.

(** [x + y] on [uint32]. *)
Definition add (x y : Z) : Z := wrap (x + y).

(** [^x] on [uint32]: bitwise complement of the 32 bits. *)
Definition not (x : Z) : Z := Z.lxor x max.

(** [uint32(len(s))] for a slice of [n] elements. *)
Definition of_len (n : nat) : Z := wrap (Z.of_nat n).

Definition in_range (z : Z) : Prop := 0 <= z < modulus.

End U32.

(** [atomic.AddUint32(&x, delta)]: the new value stored in [x], which is
    also the value returned. *)
Definition AddUint32 (x delta : Z) : Z := U32.add x delta.

(** ** Outcomes of a call *)

Inductive outcome (A : Type) : Type :=
| Returned (a : A)      (* the call returns [a] *)
| Panicked              (* run-time panic: division by zero, bad index *)
| OutOfFuel.            (* the loop bound of the model was too small *)

Arguments Returned {A} a.
Arguments Panicked {A}.
Arguments OutOfFuel {A}.

(** ** queryCounter *)

Record queryCounter : Type := { value : Z }.

Module QueryCounter.

Definition runningQueries (qc : queryCounter) : Z := value qc.

(** [inc] returns the updated counter and the post-increment value. *)
Definition inc (qc : queryCounter) : queryCounter * Z :=
  let v := AddUint32 (value qc) 1 in ({| value := v |}, v).

Definition dec (qc : queryCounter) : queryCounter :=
  {| value := AddUint32 (value qc) (U32.not 0) |}.

End QueryCounter.

(** ** URLs (the fields of [url.URL] that the code touches) *)

Record URL : Type := {
  Scheme : string;
  Host : string;
  Path : string;
  RawQuery : string
}.

(** ** host *)

Record host : Type := {
  penalty : Z;
  active : Z;
  addr : URL;
  host_queryCounter : queryCounter
}.

Definition penaltyMaxSize : Z := 300.
Definition penaltyDuration : Z := 10 * 1000000000.   (* nanoseconds *)
Definition penaltySize : Z := 5.

Module HostOps.

(** One health check of [runHeartbeat]: [healthy] tells whether
    [isHealthy(h.addr.String())] returned no error. *)
Definition heartbeat (healthy : bool) (h : host) : host :=
  {| penalty := penalty h; active := if healthy then 1 else 0;
     addr := addr h; host_queryCounter := host_queryCounter h |}.

Definition isActive (h : host) : bool := active h =? 1.

Definition runningQueries (h : host) : Z :=
  let c := QueryCounter.runningQueries (host_queryCounter h) in
  let p := penalty h in
  U32.add c p.

Definition inc (h : host) : host * Z :=
  let '(qc, v) := QueryCounter.inc (host_queryCounter h) in
  ({| penalty := penalty h; active := active h; addr := addr h;
      host_queryCounter := qc |}, v).

Definition dec (h : host) : host :=
  {| penalty := penalty h; active := active h; addr := addr h;
     host_queryCounter := QueryCounter.dec (host_queryCounter h) |}.

End HostOps.

(** ** clusterUser and user *)

Record clusterUser : Type := {
  cu_name : string;
  cu_password : string;
  cu_maxExecutionTime : Z;
  cu_maxConcurrentQueries : Z;
  cu_queryCounter : queryCounter
}.

Record user : Type := {
  toUser : string;
  toCluster : string;
  denyHTTP : bool;
  denyHTTPS : bool;
  allowedNetworks : list string;     (* config.Networks *)
  u_name : string;
  u_password : string;
  u_maxExecutionTime : Z;
  u_maxConcurrentQueries : Z;
  u_queryCounter : queryCounter
}.

(** ** cluster *)

Record cluster : Type := {
  nextIdx : Z;
  hosts : list host;
  users : gmap string clusterUser;
  killQueryUserName : string;
  killQueryUserPassword : string;
  heartBeatInterval : Z
}.

Module ClusterOps.

Definition set_nextIdx (c : cluster) (n : Z) : cluster :=
  {| nextIdx := n; hosts := hosts c; users := users c;
     killQueryUserName := killQueryUserName c;
     killQueryUserPassword := killQueryUserPassword c;
     heartBeatInterval := heartBeatInterval c |}.

(** The tail of [getHost]: [if !idle.isActive() { return nil }; return idle]. *)
Definition getHost_finish (hs : list host) (idle : nat) : outcome (option nat) :=
  match hs !! idle with
  | None => Panicked
  | Some h => if negb (HostOps.isActive h) then Returned None
              else Returned (Some idle)
  end.

(** The loop [for i := (idx+1) % l; i != idx; i = (i+1) % l], entered
    with the current [i], candidate [idle] and its load [idleN]. *)
Fixpoint getHost_loop (fuel : nat) (hs : list host) (l idx i : Z)
    (idle : nat) (idleN : Z) : outcome (option nat) :=
  match fuel with
  | O => OutOfFuel
  | S fuel' =>
      if i =? idx then getHost_finish hs idle
      else
        let next := U32.add i 1 mod l in
        match hs !! Z.to_nat i with
        | None => Panicked
        | Some h =>
            if negb (HostOps.isActive h) then
              getHost_loop fuel' hs l idx next idle idleN
            else
              let n := HostOps.runningQueries h in
              if n =? 0 then Returned (Some (Z.to_nat i))
              else if n <? idleN then
                getHost_loop fuel' hs l idx next (Z.to_nat i) n
              else
                getHost_loop fuel' hs l idx next idle idleN
        end
  end.

(** [getHost] with an explicit loop bound.  The cursor is advanced
    before anything can fail. *)
Definition getHost_fuel (fuel : nat) (c : cluster)
    : cluster * outcome (option nat) :=
  let idx := AddUint32 (nextIdx c) 1 in
  let c' := set_nextIdx c idx in
  let l := U32.of_len (length (hosts c)) in
  if l =? 0 then (c', Panicked)
  else
    let idx := idx mod l in
    match hosts c !! Z.to_nat idx with
    | None => (c', Panicked)
    | Some idle =>
        let idleN := HostOps.runningQueries idle in
        if (idleN =? 0) && HostOps.isActive idle then
          (c', Returned (Some (Z.to_nat idx)))
        else
          (c', getHost_loop fuel (hosts c) l idx (U32.add idx 1 mod l)
                 (Z.to_nat idx) idleN)
    end.

(** One test of the loop condition per host is enough. *)
Definition getHost (c : cluster) : cluster * outcome (option nat) :=
  getHost_fuel (length (hosts c)) c.

End ClusterOps.

(** ** Formatting *)

(** [strconv.Itoa] and the verb [%d]: decimal digits, with a minus sign
    for a negative number. *)
Definition Itoa (z : Z) : string := NilZero.string_of_int (Z.to_int z).

(** The conversion [int(x)] of a [uint32]; [int] is 64 bits wide, so the
    value is unchanged. *)
Definition int_of_uint32 (x : Z) : Z := x.

(** ** net/url: query strings

    [url.Values] is a map from keys to lists of values.  The functions
    below follow [net/url] as of Go 1.17: [QueryEscape], [QueryUnescape],
    [ParseQuery] (behind [URL.Query], which drops what does not parse,
    among it every piece that holds a semicolon) and [Values.Encode]. *)

Module NetUrl.

Definition byte_in (lo hi c : ascii) : bool :=
  (N_of_ascii lo <=? N_of_ascii c)%N && (N_of_ascii c <=? N_of_ascii hi)%N.

(** [shouldEscape(c, encodeQueryComponent)]: everything but letters,
    digits and [-_.~]. *)
Definition shouldEscape (c : ascii) : bool :=
  if byte_in "a" "z" c || byte_in "A" "Z" c || byte_in "0" "9" c then false
  else if Ascii.eqb c "-" || Ascii.eqb c "_" || Ascii.eqb c "." || Ascii.eqb c "~"
  then false
  else true.

Definition upperhex (n : N) : ascii :=
  nth (N.to_nat n) (list_ascii_of_string "0123456789ABCDEF") "0"%char.

Fixpoint QueryEscape (s : string) : string :=
  match s with
  | EmptyString => EmptyString
  | String c r =>
      if Ascii.eqb c " " then String "+" (QueryEscape r)
      else if shouldEscape c then
        String "%" (String (upperhex (N.shiftr (N_of_ascii c) 4))
                      (String (upperhex (N.land (N_of_ascii c) 15))
                         (QueryEscape r)))
      else String c (QueryEscape r)
  end.

Definition ishex (c : ascii) : bool :=
  byte_in "0" "9" c || byte_in "a" "f" c || byte_in "A" "F" c.

Definition unhex (c : ascii) : N :=
  if byte_in "0" "9" c then (N_of_ascii c - N_of_ascii "0")%N
  else if byte_in "a" "f" c then (N_of_ascii c - N_of_ascii "a" + 10)%N
  else if byte_in "A" "F" c then (N_of_ascii c - N_of_ascii "A" + 10)%N
  else 0%N.

(** [None] is the [EscapeError] of a [%] that is not followed by two
    hexadecimal digits. *)
Fixpoint QueryUnescape (s : string) : option string :=
  match s with
  | EmptyString => Some EmptyString
  | String c r =>
      if Ascii.eqb c "%" then
        match r with
        | String a (String b r') =>
            if ishex a && ishex b then
              String (ascii_of_N (N.lor (N.shiftl (unhex a) 4) (unhex b)))
                <$> QueryUnescape r'
            else None
        | _ => None
        end
      else if Ascii.eqb c "+" then String " " <$> QueryUnescape r
      else String c <$> QueryUnescape r
  end.

(** [strings.Contains(s, string(c))]. *)
Fixpoint contains (c : ascii) (s : string) : bool :=
  match s with
  | EmptyString => false
  | String c' r => Ascii.eqb c' c || contains c r
  end.

(** [strings.Cut(s, string(sep))] without its flag: the text before the
    first [sep] and the text after it (empty when there is no [sep]). *)
Fixpoint cut (sep : ascii) (s : string) : string * string :=
  match s with
  | EmptyString => (EmptyString, EmptyString)
  | String c r =>
      if Ascii.eqb c sep then (EmptyString, r)
      else let '(before, after) := cut sep r in (String c before, after)
  end.

(** The pieces that the loop of [parseQuery] cuts off at each [&]. *)
Fixpoint segments (sep : ascii) (s : string) : list string :=
  match s with
  | EmptyString => [EmptyString]
  | String c r =>
      if Ascii.eqb c sep then EmptyString :: segments sep r
      else match segments sep r with
           | seg :: segs => String c seg :: segs
           | [] => [String c EmptyString]
           end
  end.

(** One turn of the loop of [parseQuery] on the piece [seg]. *)
Definition parsePair (m : gmap string (list string)) (seg : string)
    : gmap string (list string) :=
  if contains ";" seg then m
  else if String.eqb seg "" then m
  else
    let '(key, val) := cut "=" seg in
    match QueryUnescape key with
    | None => m
    | Some key =>
        match QueryUnescape val with
        | None => m
        | Some val => <[key := default [] (m !! key) ++ [val]]> m
        end
    end.

Definition ParseQuery (query : string) : gmap string (list string) :=
  foldl parsePair ∅ (segments "&" query).

(** [u.Query()]. *)
Definition Query (u : URL) : gmap string (list string) := ParseQuery (RawQuery u).

(** [v.Get(key)]: the first value of [key], or the empty string. *)
Definition Get (v : gmap string (list string)) (key : string) : string :=
  match v !! key with
  | Some (x :: _) => x
  | _ => ""
  end.

(** [v.Set(key, value)]. *)
Definition Set_ (v : gmap string (list string)) (key val : string)
    : gmap string (list string) :=
  <[key := [val]]> v.

(** The keys of [v] in the order of [sort.Strings]. *)
Definition sortedKeys (v : gmap string (list string)) : list string :=
  merge_sort (fun a b => Is_true (String.leb a b)) (map fst (map_to_list v)).

(** [v.Encode()]: [key=value] pairs, sorted by key, joined by [&]. *)
Definition Encode (v : gmap string (list string)) : string :=
  foldl (fun buf k =>
           let keyEscaped := QueryEscape k in
           foldl (fun buf val =>
                    let buf := if (0 <? String.length buf)%nat
                               then buf +:+ "&" else buf in
                    buf +:+ keyEscaped +:+ "=" +:+ QueryEscape val)
                 buf (default [] (v !! k)))
        "" (sortedKeys v).

Definition set_RawQuery (u : URL) (q : string) : URL :=
  {| Scheme := Scheme u; Host := Host u; Path := Path u; RawQuery := q |}.

Definition set_Scheme_Host (u : URL) (scheme hostport : string) : URL :=
  {| Scheme := scheme; Host := hostport; Path := Path u; RawQuery := RawQuery u |}.

End NetUrl.

(** ** encoding/base64: [StdEncoding.EncodeToString] *)

Module Base64.

Definition alphabet : list ascii :=
  list_ascii_of_string
    "ABCDEFGHIJKLMNOPQRSTUVWXYZabcdefghijklmnopqrstuvwxyz0123456789+/".

Definition enc (n : N) : ascii := nth (N.to_nat n) alphabet "A"%char.

Fixpoint encode (bs : list N) : string :=
  match bs with
  | [] => EmptyString
  | [a] =>
      String (enc (N.shiftr a 2))
        (String (enc (N.shiftl (N.land a 3) 4)) "==")
  | [a; b] =>
      String (enc (N.shiftr a 2))
        (String (enc (N.lor (N.shiftl (N.land a 3) 4) (N.shiftr b 4)))
           (String (enc (N.shiftl (N.land b 15) 2)) "="))
  | a :: b :: c :: rest =>
      String (enc (N.shiftr a 2))
        (String (enc (N.lor (N.shiftl (N.land a 3) 4) (N.shiftr b 4)))
           (String (enc (N.lor (N.shiftl (N.land b 15) 2) (N.shiftr c 6)))
              (String (enc (N.land c 63)) (encode rest))))
  end.

Definition EncodeToString (s : string) : string :=
  encode (map N_of_ascii (list_ascii_of_string s)).

End Base64.

(** ** net/http: requests and responses

    The fields of [http.Request] and [http.Response] that the code reads
    or writes.  Of the request's context the model keeps the two things
    the code uses: the value stored under [http.LocalAddrContextKey]
    (rendered by its [String] method, [None] when it is absent or not a
    [net.Addr]) and the timeout set by [context.WithTimeout]. *)

Record Request : Type := {
  Method : string;
  req_URL : URL;
  Header : gmap string (list string);
  Body : string;
  RemoteAddr : string;
  ctx_LocalAddr : option string;
  ctx_Timeout : option Z
}.

Record Response : Type := {
  StatusCode : Z;
  resp_Body : string
}.

Definition StatusOK : Z := 200.

Module Http.

(** [h.Get(key)] and [h.Set(key, value)] for a key in canonical form. *)
Definition Header_Get (h : gmap string (list string)) (key : string) : string :=
  match h !! key with
  | Some (x :: _) => x
  | _ => ""
  end.

Definition Header_Set (h : gmap string (list string)) (key val : string)
    : gmap string (list string) :=
  <[key := [val]]> h.

Definition set_Header (r : Request) (h : gmap string (list string)) : Request :=
  {| Method := Method r; req_URL := req_URL r; Header := h; Body := Body r;
     RemoteAddr := RemoteAddr r; ctx_LocalAddr := ctx_LocalAddr r;
     ctx_Timeout := ctx_Timeout r |}.

Definition set_URL (r : Request) (u : URL) : Request :=
  {| Method := Method r; req_URL := u; Header := Header r; Body := Body r;
     RemoteAddr := RemoteAddr r; ctx_LocalAddr := ctx_LocalAddr r;
     ctx_Timeout := ctx_Timeout r |}.

(** [req.WithContext(ctx)] for a [ctx] made by [context.WithTimeout] from
    [context.Background()]. *)
Definition WithTimeout (r : Request) (timeout : Z) : Request :=
  {| Method := Method r; req_URL := req_URL r; Header := Header r;
     Body := Body r; RemoteAddr := RemoteAddr r; ctx_LocalAddr := None;
     ctx_Timeout := Some timeout |}.

(** The value of the header that [SetBasicAuth] writes. *)
Definition basicAuth (username password : string) : string :=
  "Basic " +:+ Base64.EncodeToString (username +:+ ":" +:+ password).

Definition SetBasicAuth (r : Request) (username password : string) : Request :=
  set_Header r (Header_Set (Header r) "Authorization" (basicAuth username password)).

Definition UserAgent (r : Request) : string := Header_Get (Header r) "User-Agent".

(** [http.NewRequest(method, url, strings.NewReader(body))] for a valid
    method; it fails when [url.Parse], passed as [url_Parse], does. *)
Definition NewRequest (url_Parse : string -> URL + string)
    (method url body : string) : Request + string :=
  match url_Parse url with
  | inl u => inl {| Method := method; req_URL := u; Header := ∅; Body := body;
                    RemoteAddr := ""; ctx_LocalAddr := None;
                    ctx_Timeout := None |}
  | inr err => inr err
  end.

End Http.

(** ** Errors

    One constructor per [fmt.Errorf] site of the file, carrying the
    arguments of the format string. *)

Inductive error : Type :=
| ErrNoActiveHosts
    (* "no active hosts" *)
| ErrUserLimit (name : string) (limit : Z)
    (* "limits for user %q are exceeded: maxConcurrentQueries limit: %d" *)
| ErrClusterUserLimit (name : string) (limit : Z)
    (* "limits for cluster user %q are exceeded: maxConcurrentQueries limit: %d" *)
| ErrCreateRequest (address : string) (cause : string)
    (* "error while creating kill query request to %s: %s" *)
| ErrExecute (query address : string) (cause : string)
    (* "error while executing clickhouse query %q at %q: %s" *)
| ErrUnexpectedStatus (query address : string) (code : Z) (responseBody : string).
    (* "unexpected status code returned from query %q at %q: %d. Response body: %q" *)

(** ** Promoted counter methods of user and clusterUser *)

Module UserOps.

Definition set_counter (u : user) (qc : queryCounter) : user :=
  {| toUser := toUser u; toCluster := toCluster u; denyHTTP := denyHTTP u;
     denyHTTPS := denyHTTPS u; allowedNetworks := allowedNetworks u;
     u_name := u_name u; u_password := u_password u;
     u_maxExecutionTime := u_maxExecutionTime u;
     u_maxConcurrentQueries := u_maxConcurrentQueries u;
     u_queryCounter := qc |}.

Definition runningQueries (u : user) : Z :=
  QueryCounter.runningQueries (u_queryCounter u).

Definition inc (u : user) : user * Z :=
  let '(qc, v) := QueryCounter.inc (u_queryCounter u) in (set_counter u qc, v).

Definition dec (u : user) : user :=
  set_counter u (QueryCounter.dec (u_queryCounter u)).

End UserOps.

Module ClusterUserOps.

Definition set_counter (cu : clusterUser) (qc : queryCounter) : clusterUser :=
  {| cu_name := cu_name cu; cu_password := cu_password cu;
     cu_maxExecutionTime := cu_maxExecutionTime cu;
     cu_maxConcurrentQueries := cu_maxConcurrentQueries cu;
     cu_queryCounter := qc |}.

Definition runningQueries (cu : clusterUser) : Z :=
  QueryCounter.runningQueries (cu_queryCounter cu).

Definition inc (cu : clusterUser) : clusterUser * Z :=
  let '(qc, v) := QueryCounter.inc (cu_queryCounter cu) in (set_counter cu qc, v).

Definition dec (cu : clusterUser) : clusterUser :=
  set_counter cu (QueryCounter.dec (cu_queryCounter cu)).

End ClusterUserOps.

(** ** scope

    A [scope] value holds the scope's own field [id] and the current state
    of the objects its four pointers lead to.  [s_host] points into the
    host slice of [s_cluster] (that is where [newScope] takes it from), so
    a change of the host's counter is a change of the cluster's host. *)

Record scope : Type := {
  id : Z;
  s_host : nat;
  s_cluster : cluster;
  s_user : user;
  s_clusterUser : clusterUser
}.

Module ScopeOps.

(** The host [s.host] points to; [None] stands for a nil or dangling
    pointer. *)
Definition host_of (s : scope) : option host := hosts (s_cluster s) !! s_host s.

Definition set_user (s : scope) (u : user) : scope :=
  {| id := id s; s_host := s_host s; s_cluster := s_cluster s;
     s_user := u; s_clusterUser := s_clusterUser s |}.

Definition set_clusterUser (s : scope) (cu : clusterUser) : scope :=
  {| id := id s; s_host := s_host s; s_cluster := s_cluster s;
     s_user := s_user s; s_clusterUser := cu |}.

(** Store [h] in the object [s.host] points to. *)
Definition set_host (s : scope) (h : host) : scope :=
  let c := s_cluster s in
  {| id := id s; s_host := s_host s;
     s_cluster := {| nextIdx := nextIdx c; hosts := <[s_host s := h]> (hosts c);
                     users := users c;
                     killQueryUserName := killQueryUserName c;
                     killQueryUserPassword := killQueryUserPassword c;
                     heartBeatInterval := heartBeatInterval c |};
     s_user := s_user s; s_clusterUser := s_clusterUser s |}.

(** [dec]: host first, then user, then cluster user. *)
Definition dec (s : scope) : scope * outcome unit :=
  match host_of s with
  | None => (s, Panicked)
  | Some h =>
      let s := set_host s (HostOps.dec h) in
      let s := set_user s (UserOps.dec (s_user s)) in
      let s := set_clusterUser s (ClusterUserOps.dec (s_clusterUser s)) in
      (s, Returned tt)
  end.

Definition inc (s : scope) : scope * outcome (option error) :=
  let '(u, uq) := UserOps.inc (s_user s) in
  let s := set_user s u in
  let '(cu, cq) := ClusterUserOps.inc (s_clusterUser s) in
  let s := set_clusterUser s cu in
  match host_of s with
  | None => (s, Panicked)
  | Some h =>
      let s := set_host s (fst (HostOps.inc h)) in
      let err : option error := None in
      let err :=
        if (0 <? u_maxConcurrentQueries (s_user s))
           && (u_maxConcurrentQueries (s_user s) <? uq)
        then Some (ErrUserLimit (u_name (s_user s))
                                (u_maxConcurrentQueries (s_user s)))
        else err in
      let err :=
        if (0 <? cu_maxConcurrentQueries (s_clusterUser s))
           && (cu_maxConcurrentQueries (s_clusterUser s) <? cq)
        then Some (ErrClusterUserLimit (cu_name (s_clusterUser s))
                                       (cu_maxConcurrentQueries (s_clusterUser s)))
        else err in
      match err with
      | Some e =>
          match dec s with
          | (s, Returned _) => (s, Returned (Some e))
          | (s, _) => (s, Panicked)
          end
      | None => (s, Returned None)
      end
  end.

(** [newScope]: the first component is the new value of the process-wide
    [scopeID], the second the cluster after [getHost]. *)
Definition newScope (scopeID : Z) (u : user) (cu : clusterUser) (c : cluster)
    : Z * cluster * outcome (scope + error) :=
  match ClusterOps.getHost c with
  | (c, Returned None) => (scopeID, c, Returned (inr ErrNoActiveHosts))
  | (c, Returned (Some h)) =>
      let i := AddUint32 scopeID 1 in
      (i, c, Returned (inl {| id := i; s_host := h; s_cluster := c;
                              s_user := u; s_clusterUser := cu |}))
  | (c, Panicked) => (scopeID, c, Panicked)
  | (c, OutOfFuel) => (scopeID, c, OutOfFuel)
  end.

(** The three counters an admission touches: proxy user, cluster user,
    host. *)
Definition counters (s : scope) : Z * Z * option Z :=
  (UserOps.runningQueries (s_user s),
   ClusterUserOps.runningQueries (s_clusterUser s),
   (fun h => QueryCounter.runningQueries (host_queryCounter h)) <$> host_of s).

Definition killQueryTimeout : Z := 30 * 1000000000.

(** The text of the cancellation query for scope identifier [i]. *)
Definition killQueryText (i : Z) : string :=
  "KILL QUERY WHERE query_id = '" +:+ Itoa i +:+ "'".

Section Externals.

(** What the standard library and the network contribute to [killQuery]:
    [url.Parse], [URL.String] and [http.DefaultClient.Do]; the right
    injection is an error with its message. *)
Variable url_Parse : string -> URL + string.
Variable URL_String : URL -> string.
Variable http_Do : Request -> Response + string.

(** [killQuery] returns its result together with the requests handed to
    [http.DefaultClient.Do], in order. *)
Definition killQuery (s : scope) : list Request * outcome (option error) :=
  if (String.length (killQueryUserName (s_cluster s)) =? 0)%nat then
    ([], Returned None)
  else
    let query := killQueryText (id s) in
    match host_of s with
    | None => ([], Panicked)
    | Some h =>
        let address := URL_String (addr h) in
        match Http.NewRequest url_Parse "POST" address query with
        | inr err => ([], Returned (Some (ErrCreateRequest address err)))
        | inl req =>
            let req := Http.WithTimeout req killQueryTimeout in
            let req := Http.SetBasicAuth req (killQueryUserName (s_cluster s))
                         (killQueryUserPassword (s_cluster s)) in
            match http_Do req with
            | inr err => ([req], Returned (Some (ErrExecute query address err)))
            | inl resp =>
                if negb (StatusCode resp =? StatusOK) then
                  let responseBody := resp_Body resp in
                  ([req], Returned (Some (ErrUnexpectedStatus query address
                                            (StatusCode resp) responseBody)))
                else ([req], Returned None)
            end
        end
    end.

End Externals.

(** The query parameters that [decorateRequest] builds for scope [s] from
    the inbound request [req]. *)
Definition decorateParams (s : scope) (req : Request) : gmap string (list string) :=
  let params : gmap string (list string) := ∅ in
  let params := NetUrl.Set_ params "query_id" (Itoa (int_of_uint32 (id s))) in
  let q := NetUrl.Get (NetUrl.Query (req_URL req)) "query" in
  if (0 <? String.length q)%nat then NetUrl.Set_ params "query" q else params.

(** [decorateRequest] changes [req] in place and returns it; the model
    returns the changed request.  The line the function prints on
    standard output is left out. *)
Definition decorateRequest (s : scope) (req : Request) : outcome Request :=
  let params := decorateParams s req in
  let req := Http.set_URL req (NetUrl.set_RawQuery (req_URL req) (NetUrl.Encode params)) in
  let req := Http.SetBasicAuth req (cu_name (s_clusterUser s))
               (cu_password (s_clusterUser s)) in
  match host_of s with
  | None => Panicked
  | Some h =>
      let req := Http.set_URL req
                   (NetUrl.set_Scheme_Host (req_URL req)
                      (Scheme (addr h)) (Host (addr h))) in
      let localAddr := match ctx_LocalAddr req with
                       | Some a => a
                       | None => "unknown"
                       end in
      let ua := "RemoteAddr: " +:+ RemoteAddr req +:+ "; LocalAddr: " +:+ localAddr
                +:+ "; CHProxy-User: " +:+ u_name (s_user s)
                +:+ "; CHProxy-ClusterUser: " +:+ cu_name (s_clusterUser s)
                +:+ "; " +:+ Http.UserAgent req in
      Returned (Http.set_Header req (Http.Header_Set (Header req) "User-Agent" ua))
  end.

End ScopeOps.

(** ** Penalties and their deferred decay

    [penalize] is a sequence of atomic operations: it loads the penalty,
    returns if that is at the maximum, and otherwise counts the penalty in
    a metric, adds it, and hands the decay to [time.AfterFunc].  Decays
    of earlier calls run on the timers' own goroutines and can fall
    between these operations, so the model takes the operations one by
    one.  In this first model calls of [penalize] come one after
    another; calls that overlap are modelled further down.  The model keeps,
    next to the host, the current time and the timers that are pending;
    a timer is the instant (in nanoseconds) at which its function becomes
    due, and the runtime runs it once, at that instant or later. *)

Inductive penalizeCall : Type :=
| Loaded (p : Z)    (* [p] was loaded and found below the maximum *)
| Added.            (* the penalty was added, the timer is not yet set *)

Record penaltyWorld : Type := {
  pw_host : host;
  pw_now : Z;
  pw_timers : list Z;
  pw_hostPenalties : Z;              (* the metric hostPenalties{host} *)
  pw_call : option penalizeCall      (* the call in progress, if any *)
}.

Inductive penaltyEvent : Type :=
| CallLoads                  (* a call of [h.penalize()] starts and loads *)
| CallAdds                   (* the call in progress counts and adds *)
| CallSchedules              (* the call in progress sets the timer, returns *)
| TimePasses (d : Z)         (* the clock advances by [d] nanoseconds *)
| TimerFires (k : nat).      (* the runtime runs the [k]-th pending timer *)

Module Penalty.

Definition set_penalty (h : host) (p : Z) : host :=
  {| penalty := p; active := active h; addr := addr h;
     host_queryCounter := host_queryCounter h |}.

(** [p := atomic.LoadUint32(&h.penalty); if p >= penaltyMaxSize { return }]. *)
Definition load (w : penaltyWorld) : penaltyWorld :=
  let p := penalty (pw_host w) in
  if penaltyMaxSize <=? p then w
  else {| pw_host := pw_host w; pw_now := pw_now w; pw_timers := pw_timers w;
          pw_hostPenalties := pw_hostPenalties w; pw_call := Some (Loaded p) |}.

(** [hostPenalties.With(...).Inc(); atomic.AddUint32(&h.penalty, penaltySize)]. *)
Definition add (w : penaltyWorld) : penaltyWorld :=
  {| pw_host := set_penalty (pw_host w) (AddUint32 (penalty (pw_host w)) penaltySize);
     pw_now := pw_now w; pw_timers := pw_timers w;
     pw_hostPenalties := pw_hostPenalties w + 1; pw_call := Some Added |}.

(** [time.AfterFunc(penaltyDuration, ...)], and the call returns. *)
Definition schedule (w : penaltyWorld) : penaltyWorld :=
  {| pw_host := pw_host w; pw_now := pw_now w;
     pw_timers := pw_timers w ++ [pw_now w + penaltyDuration];
     pw_hostPenalties := pw_hostPenalties w; pw_call := None |}.

(** A whole call of [penalize] with nothing in between. *)
Definition penalize (w : penaltyWorld) : penaltyWorld :=
  let p := penalty (pw_host w) in
  if penaltyMaxSize <=? p then w else schedule (add (load w)).

(** The function handed to [time.AfterFunc]. *)
Definition decay (h : host) : host :=
  set_penalty h (AddUint32 (penalty h) (U32.not (penaltySize - 1))).

(** One event; [None] when the event cannot happen in [w]: the
    operations of a call come in their order and calls do not overlap,
    time does not run backwards, and a timer fires only when it is
    pending and due. *)
Definition step (w : penaltyWorld) (e : penaltyEvent) : option penaltyWorld :=
  match e with
  | CallLoads =>
      match pw_call w with
      | None => Some (load w)
      | Some _ => None
      end
  | CallAdds =>
      match pw_call w with
      | Some (Loaded _) => Some (add w)
      | _ => None
      end
  | CallSchedules =>
      match pw_call w with
      | Some Added => Some (schedule w)
      | _ => None
      end
  | TimePasses d =>
      if 0 <=? d then
        Some {| pw_host := pw_host w; pw_now := pw_now w + d;
                pw_timers := pw_timers w;
                pw_hostPenalties := pw_hostPenalties w; pw_call := pw_call w |}
      else None
  | TimerFires k =>
      match pw_timers w !! k with
      | Some due =>
          if due <=? pw_now w then
            Some {| pw_host := decay (pw_host w); pw_now := pw_now w;
                    pw_timers := delete k (pw_timers w);
                    pw_hostPenalties := pw_hostPenalties w;
                    pw_call := pw_call w |}
          else None
      | None => None
      end
  end.

Fixpoint run (w : penaltyWorld) (es : list penaltyEvent) : option penaltyWorld :=
  match es with
  | [] => Some w
  | e :: es' =>
      match step w e with
      | Some w' => run w' es'
      | None => None
      end
  end.

(** A host at time [t0] with nothing scheduled and no call in progress. *)
Definition start (h : host) (t0 : Z) : penaltyWorld :=
  {| pw_host := h; pw_now := t0; pw_timers := []; pw_hostPenalties := 0;
     pw_call := None |}.

(** Every unit of penalty is owed to a pending timer, or to the timer
    that the call in progress is about to set; at most 60 such timers
    exist; and a call that has loaded [p] finds at most [p] when it adds,
    since in between the penalty can only decay. *)
Definition inv (w : penaltyWorld) : Prop :=
  let n := Z.of_nat (length (pw_timers w)) in
  match pw_call w with
  | None =>
      penalty (pw_host w) = penaltySize * n /\ penaltySize * n <= penaltyMaxSize
  | Some (Loaded p) =>
      penalty (pw_host w) = penaltySize * n /\
      penalty (pw_host w) <= p /\ p < penaltyMaxSize
  | Some Added =>
      penalty (pw_host w) = penaltySize * (n + 1) /\
      penaltySize * (n + 1) <= penaltyMaxSize
  end.

End Penalty.

(** [n] successive calls of [call] on the same cluster, with the results
    in call order. *)
Fixpoint successive {R : Type} (call : cluster -> cluster * R) (n : nat)
    (c : cluster) : cluster * list R :=
  match n with
  | O => (c, [])
  | S n' =>
      let '(c1, r) := call c in
      let '(c2, rs) := successive call n' c1 in
      (c2, r :: rs)
  end.

(** Number of hosts scanned before host [x] when the scan starts at
    [start] in a cluster of [l] hosts. *)
Definition scanPos (l start x : Z) : Z := (x - start) mod l.

(** Loop invariant of the scan of [getHost] over hosts that are all
    active: [idle] is the first host of least load among the first [k]
    hosts in scan order from [idx], and [idleN] is its load. *)
Definition scanned (hs : list host) (l idx k : Z) (idle : nat) (idleN : Z) : Prop :=
  exists m h,
    0 <= m < k /\ idle = Z.to_nat ((idx + m) mod l) /\
    hs !! idle = Some h /\ HostOps.runningQueries h = idleN /\
    forall m' h',
      0 <= m' < k -> hs !! Z.to_nat ((idx + m') mod l) = Some h' ->
      idleN <= HostOps.runningQueries h' /\
      (HostOps.runningQueries h' = idleN -> m <= m').

(** ** Scenario data *)

Definition mkURL (scheme hostport : string) : URL :=
  {| Scheme := scheme; Host := hostport; Path := ""; RawQuery := "" |}.

(** A host named [hostport] with the given [active] flag, running-query
    counter and penalty. *)
Definition mkHost (hostport : string) (act running pen : Z) : host :=
  {| penalty := pen; active := act; addr := mkURL "http" hostport;
     host_queryCounter := {| value := running |} |}.

(** A cluster without cancellation credentials. *)
Definition mkCluster (next : Z) (hs : list host) : cluster :=
  {| nextIdx := next; hosts := hs; users := ∅;
     killQueryUserName := ""; killQueryUserPassword := "";
     heartBeatInterval := 5 * 1000000000 |}.

(** S1: three idle, active hosts and the cursor at 0. *)
Definition clusterS1 : cluster :=
  mkCluster 0 [mkHost "A:8123" 1 0 0; mkHost "B:8123" 1 0 0; mkHost "C:8123" 1 0 0].

(** S2: three active hosts with 3, 1 and 2 running queries; the cursor is
    such that the scan starts at the first host. *)
Definition clusterS2 : cluster :=
  mkCluster 2 [mkHost "A:8123" 1 3 0; mkHost "B:8123" 1 1 0; mkHost "C:8123" 1 2 0].

(** An inactive idle host followed by an active host with one running
    query; the cursor is such that the scan starts at the inactive host. *)
Definition clusterInactiveStart : cluster :=
  mkCluster 1 [mkHost "A:8123" 0 0 0; mkHost "B:8123" 1 1 0].

Definition mkUser (name : string) (limit running : Z) : user :=
  {| toUser := ""; toCluster := ""; denyHTTP := false; denyHTTPS := false;
     allowedNetworks := []; u_name := name; u_password := "";
     u_maxExecutionTime := 0; u_maxConcurrentQueries := limit;
     u_queryCounter := {| value := running |} |}.

Definition mkClusterUser (name password : string) (limit running : Z) : clusterUser :=
  {| cu_name := name; cu_password := password; cu_maxExecutionTime := 0;
     cu_maxConcurrentQueries := limit;
     cu_queryCounter := {| value := running |} |}.

(** S4: a proxy user limited to two concurrent queries that already runs
    [running] of them, an unlimited cluster user and one idle host. *)
Definition scopeS4 (running : Z) : scope :=
  {| id := 7; s_host := 0;
     s_cluster := mkCluster 0 [mkHost "h1:8123" 1 running 0];
     s_user := mkUser "web" 2 running;
     s_clusterUser := mkClusterUser "default" "secret" 0 running |}.

(** A scope whose unlimited proxy user has a counter at the largest
    [uint32]. *)
Definition scopeWrap : scope :=
  {| id := 7; s_host := 0;
     s_cluster := mkCluster 0 [mkHost "h1:8123" 1 0 0];
     s_user := mkUser "web" 0 4294967295;
     s_clusterUser := mkClusterUser "default" "secret" 0 0 |}.

(** Two penalties, the second one interrupted by a clock advance, then
    ten seconds later the decay of the first. *)
Definition penaltyTrace : list penaltyEvent :=
  [CallLoads; CallAdds; CallSchedules;
   CallLoads; TimePasses 1000; CallAdds; CallSchedules;
   TimePasses (10 * 1000000000); TimerFires 0].

Definition penaltyTraceEnd : penaltyWorld :=
  {| pw_host := mkHost "h1:8123" 1 0 5; pw_now := 10 * 1000000000 + 1000;
     pw_timers := [10 * 1000000000 + 1000]; pw_hostPenalties := 2;
     pw_call := None |}.

(** S5: scope 7 on host [http://h1:8123] of a cluster with cancellation
    credentials. *)
Definition scopeS5 : scope :=
  {| id := 7; s_host := 0;
     s_cluster := {| nextIdx := 0; hosts := [mkHost "h1:8123" 1 0 0]; users := ∅;
                     killQueryUserName := "killer";
                     killQueryUserPassword := "hunter2";
                     heartBeatInterval := 5 * 1000000000 |};
     s_user := mkUser "web" 0 0;
     s_clusterUser := mkClusterUser "default" "secret" 0 0 |}.

(** The same scope on a cluster without cancellation credentials. *)
Definition scopeNoKill : scope :=
  {| id := 7; s_host := 0;
     s_cluster := mkCluster 0 [mkHost "h1:8123" 1 0 0];
     s_user := mkUser "web" 0 0;
     s_clusterUser := mkClusterUser "default" "secret" 0 0 |}.

(** Stand-ins for the library and the backend in the scenarios: a URL
    made of a scheme and a host is rendered as [scheme://host]; parsing
    yields a given URL; the backend answers every request with a given
    status and body. *)
Definition renderURL (u : URL) : string := Scheme u +:+ "://" +:+ Host u.

Definition parseTo (u : URL) (text : string) : URL + string := inl u.

Definition respond (code : Z) (body : string) (req : Request) : Response + string :=
  inl {| StatusCode := code; resp_Body := body |}.

(** An inbound request with the given raw query. *)
Definition inbound (rawQuery : string) : Request :=
  {| Method := "GET";
     req_URL := {| Scheme := "http"; Host := "in"; Path := "/"; RawQuery := rawQuery |};
     Header := {["User-Agent" := ["curl/7.58.0"]]}; Body := "";
     RemoteAddr := "10.0.0.9:51234"; ctx_LocalAddr := Some "10.0.0.1:9090";
     ctx_Timeout := None |}.

(** ** Sequences of calls *)

(** A sequence of [inc] and [dec] calls on one counter. *)
Inductive counterOp : Type :=
| OpInc
| OpDec.

Definition applyOp (qc : queryCounter) (op : counterOp) : queryCounter :=
  match op with
  | OpInc => fst (QueryCounter.inc qc)
  | OpDec => QueryCounter.dec qc
  end.

Definition applyOps (qc : queryCounter) (ops : list counterOp) : queryCounter :=
  foldl applyOp qc ops.

(** The number of elements of [l] that satisfy [f]. *)
Fixpoint countIf {A : Type} (f : A -> bool) (l : list A) : Z :=
  match l with
  | [] => 0
  | x :: l' => (if f x then 1 else 0) + countIf f l'
  end.

Definition isInc (op : counterOp) : bool :=
  match op with
  | OpInc => true
  | OpDec => false
  end.

(** [runHeartbeat] up to the moment [done] is signalled: the health
    check made at once, with outcome [first], and one check per elapsed
    interval, with outcomes [ticks]. *)
Definition runHeartbeat (first : bool) (ticks : list bool) (h : host) : host :=
  foldl (fun h healthy => HostOps.heartbeat healthy h)
        (HostOps.heartbeat first h) ticks.

(** [n] calls of [newScope] in a row for the same user, cluster user and
    cluster: the final [scopeID], the final cluster, and the results in
    call order. *)
Fixpoint newScopes (n : nat) (scopeID : Z) (u : user) (cu : clusterUser)
    (c : cluster) : Z * cluster * list (outcome (scope + error)) :=
  match n with
  | O => (scopeID, c, [])
  | S n' =>
      let '(scopeID1, c1, r) := ScopeOps.newScope scopeID u cu c in
      let '(scopeID2, c2, rs) := newScopes n' scopeID1 u cu c1 in
      (scopeID2, c2, r :: rs)
  end.

(** The identifiers of the scopes among the results of [newScopes]. *)
Definition scopeIds (rs : list (outcome (scope + error))) : list Z :=
  omap (fun r => match r with
                 | Returned (inl s) => Some (id s)
                 | _ => None
                 end) rs.

Definition isAdd (e : penaltyEvent) : bool :=
  match e with
  | CallAdds => true
  | _ => false
  end.

Definition isFire (e : penaltyEvent) : bool :=
  match e with
  | TimerFires _ => true
  | _ => false
  end.

(** A host that [getHost] can select: the host under the advanced cursor
    (position 0 of the scan), whatever its state, or an active host. *)
Definition candidateAt (hs : list host) (l idx m : Z) (h : host) : Prop :=
  hs !! Z.to_nat ((idx + m) mod l) = Some h /\
  (m = 0 \/ HostOps.isActive h = true).

(** Loop invariant of the scan of [getHost] while no active host is
    idle: [idle] is the first candidate of least load among the first
    [k] hosts in scan order from [idx], and [idleN] is its load. *)
Definition scannedCandidates (hs : list host) (l idx k : Z) (idle : nat)
    (idleN : Z) : Prop :=
  exists m h,
    0 <= m < k /\ idle = Z.to_nat ((idx + m) mod l) /\
    candidateAt hs l idx m h /\ HostOps.runningQueries h = idleN /\
    forall m' h',
      0 <= m' < k -> candidateAt hs l idx m' h' ->
      idleN <= HostOps.runningQueries h' /\
      (HostOps.runningQueries h' = idleN -> m <= m').

(** An inactive idle host under the cursor, a loaded active host and an
    idle active host behind it. *)
Definition clusterIdleLast : cluster :=
  mkCluster 2 [mkHost "A:8123" 0 0 0; mkHost "B:8123" 1 2 0; mkHost "C:8123" 1 0 0].

(** An inactive host with five running queries under the cursor, and two
    active hosts with four and two running queries. *)
Definition clusterMixed : cluster :=
  mkCluster 2 [mkHost "A:8123" 0 5 0; mkHost "B:8123" 1 4 0; mkHost "C:8123" 1 2 0].

(** A scope whose proxy user and cluster user are both at a limit of
    one running query. *)
Definition scopeBothLimits : scope :=
  {| id := 7; s_host := 0;
     s_cluster := mkCluster 0 [mkHost "h1:8123" 1 1 0];
     s_user := mkUser "web" 1 1;
     s_clusterUser := mkClusterUser "default" "secret" 1 1 |}.

(** ** Overlapping calls of [penalize]

    Nothing serialises the callers of [penalize]: the load, the
    comparison and the addition are separate operations on the shared
    host, so any number of calls can be between their load and their
    timer, and their operations interleave with one another, with the
    decays and with the clock.  The calls in progress are kept in a list,
    in the order in which they started. *)

Record overlapWorld : Type := {
  ow_host : host;
  ow_now : Z;
  ow_timers : list Z;
  ow_hostPenalties : Z;              (* the metric hostPenalties{host} *)
  ow_calls : list penalizeCall       (* the calls in progress *)
}.

Inductive overlapEvent : Type :=
| Loads                   (* a call of [h.penalize()] starts and loads *)
| Adds (i : nat)          (* the [i]-th call in progress counts and adds *)
| Schedules (i : nat)     (* the [i]-th call in progress sets the timer, returns *)
| Passes (d : Z)          (* the clock advances by [d] nanoseconds *)
| Fires (k : nat).        (* the runtime runs the [k]-th pending timer *)

Definition isLoaded (c : penalizeCall) : bool :=
  match c with
  | Loaded _ => true
  | Added => false
  end.

Definition isAdded (c : penalizeCall) : bool :=
  match c with
  | Loaded _ => false
  | Added => true
  end.

Module Overlap.

(** [p := atomic.LoadUint32(&h.penalty); if p >= penaltyMaxSize { return }]:
    the call returns at once, or is in progress with [p] in hand. *)
Definition load (w : overlapWorld) : overlapWorld :=
  let p := penalty (ow_host w) in
  if penaltyMaxSize <=? p then w
  else {| ow_host := ow_host w; ow_now := ow_now w; ow_timers := ow_timers w;
          ow_hostPenalties := ow_hostPenalties w;
          ow_calls := ow_calls w ++ [Loaded p] |}.

(** [hostPenalties.With(...).Inc(); atomic.AddUint32(&h.penalty, penaltySize)]
    of the [i]-th call in progress. *)
Definition add (i : nat) (w : overlapWorld) : overlapWorld :=
  {| ow_host := Penalty.set_penalty (ow_host w)
                  (AddUint32 (penalty (ow_host w)) penaltySize);
     ow_now := ow_now w; ow_timers := ow_timers w;
     ow_hostPenalties := ow_hostPenalties w + 1;
     ow_calls := <[i := Added]> (ow_calls w) |}.

(** [time.AfterFunc(penaltyDuration, ...)] of the [i]-th call in
    progress, which then returns. *)
Definition schedule (i : nat) (w : overlapWorld) : overlapWorld :=
  {| ow_host := ow_host w; ow_now := ow_now w;
     ow_timers := ow_timers w ++ [ow_now w + penaltyDuration];
     ow_hostPenalties := ow_hostPenalties w;
     ow_calls := delete i (ow_calls w) |}.

(** One event; [None] when the event cannot happen in [w]: a call adds
    after its load and sets its timer after its addition, time does not
    run backwards, and a timer fires only when it is pending and due.  A
    new call can start at any moment. *)
Definition step (w : overlapWorld) (e : overlapEvent) : option overlapWorld :=
  match e with
  | Loads => Some (load w)
  | Adds i =>
      match ow_calls w !! i with
      | Some (Loaded _) => Some (add i w)
      | _ => None
      end
  | Schedules i =>
      match ow_calls w !! i with
      | Some Added => Some (schedule i w)
      | _ => None
      end
  | Passes d =>
      if 0 <=? d then
        Some {| ow_host := ow_host w; ow_now := ow_now w + d;
                ow_timers := ow_timers w;
                ow_hostPenalties := ow_hostPenalties w; ow_calls := ow_calls w |}
      else None
  | Fires k =>
      match ow_timers w !! k with
      | Some due =>
          if due <=? ow_now w then
            Some {| ow_host := Penalty.decay (ow_host w); ow_now := ow_now w;
                    ow_timers := delete k (ow_timers w);
                    ow_hostPenalties := ow_hostPenalties w;
                    ow_calls := ow_calls w |}
          else None
      | None => None
      end
  end.

Fixpoint run (w : overlapWorld) (es : list overlapEvent) : option overlapWorld :=
  match es with
  | [] => Some w
  | e :: es' =>
      match step w e with
      | Some w' => run w' es'
      | None => None
      end
  end.

(** A host at time [t0] with nothing scheduled and no call in progress. *)
Definition start (h : host) (t0 : Z) : overlapWorld :=
  {| ow_host := h; ow_now := t0; ow_timers := []; ow_hostPenalties := 0;
     ow_calls := [] |}.

(** The largest number of calls in progress at once along the events
    [es] from [w]. *)
Fixpoint peak (w : overlapWorld) (es : list overlapEvent) : nat :=
  match es with
  | [] => length (ow_calls w)
  | e :: es' =>
      Nat.max (length (ow_calls w))
              (match step w e with
               | Some w' => peak w' es'
               | None => O
               end)
  end.

(** The decays owed: the pending timers and the timers that the calls
    past their addition are about to set. *)
Definition owed (w : overlapWorld) : Z :=
  Z.of_nat (length (ow_timers w)) + countIf isAdded (ow_calls w).

(** The latest instant at which a pending timer becomes due. *)
Definition latest (w : overlapWorld) : Z := foldr Z.max (ow_now w) (ow_timers w).

(** Quiescence: the clock reaches the last due instant and every pending
    timer fires. *)
Definition settle (w : overlapWorld) : list overlapEvent :=
  Passes (latest w - ow_now w) :: replicate (length (ow_timers w)) (Fires 0).

(** Every pending timer is due within [penaltyDuration] of the current
    instant. *)
Definition dueSoon (w : overlapWorld) : Prop :=
  Forall (fun due => due <= ow_now w + penaltyDuration) (ow_timers w).

(** Every unit of penalty is owed to a decay, whatever the number of
    calls in progress; the [uint32] wraps. *)
Definition inv (w : overlapWorld) : Prop :=
  penalty (ow_host w) = U32.wrap (penaltySize * owed w).

(** With at most [n] calls in progress at once: each call between its
    load and its addition found the penalty below the maximum, so the
    decays owed and those calls together stay within the maximum and
    [n - 1] further penalties. *)
Definition within (n : nat) (w : overlapWorld) : Prop :=
  penaltySize * (owed w + countIf isLoaded (ow_calls w))
  <= penaltyMaxSize - penaltySize + penaltySize * Z.of_nat n.

End Overlap.

(** One call after another up to a penalty of 295, then two calls that
    both load 295 before either adds. *)
Definition overlapTrace : list overlapEvent :=
  concat (replicate 59 [Loads; Adds 0; Schedules 0])
  ++ [Loads; Loads; Adds 0; Adds 1].

Definition overlapTraceEnd : overlapWorld :=
  {| ow_host := mkHost "h1:8123" 1 0 305; ow_now := 0;
     ow_timers := replicate 59 (10 * 1000000000); ow_hostPenalties := 61;
     ow_calls := [Added; Added] |}.

(** The same events, and then both calls set their timers. *)
Definition overlapTraceSet : overlapWorld :=
  {| ow_host := mkHost "h1:8123" 1 0 305; ow_now := 0;
     ow_timers := replicate 61 (10 * 1000000000); ow_hostPenalties := 61;
     ow_calls := [] |}.

(** Calls that come one after another, read as overlapping calls of which
    at most one is in progress. *)
Definition overlapOf (w : penaltyWorld) : overlapWorld :=
  {| ow_host := pw_host w; ow_now := pw_now w; ow_timers := pw_timers w;
     ow_hostPenalties := pw_hostPenalties w;
     ow_calls := match pw_call w with
                 | Some c => [c]
                 | None => []
                 end |}.

Definition overlapEventOf (e : penaltyEvent) : overlapEvent :=
  match e with
  | CallLoads => Loads
  | CallAdds => Adds 0
  | CallSchedules => Schedules 0
  | TimePasses d => Passes d
  | TimerFires k => Fires k
  end.

(** * Properties *)

(** ** Counters *)

Section CounterFacts.

Lemma not32_zero : U32.not 0 = 4294967295.
Proof. reflexivity. Qed.

Lemma not32_penalty : U32.not (penaltySize - 1) = 4294967296 - 5.
Proof. reflexivity. Qed.

Lemma wrap_range z : U32.in_range (U32.wrap z).
Proof. unfold U32.in_range, U32.wrap, U32.modulus. apply Z.mod_pos_bound. lia. Qed.

Lemma wrap_small z : U32.in_range z -> U32.wrap z = z.
Proof. unfold U32.in_range, U32.wrap. intros H. apply Z.mod_small. exact H. Qed.

Lemma add_sub_cancel v d :
  U32.in_range v -> 0 < d < U32.modulus ->
  AddUint32 (AddUint32 v d) (U32.modulus - d) = v.
Proof.
  unfold AddUint32, U32.add, U32.wrap, U32.in_range, U32.modulus.
  intros Hv Hd.
  rewrite Zplus_mod_idemp_l.
  replace (v + d + (2 ^ 32 - d)) with (v + 1 * 2 ^ 32) by ring.
  rewrite Z_mod_plus_full. apply Z.mod_small. exact Hv.
Qed.

End CounterFacts.

(** C10.  Counters use wrapping 32-bit arithmetic: [inc] stores and
    returns [(v + 1) mod 2^32], [dec] after [inc] restores the counter, and
    [dec] on a counter holding 0 (a total function, it cannot fail) leaves
    it at [2^32 - 1]. *)
Theorem queryCounter_wraps (qc : queryCounter) :
  U32.in_range (value qc) ->
  snd (QueryCounter.inc qc) = (value qc + 1) mod 2 ^ 32 /\
  value (fst (QueryCounter.inc qc)) = (value qc + 1) mod 2 ^ 32 /\
  QueryCounter.dec (fst (QueryCounter.inc qc)) = qc /\
  QueryCounter.dec {| value := 0 |} = {| value := 2 ^ 32 - 1 |}.
Proof.
  intros Hv. destruct qc as [v]. cbn [value] in *.
  repeat split.
  unfold QueryCounter.dec, QueryCounter.inc. cbn [fst value].
  f_equal. rewrite not32_zero.
  apply (add_sub_cancel v 1 Hv). unfold U32.modulus. lia.
Qed.

Lemma queryCounter_wraps_witness :
  U32.in_range (value {| value := 4294967295 |}) /\
  (snd (QueryCounter.inc {| value := 4294967295 |}) = (4294967295 + 1) mod 2 ^ 32 /\
   value (fst (QueryCounter.inc {| value := 4294967295 |})) = (4294967295 + 1) mod 2 ^ 32 /\
   QueryCounter.dec (fst (QueryCounter.inc {| value := 4294967295 |}))
     = {| value := 4294967295 |} /\
   QueryCounter.dec {| value := 0 |} = {| value := 2 ^ 32 - 1 |}).
Proof.
  split.
  - unfold U32.in_range, U32.modulus. cbn [value]. lia.
  - apply (queryCounter_wraps {| value := 4294967295 |}).
    unfold U32.in_range, U32.modulus. cbn [value]. lia.
Defined.

(** ** Host selection *)

Section GetHost.

Import ClusterOps.

Lemma getHost_finish_active hs idle j :
  getHost_finish hs idle = Returned (Some j) ->
  exists h, hs !! j = Some h /\ HostOps.isActive h = true.
Proof.
  unfold getHost_finish. intros H.
  destruct (hs !! idle) as [h|] eqn:Hl; [|discriminate].
  destruct (HostOps.isActive h) eqn:Ha; cbn in H; [|discriminate].
  injection H as <-. eauto.
Qed.

Lemma getHost_loop_active fuel hs l idx :
  forall i idle idleN j,
    getHost_loop fuel hs l idx i idle idleN = Returned (Some j) ->
    exists h, hs !! j = Some h /\ HostOps.isActive h = true.
Proof.
  induction fuel as [|fuel IH]; intros i idle idleN j H; cbn in H.
  - discriminate.
  - destruct (i =? idx).
    + eapply getHost_finish_active; eassumption.
    + destruct (hs !! Z.to_nat i) as [h|] eqn:Hl; [|discriminate].
      destruct (HostOps.isActive h) eqn:Ha; cbn in H.
      * destruct (HostOps.runningQueries h =? 0).
        -- injection H as <-. eauto.
        -- destruct (HostOps.runningQueries h <? idleN); eapply IH; eassumption.
      * eapply IH; eassumption.
Qed.

(** *** Arithmetic of the circular scan *)

Lemma mod_shift a q l : a mod l = (a + q * l) mod l.
Proof. symmetry. apply Z_mod_plus_full. Qed.

Lemma circ_cases l idx k :
  0 <= idx < l -> 0 <= k <= l ->
  (idx + k < l /\ (idx + k) mod l = idx + k) \/
  (l <= idx + k /\ (idx + k) mod l = idx + k - l).
Proof.
  intros Hidx Hk.
  destruct (Z_lt_le_dec (idx + k) l) as [Hlt|Hge].
  - left. split; [exact Hlt|]. apply Z.mod_small. lia.
  - right. split; [exact Hge|].
    rewrite (mod_shift (idx + k) (-1) l).
    replace (idx + k + -1 * l) with (idx + k - l) by ring.
    apply Z.mod_small. lia.
Qed.

Lemma circ_range l idx k :
  0 <= idx < l -> 0 <= k <= l -> 0 <= (idx + k) mod l < l.
Proof. intros. apply Z.mod_pos_bound. lia. Qed.

Lemma circ_neq l idx k :
  0 <= idx < l -> 1 <= k < l -> (idx + k) mod l <> idx.
Proof.
  intros Hidx Hk.
  destruct (circ_cases l idx k) as [[_ ->]|[_ ->]]; lia.
Qed.

Lemma circ_full l idx : 0 <= idx < l -> (idx + l) mod l = idx.
Proof.
  intros Hidx.
  destruct (circ_cases l idx l) as [[? _]|[_ ->]]; lia.
Qed.

Lemma circ_next l idx k :
  0 <= idx < l -> l < U32.modulus -> 0 <= k < l ->
  U32.add ((idx + k) mod l) 1 mod l = (idx + (k + 1)) mod l.
Proof.
  intros Hidx Hl Hk.
  pose proof (circ_range l idx k Hidx ltac:(lia)) as Hr.
  unfold U32.add. rewrite wrap_small by (unfold U32.in_range; lia).
  rewrite Zplus_mod_idemp_l. f_equal. ring.
Qed.

Lemma circ_first l idx :
  0 <= idx < l -> l < U32.modulus ->
  U32.add idx 1 mod l = (idx + 1) mod l.
Proof.
  intros Hidx Hl.
  pose proof (circ_next l idx 0 Hidx Hl ltac:(lia)) as E.
  rewrite Z.add_0_r, (Z.mod_small idx l) in E by lia. exact E.
Qed.

Lemma scanPos_circ l idx k :
  0 <= idx < l -> 0 <= k < l -> scanPos l idx ((idx + k) mod l) = k.
Proof.
  intros Hidx Hk. unfold scanPos.
  destruct (circ_cases l idx k) as [[? ->]|[? ->]]; try lia.
  - replace (idx + k - idx) with k by ring. apply Z.mod_small. lia.
  - replace (idx + k - l - idx) with (k + (-1) * l) by ring.
    rewrite <- mod_shift. apply Z.mod_small. lia.
Qed.

Lemma circ_scanPos l idx x :
  0 <= idx < l -> 0 <= x < l ->
  0 <= scanPos l idx x < l /\ (idx + scanPos l idx x) mod l = x.
Proof.
  intros Hidx Hx. unfold scanPos.
  destruct (Z_lt_le_dec x idx) as [Hlt|Hge].
  - rewrite (mod_shift (x - idx) 1 l).
    rewrite (Z.mod_small (x - idx + 1 * l)) by lia.
    split; [lia|].
    replace (idx + (x - idx + 1 * l)) with (x + 1 * l) by ring.
    rewrite <- mod_shift. apply Z.mod_small. lia.
  - rewrite (Z.mod_small (x - idx)) by lia.
    split; [lia|].
    replace (idx + (x - idx)) with x by ring. apply Z.mod_small. lia.
Qed.

(** *** The loop returns *)

Lemma getHost_finish_returns hs idle :
  (idle < length hs)%nat -> exists r, getHost_finish hs idle = Returned r.
Proof.
  intros Hlt. unfold getHost_finish.
  destruct (lookup_lt_is_Some_2 hs idle Hlt) as [h ->].
  destruct (negb (HostOps.isActive h)); eauto.
Qed.

Lemma getHost_loop_returns hs l idx :
  0 <= idx < l -> l < U32.modulus -> l <= Z.of_nat (length hs) ->
  forall fuel k idle idleN,
    1 <= k <= l -> l - k < Z.of_nat fuel -> (idle < length hs)%nat ->
    exists r, getHost_loop fuel hs l idx ((idx + k) mod l) idle idleN = Returned r.
Proof.
  intros Hidx Hl Hlen.
  induction fuel as [|fuel IH]; intros k idle idleN Hk Hfuel Hidle.
  - lia.
  - cbn [getHost_loop].
    destruct (Z.eq_dec k l) as [->|Hne].
    + rewrite circ_full by exact Hidx. rewrite Z.eqb_refl.
      apply getHost_finish_returns. exact Hidle.
    + pose proof (circ_neq l idx k Hidx ltac:(lia)) as Hneq.
      pose proof (circ_range l idx k Hidx ltac:(lia)) as Hr.
      apply Z.eqb_neq in Hneq. rewrite Hneq.
      rewrite circ_next by lia.
      assert (Hi : (Z.to_nat ((idx + k) mod l) < length hs)%nat) by lia.
      destruct (lookup_lt_is_Some_2 hs _ Hi) as [h ->].
      destruct (negb (HostOps.isActive h)).
      * apply IH; lia.
      * destruct (HostOps.runningQueries h =? 0); [eauto|].
        destruct (HostOps.runningQueries h <? idleN); apply IH; lia.
Qed.

Lemma getHost_loop_fuel_irrelevant hs l idx :
  0 <= idx < l -> l < U32.modulus -> l <= Z.of_nat (length hs) ->
  forall idle idleN,
    (idle < length hs)%nat ->
    exists r, getHost_loop (length hs) hs l idx (U32.add idx 1 mod l) idle idleN
              = Returned r.
Proof.
  intros Hidx Hl Hlen idle idleN Hidle.
  rewrite circ_first by assumption.
  apply getHost_loop_returns; try assumption; lia.
Qed.

(** *** The scan when every host is active and loaded *)

Section LeastLoaded.

Variable hs : list host.
Variables l idx : Z.
Hypothesis Hlen : l = Z.of_nat (length hs).
Hypothesis Hidx : 0 <= idx < l.
Hypothesis Hl : l < U32.modulus.
Hypothesis Hactive : forall h, h ∈ hs -> HostOps.isActive h = true.
Hypothesis Hloaded : forall h, h ∈ hs -> HostOps.runningQueries h <> 0.

Lemma scanned_start h :
  hs !! Z.to_nat idx = Some h ->
  scanned hs l idx 1 (Z.to_nat idx) (HostOps.runningQueries h).
Proof.
  intros Hh. exists 0, h.
  rewrite Z.add_0_r, (Z.mod_small idx l) by lia.
  split; [lia|]. split; [reflexivity|]. split; [exact Hh|]. split; [reflexivity|].
  intros m' h' Hm' Hh'.
  assert (m' = 0) as -> by lia.
  rewrite Z.add_0_r, (Z.mod_small idx l) in Hh' by lia.
  assert (h' = h) as -> by congruence. lia.
Qed.

Lemma scanned_keep k idle idleN h :
  1 <= k < l ->
  hs !! Z.to_nat ((idx + k) mod l) = Some h ->
  idleN <= HostOps.runningQueries h ->
  scanned hs l idx k idle idleN -> scanned hs l idx (k + 1) idle idleN.
Proof.
  intros Hk Hh Hle (m & hm & Hm & Hidle & Hlk & Hload & Hmin).
  exists m, hm.
  split; [lia|]. do 3 (split; [assumption|]).
  intros m' h' Hm' Hh'.
  destruct (Z.eq_dec m' k) as [->|Hne].
  - assert (h' = h) as -> by congruence. lia.
  - apply (Hmin m' h'); [lia|assumption].
Qed.

Lemma scanned_adopt k idle idleN h :
  1 <= k < l ->
  hs !! Z.to_nat ((idx + k) mod l) = Some h ->
  HostOps.runningQueries h < idleN ->
  scanned hs l idx k idle idleN ->
  scanned hs l idx (k + 1) (Z.to_nat ((idx + k) mod l)) (HostOps.runningQueries h).
Proof.
  intros Hk Hh Hlt (m & hm & Hm & Hidle & Hlk & Hload & Hmin).
  exists k, h.
  split; [lia|]. split; [reflexivity|]. split; [exact Hh|]. split; [reflexivity|].
  intros m' h' Hm' Hh'.
  destruct (Z.eq_dec m' k) as [->|Hne].
  - assert (h' = h) as -> by congruence. lia.
  - destruct (Hmin m' h') as [Hle _]; [lia|assumption|lia].
Qed.

Lemma getHost_loop_least :
  forall fuel k idle idleN,
    1 <= k <= l -> l - k < Z.of_nat fuel -> scanned hs l idx k idle idleN ->
    exists j hj,
      getHost_loop fuel hs l idx ((idx + k) mod l) idle idleN = Returned (Some j) /\
      hs !! j = Some hj /\ scanned hs l idx l j (HostOps.runningQueries hj).
Proof.
  induction fuel as [|fuel IH]; intros k idle idleN Hk Hfuel Hinv.
  - lia.
  - cbn [getHost_loop].
    destruct (Z.eq_dec k l) as [->|Hne].
    + rewrite circ_full by exact Hidx. rewrite Z.eqb_refl.
      destruct Hinv as (m & hm & Hm & Hidle & Hlk & Hload & Hmin).
      exists idle, hm. split; [|split; [exact Hlk|]].
      * unfold getHost_finish. rewrite Hlk.
        rewrite (Hactive hm) by (eapply list_elem_of_lookup_2; eassumption).
        reflexivity.
      * exists m, hm. rewrite Hload.
        split; [exact Hm|]. split; [exact Hidle|]. split; [exact Hlk|].
        split; [reflexivity|]. exact Hmin.
    + pose proof (circ_neq l idx k Hidx ltac:(lia)) as Hneq.
      pose proof (circ_range l idx k Hidx ltac:(lia)) as Hr.
      apply Z.eqb_neq in Hneq. rewrite Hneq.
      rewrite circ_next by lia.
      assert (Hi : (Z.to_nat ((idx + k) mod l) < length hs)%nat) by lia.
      destruct (lookup_lt_is_Some_2 hs _ Hi) as [h Hh]. rewrite Hh.
      assert (Hin : h ∈ hs) by (eapply list_elem_of_lookup_2; eassumption).
      rewrite (Hactive h Hin). cbn [negb].
      pose proof (Hloaded h Hin) as Hnz. apply Z.eqb_neq in Hnz. rewrite Hnz.
      destruct (Z.ltb_spec (HostOps.runningQueries h) idleN) as [Hlt|Hge].
      * apply IH; [lia|lia|]. eapply scanned_adopt; try eassumption. lia.
      * apply IH; [lia|lia|]. eapply scanned_keep; try eassumption. lia.
Qed.

End LeastLoaded.

(** *** When the scan ends without a host *)

Lemma getHost_loop_adopted hs l idx fuel :
  forall i idle idleN hi,
    hs !! idle = Some hi -> HostOps.isActive hi = true ->
    getHost_loop fuel hs l idx i idle idleN <> Returned None.
Proof.
  induction fuel as [|fuel IH]; intros i idle idleN hi Hidle Hact; cbn [getHost_loop].
  - discriminate.
  - destruct (i =? idx).
    + unfold getHost_finish. rewrite Hidle, Hact. discriminate.
    + destruct (hs !! Z.to_nat i) as [h|] eqn:Hh; [|discriminate].
      destruct (HostOps.isActive h) eqn:Ha; cbn [negb].
      * destruct (HostOps.runningQueries h =? 0); [discriminate|].
        destruct (HostOps.runningQueries h <? idleN).
        -- apply (IH _ _ _ h Hh Ha).
        -- apply (IH _ _ _ hi Hidle Hact).
      * apply (IH _ _ _ hi Hidle Hact).
Qed.

Section InactiveStart.

Variable hs : list host.
Variables l idx : Z.
Variable first : host.
Hypothesis Hlen : l = Z.of_nat (length hs).
Hypothesis Hidx : 0 <= idx < l.
Hypothesis Hl : l < U32.modulus.
Hypothesis Hfirst : hs !! Z.to_nat idx = Some first.
Hypothesis Hinactive : HostOps.isActive first = false.

(** While the inactive first host is the candidate, the scan ends without
    a host exactly when every active host still to come is loaded, and no
    less than the first host. *)
Lemma getHost_loop_nil :
  forall fuel k,
    1 <= k <= l -> l - k < Z.of_nat fuel ->
    getHost_loop fuel hs l idx ((idx + k) mod l) (Z.to_nat idx)
      (HostOps.runningQueries first) = Returned None
    <-> (forall m h,
           k <= m < l -> hs !! Z.to_nat ((idx + m) mod l) = Some h ->
           HostOps.isActive h = true ->
           HostOps.runningQueries h <> 0 /\
           HostOps.runningQueries first <= HostOps.runningQueries h).
Proof.
  induction fuel as [|fuel IH]; intros k Hk Hfuel; [lia|].
  cbn [getHost_loop].
  destruct (Z.eq_dec k l) as [->|Hne].
  - rewrite circ_full by exact Hidx. rewrite Z.eqb_refl.
    unfold getHost_finish. rewrite Hfirst, Hinactive. cbn [negb].
    split; [intros _ m h Hm; lia|reflexivity].
  - pose proof (circ_neq l idx k Hidx ltac:(lia)) as Hneq.
    pose proof (circ_range l idx k Hidx ltac:(lia)) as Hr.
    apply Z.eqb_neq in Hneq. rewrite Hneq.
    rewrite circ_next by lia.
    assert (Hi : (Z.to_nat ((idx + k) mod l) < length hs)%nat) by lia.
    destruct (lookup_lt_is_Some_2 hs _ Hi) as [h Hh]. rewrite Hh.
    destruct (HostOps.isActive h) eqn:Ha; cbn [negb].
    + destruct (Z.eqb_spec (HostOps.runningQueries h) 0) as [Hz|Hnz].
      * split; [discriminate|]. intros H.
        destruct (H k h ltac:(lia) Hh Ha) as [Hc _]. contradiction.
      * destruct (Z.ltb_spec (HostOps.runningQueries h)
                    (HostOps.runningQueries first)) as [Hlt|Hge].
        -- split.
           ++ intros H. exfalso. revert H.
              apply (getHost_loop_adopted hs l idx fuel _ _ _ h Hh Ha).
           ++ intros H. destruct (H k h ltac:(lia) Hh Ha) as [_ Hc]. lia.
        -- rewrite (IH (k + 1)) by lia. split.
           ++ intros H m h' Hm Hh' Ha'.
              destruct (Z.eq_dec m k) as [->|Hmk].
              ** assert (h' = h) as -> by congruence. split; assumption.
              ** apply (H m h'); [lia|assumption|assumption].
           ++ intros H m h' Hm. apply H. lia.
    + rewrite (IH (k + 1)) by lia. split.
      * intros H m h' Hm Hh' Ha'.
        destruct (Z.eq_dec m k) as [->|Hmk].
        -- assert (h' = h) as -> by congruence. congruence.
        -- apply (H m h'); [lia|assumption|assumption].
      * intros H m h' Hm. apply H. lia.
Qed.

End InactiveStart.

End GetHost.

(** C6.  Whenever [getHost] returns a host, that host is active in the
    state in which the call returns. *)
Theorem getHost_returns_active (c c' : cluster) (j : nat) :
  ClusterOps.getHost c = (c', Returned (Some j)) ->
  exists h, hosts c' !! j = Some h /\ HostOps.isActive h = true.
Proof.
  unfold ClusterOps.getHost, ClusterOps.getHost_fuel. intros H.
  destruct (U32.of_len (length (hosts c)) =? 0); [congruence|].
  destruct (hosts c !! Z.to_nat _) as [idle|] eqn:Hl; [|congruence].
  destruct ((HostOps.runningQueries idle =? 0) && HostOps.isActive idle) eqn:Hfast.
  - injection H as <- <-. cbn [hosts ClusterOps.set_nextIdx].
    apply andb_true_iff in Hfast as [_ Ha]. eauto.
  - injection H as <- H. cbn [hosts ClusterOps.set_nextIdx].
    eapply getHost_loop_active; eassumption.
Qed.

(** X1.  [getHost] always comes back: the loop bound of the model is
    never reached, and the call panics exactly when the host count, as a
    [uint32], is zero. *)
Lemma getHost_total (c : cluster) :
  (U32.of_len (length (hosts c)) = 0 /\ snd (ClusterOps.getHost c) = Panicked) \/
  (U32.of_len (length (hosts c)) <> 0 /\
   exists r, snd (ClusterOps.getHost c) = Returned r).
Proof.
  unfold ClusterOps.getHost, ClusterOps.getHost_fuel.
  set (l := U32.of_len (length (hosts c))).
  assert (Hl : 0 <= l < U32.modulus) by apply wrap_range.
  assert (Hle : l <= Z.of_nat (length (hosts c))).
  { unfold l, U32.of_len, U32.wrap. apply Z.mod_le; unfold U32.modulus; lia. }
  destruct (Z.eqb_spec l 0) as [H0|Hn0]; [left; split; [exact H0|reflexivity]|].
  right. split; [exact Hn0|].
  set (idx := AddUint32 (nextIdx c) 1 mod l).
  assert (Hidx : 0 <= idx < l) by (apply Z.mod_pos_bound; lia).
  assert (Hi : (Z.to_nat idx < length (hosts c))%nat) by lia.
  destruct (lookup_lt_is_Some_2 (hosts c) _ Hi) as [idle ->].
  destruct ((HostOps.runningQueries idle =? 0) && HostOps.isActive idle).
  - cbn [snd]. eauto.
  - cbn [snd]. apply getHost_loop_fuel_irrelevant; try assumption; lia.
Qed.

(** The early return of [getHost]: the host under the advanced cursor is
    returned, whatever the loop bound, when it is idle and active. *)
Lemma getHost_fast_path (fuel : nat) (c : cluster) (idle : host) :
  let idx := AddUint32 (nextIdx c) 1 in
  let l := U32.of_len (length (hosts c)) in
  l <> 0 ->
  hosts c !! Z.to_nat (idx mod l) = Some idle ->
  HostOps.runningQueries idle = 0 -> HostOps.isActive idle = true ->
  ClusterOps.getHost_fuel fuel c
  = (ClusterOps.set_nextIdx c idx, Returned (Some (Z.to_nat (idx mod l)))).
Proof.
  intros idx l Hl Hlk Hload Hact. unfold ClusterOps.getHost_fuel.
  fold idx l. apply Z.eqb_neq in Hl. rewrite Hl, Hlk, Hload, Hact. reflexivity.
Qed.

(** C7.  With hosts [A; B; C] all active and with zero load and the
    cursor at 0, four successive calls return B, C, A, B (indices 1, 2,
    0, 1), and each of them returns before the loop: with no fuel at all
    the results are the same. *)
Theorem getHost_round_robin (c : cluster) (A B C : host) :
  hosts c = [A; B; C] -> nextIdx c = 0 ->
  Forall (fun h => HostOps.isActive h = true /\ HostOps.runningQueries h = 0)
         [A; B; C] ->
  snd (successive ClusterOps.getHost 4 c)
  = [Returned (Some 1%nat); Returned (Some 2%nat);
     Returned (Some 0%nat); Returned (Some 1%nat)] /\
  snd (successive (ClusterOps.getHost_fuel 0) 4 c)
  = snd (successive ClusterOps.getHost 4 c).
Proof.
  intros Hhosts Hnext Hall. rewrite Forall_forall in Hall.
  destruct c as [n hs us kn kp hb]. cbn [hosts nextIdx] in *. subst n hs.
  assert (Hstep : forall fuel n X,
    [A; B; C] !! Z.to_nat (AddUint32 n 1 mod 3) = Some X ->
    X ∈ [A; B; C] ->
    ClusterOps.getHost_fuel fuel
      {| nextIdx := n; hosts := [A; B; C]; users := us; killQueryUserName := kn;
         killQueryUserPassword := kp; heartBeatInterval := hb |}
    = ({| nextIdx := AddUint32 n 1; hosts := [A; B; C]; users := us;
          killQueryUserName := kn; killQueryUserPassword := kp;
          heartBeatInterval := hb |},
       Returned (Some (Z.to_nat (AddUint32 n 1 mod 3))))).
  { intros fuel n X Hlk Hin. destruct (Hall X Hin) as [Ha Hl0].
    pose proof (getHost_fast_path fuel
      {| nextIdx := n; hosts := [A; B; C]; users := us; killQueryUserName := kn;
         killQueryUserPassword := kp; heartBeatInterval := hb |} X) as Hfast.
    cbn [hosts nextIdx length] in Hfast.
    change (U32.of_len 3) with 3 in Hfast.
    apply Hfast; [discriminate|exact Hlk|exact Hl0|exact Ha]. }
  unfold ClusterOps.getHost. cbn [hosts length successive].
  split.
  - rewrite (Hstep 3%nat 0 B) by first [reflexivity | repeat constructor].
    rewrite (Hstep 3%nat _ C) by first [reflexivity | repeat constructor].
    rewrite (Hstep 3%nat _ A) by first [reflexivity | repeat constructor].
    rewrite (Hstep 3%nat _ B) by first [reflexivity | repeat constructor].
    reflexivity.
  - rewrite (Hstep 0%nat 0 B) by first [reflexivity | repeat constructor].
    rewrite (Hstep 0%nat _ C) by first [reflexivity | repeat constructor].
    rewrite (Hstep 0%nat _ A) by first [reflexivity | repeat constructor].
    rewrite (Hstep 0%nat _ B) by first [reflexivity | repeat constructor].
    rewrite (Hstep 3%nat 0 B) by first [reflexivity | repeat constructor].
    rewrite (Hstep 3%nat _ C) by first [reflexivity | repeat constructor].
    rewrite (Hstep 3%nat _ A) by first [reflexivity | repeat constructor].
    rewrite (Hstep 3%nat _ B) by first [reflexivity | repeat constructor].
    reflexivity.
Qed.

Lemma getHost_round_robin_witness :
  hosts clusterS1
  = [mkHost "A:8123" 1 0 0; mkHost "B:8123" 1 0 0; mkHost "C:8123" 1 0 0] /\
  nextIdx clusterS1 = 0 /\
  Forall (fun h => HostOps.isActive h = true /\ HostOps.runningQueries h = 0)
         [mkHost "A:8123" 1 0 0; mkHost "B:8123" 1 0 0; mkHost "C:8123" 1 0 0] /\
  snd (successive ClusterOps.getHost 4 clusterS1)
  = [Returned (Some 1%nat); Returned (Some 2%nat);
     Returned (Some 0%nat); Returned (Some 1%nat)] /\
  snd (successive (ClusterOps.getHost_fuel 0) 4 clusterS1)
  = snd (successive ClusterOps.getHost 4 clusterS1).
Proof.
  assert (Hall : Forall (fun h => HostOps.isActive h = true /\ HostOps.runningQueries h = 0)
         [mkHost "A:8123" 1 0 0; mkHost "B:8123" 1 0 0; mkHost "C:8123" 1 0 0])
    by (repeat constructor).
  split; [reflexivity|]. split; [reflexivity|]. split; [exact Hall|].
  exact (getHost_round_robin clusterS1 _ _ _ eq_refl eq_refl Hall).
Defined.

Lemma getHost_returns_active_witness :
  ClusterOps.getHost clusterS2
  = (ClusterOps.set_nextIdx clusterS2 3, Returned (Some 1%nat)) /\
  exists h, hosts (ClusterOps.set_nextIdx clusterS2 3) !! 1%nat = Some h /\
            HostOps.isActive h = true.
Proof.
  split; [reflexivity|].
  exact (getHost_returns_active clusterS2 _ 1%nat eq_refl).
Defined.

(** C8.  When every host is active and none has load 0, [getHost] returns
    a host of least load ([runningQueries]: counter plus penalty), and
    among the hosts of least load the one scanned first in the circular
    order that starts at the advanced cursor. *)
Theorem getHost_least_loaded (c : cluster) :
  0 < Z.of_nat (length (hosts c)) < U32.modulus ->
  Forall (fun h => HostOps.isActive h = true /\ HostOps.runningQueries h <> 0)
         (hosts c) ->
  exists j hj,
    ClusterOps.getHost c
    = (ClusterOps.set_nextIdx c (AddUint32 (nextIdx c) 1), Returned (Some j)) /\
    hosts c !! j = Some hj /\
    forall k hk,
      hosts c !! k = Some hk ->
      HostOps.runningQueries hj <= HostOps.runningQueries hk /\
      (HostOps.runningQueries hk = HostOps.runningQueries hj ->
       scanPos (Z.of_nat (length (hosts c)))
               (AddUint32 (nextIdx c) 1 mod Z.of_nat (length (hosts c)))
               (Z.of_nat j)
       <= scanPos (Z.of_nat (length (hosts c)))
                  (AddUint32 (nextIdx c) 1 mod Z.of_nat (length (hosts c)))
                  (Z.of_nat k)).
Proof.
  intros Hlen Hall. rewrite Forall_forall in Hall.
  set (l := Z.of_nat (length (hosts c))) in *.
  set (idx := AddUint32 (nextIdx c) 1 mod l).
  assert (Hidx : 0 <= idx < l) by (apply Z.mod_pos_bound; lia).
  assert (Hof : U32.of_len (length (hosts c)) = l)
    by (apply wrap_small; unfold U32.in_range; fold l; lia).
  assert (Hi : (Z.to_nat idx < length (hosts c))%nat) by lia.
  destruct (lookup_lt_is_Some_2 (hosts c) _ Hi) as [idle Hidle].
  assert (Hin : idle ∈ hosts c) by (eapply list_elem_of_lookup_2; eassumption).
  destruct (Hall idle Hin) as [_ Hnz].
  destruct (getHost_loop_least (hosts c) l idx eq_refl Hidx (proj2 Hlen)
              (fun h Hh => proj1 (Hall h Hh)) (fun h Hh => proj2 (Hall h Hh))
              (length (hosts c)) 1 (Z.to_nat idx) (HostOps.runningQueries idle)
              ltac:(lia) ltac:(lia) (scanned_start _ _ _ Hidx idle Hidle))
    as (j & hj & Hloop & Hj & m & hm & Hm & Hjm & Hlk & Hload & Hmin).
  exists j, hj. split; [|split; [exact Hj|]].
  - unfold ClusterOps.getHost, ClusterOps.getHost_fuel.
    rewrite Hof. fold idx.
    destruct (Z.eqb_spec l 0) as [|_]; [lia|].
    rewrite Hidle. apply Z.eqb_neq in Hnz. rewrite Hnz. cbn [andb].
    rewrite circ_first by lia. rewrite Hloop. reflexivity.
  - intros k hk Hk.
    assert (Hkl : 0 <= Z.of_nat k < l)
      by (apply lookup_lt_Some in Hk; lia).
    destruct (circ_scanPos l idx (Z.of_nat k) Hidx Hkl) as [Hpos Hback].
    assert (Hjpos : scanPos l idx (Z.of_nat j) = m).
    { rewrite Hjm. rewrite Z2Nat.id by (apply Z.mod_pos_bound; lia).
      apply scanPos_circ; lia. }
    rewrite Hjpos.
    apply (Hmin (scanPos l idx (Z.of_nat k)) hk Hpos).
    rewrite Hback, Nat2Z.id. exact Hk.
Qed.

Lemma getHost_least_loaded_witness :
  0 < Z.of_nat (length (hosts clusterS2)) < U32.modulus /\
  Forall (fun h => HostOps.isActive h = true /\ HostOps.runningQueries h <> 0)
         (hosts clusterS2) /\
  snd (ClusterOps.getHost clusterS2) = Returned (Some 1%nat) /\
  exists j hj,
    ClusterOps.getHost clusterS2
    = (ClusterOps.set_nextIdx clusterS2 (AddUint32 (nextIdx clusterS2) 1),
       Returned (Some j)) /\
    hosts clusterS2 !! j = Some hj /\
    forall k hk,
      hosts clusterS2 !! k = Some hk ->
      HostOps.runningQueries hj <= HostOps.runningQueries hk /\
      (HostOps.runningQueries hk = HostOps.runningQueries hj ->
       scanPos (Z.of_nat (length (hosts clusterS2)))
               (AddUint32 (nextIdx clusterS2) 1 mod Z.of_nat (length (hosts clusterS2)))
               (Z.of_nat j)
       <= scanPos (Z.of_nat (length (hosts clusterS2)))
                  (AddUint32 (nextIdx clusterS2) 1 mod Z.of_nat (length (hosts clusterS2)))
                  (Z.of_nat k)).
Proof.
  assert (Hlen : 0 < Z.of_nat (length (hosts clusterS2)) < U32.modulus)
    by (split; reflexivity).
  assert (Hall : Forall (fun h => HostOps.isActive h = true /\
                                  HostOps.runningQueries h <> 0) (hosts clusterS2))
    by (repeat constructor; discriminate).
  split; [exact Hlen|]. split; [exact Hall|]. split; [reflexivity|].
  exact (getHost_least_loaded clusterS2 Hlen Hall).
Defined.

(** X2.  When [getHost] returns nil: exactly when the host under the
    advanced cursor is inactive and every active host has a load that is
    neither zero nor below the load of that first host. *)
Lemma getHost_nil_iff (c : cluster) (first : host) :
  0 < Z.of_nat (length (hosts c)) < U32.modulus ->
  hosts c !! Z.to_nat (AddUint32 (nextIdx c) 1 mod Z.of_nat (length (hosts c)))
  = Some first ->
  snd (ClusterOps.getHost c) = Returned None
  <-> HostOps.isActive first = false /\
      Forall (fun h => HostOps.isActive h = true ->
                       HostOps.runningQueries h <> 0 /\
                       HostOps.runningQueries first <= HostOps.runningQueries h)
             (hosts c).
Proof.
  intros Hlen Hfirst.
  set (l := Z.of_nat (length (hosts c))) in *.
  set (idx := AddUint32 (nextIdx c) 1 mod l) in *.
  assert (Hidx : 0 <= idx < l) by (apply Z.mod_pos_bound; lia).
  assert (Hof : U32.of_len (length (hosts c)) = l)
    by (apply wrap_small; unfold U32.in_range; fold l; lia).
  unfold ClusterOps.getHost, ClusterOps.getHost_fuel.
  rewrite Hof. fold idx.
  destruct (Z.eqb_spec l 0) as [|_]; [lia|].
  rewrite Hfirst. rewrite circ_first by lia.
  destruct (HostOps.isActive first) eqn:Hact.
  - split; [|intros [Hc _]; discriminate].
    destruct (HostOps.runningQueries first =? 0); cbn [andb snd]; [discriminate|].
    intros H. exfalso. revert H.
    apply (getHost_loop_adopted _ _ _ _ _ _ _ first Hfirst Hact).
  - rewrite andb_false_r. cbn [snd].
    rewrite (getHost_loop_nil (hosts c) l idx first eq_refl Hidx (proj2 Hlen)
               Hfirst Hact (length (hosts c)) 1) by lia.
    rewrite Forall_forall. split.
    + intros H. split; [reflexivity|]. intros h Hin Ha.
      apply list_elem_of_lookup_1 in Hin as [x Hx].
      assert (Hxl : 0 <= Z.of_nat x < l) by (apply lookup_lt_Some in Hx; lia).
      destruct (circ_scanPos l idx (Z.of_nat x) Hidx Hxl) as [Hpos Hback].
      destruct (Z.eq_dec (scanPos l idx (Z.of_nat x)) 0) as [H0|Hn0].
      * rewrite H0, Z.add_0_r, (Z.mod_small idx l) in Hback by lia.
        assert (Hx' : Z.to_nat idx = x) by lia.
        rewrite Hx' in Hfirst. congruence.
      * apply (H (scanPos l idx (Z.of_nat x)) h); [lia| |exact Ha].
        rewrite Hback, Nat2Z.id. exact Hx.
    + intros [_ H] m h Hm Hh Ha. apply H; [|exact Ha].
      eapply list_elem_of_lookup_2. exact Hh.
Qed.

(** S3: an inactive host under the cursor is passed over for the idle
    active host behind it. *)
Example getHost_skips_inactive :
  snd (ClusterOps.getHost
         (mkCluster 1 [mkHost "A:8123" 0 0 0; mkHost "B:8123" 1 0 0]))
  = Returned (Some 1%nat).
Proof. reflexivity. Qed.

(** C1, evaluated.  The scan starts at an inactive host with zero load;
    the only other host is active with one running query.  No load is
    below zero, so the inactive host stays the candidate and [getHost]
    returns nil although the second host is active; [newScope] reports
    it as "no active hosts". *)
Theorem getHost_nil_despite_active_host :
  (length (hosts clusterInactiveStart) > 0)%nat /\
  (exists h, h ∈ hosts clusterInactiveStart /\ HostOps.isActive h = true) /\
  snd (ClusterOps.getHost clusterInactiveStart) = Returned None /\
  snd (ScopeOps.newScope 41 (mkUser "web" 0 0)
         (mkClusterUser "default" "secret" 0 0) clusterInactiveStart)
  = Returned (inr ErrNoActiveHosts).
Proof.
  split; [cbn; lia|]. split; [|split; reflexivity].
  exists (mkHost "B:8123" 1 1 0). split; [|reflexivity].
  cbn. repeat constructor.
Qed.

(** ** Admission *)

Section Admission.

Lemma inc_then_dec v : U32.in_range v -> AddUint32 (AddUint32 v 1) (U32.not 0) = v.
Proof.
  intros Hv. rewrite not32_zero.
  apply (add_sub_cancel v 1 Hv). unfold U32.modulus. lia.
Qed.

Lemma inc_exact v : U32.in_range v -> v < U32.max -> AddUint32 v 1 = v + 1.
Proof.
  unfold U32.in_range, U32.max. intros Hv Hmax.
  apply wrap_small. unfold U32.in_range. lia.
Qed.

Lemma list_insert_insert_same {A} (l : list A) i x y :
  <[i := x]> (<[i := y]> l) = <[i := x]> l.
Proof.
  revert i. induction l as [|a l IH]; intros [|i]; cbn; f_equal; auto.
Qed.

(** The counters after [s.host.dec(); s.user.dec(); s.clusterUser.dec()]. *)
Lemma dec_counters (s : scope) (h : host) :
  ScopeOps.host_of s = Some h ->
  exists s',
    ScopeOps.dec s = (s', Returned tt) /\
    ScopeOps.counters s'
    = (AddUint32 (UserOps.runningQueries (s_user s)) (U32.not 0),
       AddUint32 (ClusterUserOps.runningQueries (s_clusterUser s)) (U32.not 0),
       Some (AddUint32 (QueryCounter.runningQueries (host_queryCounter h))
                       (U32.not 0))).
Proof.
  destruct s as [i hp [nx hs us kn kp hb] u cu].
  unfold ScopeOps.host_of, ScopeOps.dec. cbn [s_cluster s_host hosts].
  intros Hh. unfold ScopeOps.host_of. cbn [s_cluster s_host hosts]. rewrite Hh.
  eexists. split; [reflexivity|].
  unfold ScopeOps.counters, ScopeOps.host_of.
  cbn -[AddUint32 U32.not].
  rewrite list_lookup_insert_eq by (eapply lookup_lt_Some; eassumption).
  reflexivity.
Qed.

(** The scope after the three increments at the head of [inc]. *)
Lemma inc_unfold (s : scope) (h : host) :
  ScopeOps.host_of s = Some h ->
  exists s1,
    ScopeOps.host_of s1 = Some (fst (HostOps.inc h)) /\
    ScopeOps.counters s1
    = (AddUint32 (UserOps.runningQueries (s_user s)) 1,
       AddUint32 (ClusterUserOps.runningQueries (s_clusterUser s)) 1,
       Some (AddUint32 (QueryCounter.runningQueries (host_queryCounter h)) 1)) /\
    ScopeOps.inc s
    = if ((0 <? cu_maxConcurrentQueries (s_clusterUser s))
          && (cu_maxConcurrentQueries (s_clusterUser s)
              <? AddUint32 (ClusterUserOps.runningQueries (s_clusterUser s)) 1))
         || ((0 <? u_maxConcurrentQueries (s_user s))
             && (u_maxConcurrentQueries (s_user s)
                 <? AddUint32 (UserOps.runningQueries (s_user s)) 1))
      then
        (fst (ScopeOps.dec s1),
         Returned (Some
           (if (0 <? cu_maxConcurrentQueries (s_clusterUser s))
               && (cu_maxConcurrentQueries (s_clusterUser s)
                   <? AddUint32 (ClusterUserOps.runningQueries (s_clusterUser s)) 1)
            then ErrClusterUserLimit (cu_name (s_clusterUser s))
                   (cu_maxConcurrentQueries (s_clusterUser s))
            else ErrUserLimit (u_name (s_user s))
                   (u_maxConcurrentQueries (s_user s)))))
      else (s1, Returned None).
Proof.
  destruct s as [i hp [nx hs us kn kp hb] u cu].
  destruct u as [tu tc dh dhs an un up ut um [uv]].
  destruct cu as [cn cp ct cm [cv]].
  unfold ScopeOps.host_of. cbn [s_cluster s_host hosts]. intros Hh.
  assert (Hlt : (hp < length hs)%nat) by (eapply lookup_lt_Some; eassumption).
  exists (ScopeOps.set_host
            (ScopeOps.set_clusterUser
               (ScopeOps.set_user
                  {| id := i; s_host := hp;
                     s_cluster := {| nextIdx := nx; hosts := hs; users := us;
                                     killQueryUserName := kn;
                                     killQueryUserPassword := kp;
                                     heartBeatInterval := hb |};
                     s_user := {| toUser := tu; toCluster := tc; denyHTTP := dh;
                                  denyHTTPS := dhs; allowedNetworks := an;
                                  u_name := un; u_password := up;
                                  u_maxExecutionTime := ut;
                                  u_maxConcurrentQueries := um;
                                  u_queryCounter := {| value := uv |} |};
                     s_clusterUser := {| cu_name := cn; cu_password := cp;
                                         cu_maxExecutionTime := ct;
                                         cu_maxConcurrentQueries := cm;
                                         cu_queryCounter := {| value := cv |} |} |}
                  {| toUser := tu; toCluster := tc; denyHTTP := dh;
                     denyHTTPS := dhs; allowedNetworks := an;
                     u_name := un; u_password := up;
                     u_maxExecutionTime := ut;
                     u_maxConcurrentQueries := um;
                     u_queryCounter := {| value := AddUint32 uv 1 |} |})
               {| cu_name := cn; cu_password := cp;
                  cu_maxExecutionTime := ct;
                  cu_maxConcurrentQueries := cm;
                  cu_queryCounter := {| value := AddUint32 cv 1 |} |})
            (fst (HostOps.inc h))).
  split; [|split].
  - unfold ScopeOps.host_of. cbn -[AddUint32].
    rewrite list_lookup_insert_eq by exact Hlt. reflexivity.
  - unfold ScopeOps.counters, ScopeOps.host_of. cbn -[AddUint32].
    rewrite list_lookup_insert_eq by exact Hlt. reflexivity.
  - unfold ScopeOps.inc.
    cbn -[AddUint32 Z.ltb U32.not].
    rewrite Hh.
    cbn -[AddUint32 Z.ltb U32.not].
    destruct ((0 <? cm) && (cm <? AddUint32 cv 1));
      destruct ((0 <? um) && (um <? AddUint32 uv 1));
      cbn -[AddUint32 Z.ltb U32.not].
    4: reflexivity.
    all: unfold ScopeOps.dec, ScopeOps.host_of;
      cbn -[AddUint32 Z.ltb U32.not];
      rewrite list_lookup_insert_eq by exact Hlt; reflexivity.
Qed.

End Admission.

(** C4, as the code has it.  [inc] fails exactly when a positive limit of
    the proxy user or of the cluster user is exceeded by the
    post-increment count.  A failed [inc] leaves the three counters (proxy
    user, cluster user, host) at their values before the call; a
    successful one leaves each one greater modulo [2^32], hence exactly one
    greater for every counter below [2^32 - 1]. *)
Theorem inc_admission (s : scope) (h : host) :
  ScopeOps.host_of s = Some h ->
  U32.in_range (UserOps.runningQueries (s_user s)) ->
  U32.in_range (ClusterUserOps.runningQueries (s_clusterUser s)) ->
  U32.in_range (QueryCounter.runningQueries (host_queryCounter h)) ->
  exists s' r,
    ScopeOps.inc s = (s', Returned r) /\
    (r <> None <->
     (0 < u_maxConcurrentQueries (s_user s) /\
      u_maxConcurrentQueries (s_user s)
      < (UserOps.runningQueries (s_user s) + 1) mod 2 ^ 32) \/
     (0 < cu_maxConcurrentQueries (s_clusterUser s) /\
      cu_maxConcurrentQueries (s_clusterUser s)
      < (ClusterUserOps.runningQueries (s_clusterUser s) + 1) mod 2 ^ 32)) /\
    (r <> None -> ScopeOps.counters s' = ScopeOps.counters s) /\
    (r = None ->
     ScopeOps.counters s'
     = ((UserOps.runningQueries (s_user s) + 1) mod 2 ^ 32,
        (ClusterUserOps.runningQueries (s_clusterUser s) + 1) mod 2 ^ 32,
        Some ((QueryCounter.runningQueries (host_queryCounter h) + 1) mod 2 ^ 32))) /\
    (r = None ->
     UserOps.runningQueries (s_user s) < U32.max ->
     ClusterUserOps.runningQueries (s_clusterUser s) < U32.max ->
     QueryCounter.runningQueries (host_queryCounter h) < U32.max ->
     ScopeOps.counters s'
     = (UserOps.runningQueries (s_user s) + 1,
        ClusterUserOps.runningQueries (s_clusterUser s) + 1,
        Some (QueryCounter.runningQueries (host_queryCounter h) + 1))).
Proof.
  intros Hh Hu Hc Hhv.
  destruct (inc_unfold s h Hh) as (s1 & Hh1 & Hc1 & Hinc).
  destruct (dec_counters s1 _ Hh1) as (s2 & Hdec & Hc2).
  assert (Hu1 : UserOps.runningQueries (s_user s1)
                = AddUint32 (UserOps.runningQueries (s_user s)) 1)
    by (apply (f_equal (fun x => fst (fst x))) in Hc1; exact Hc1).
  assert (Hcu1 : ClusterUserOps.runningQueries (s_clusterUser s1)
                 = AddUint32 (ClusterUserOps.runningQueries (s_clusterUser s)) 1)
    by (apply (f_equal (fun x => snd (fst x))) in Hc1; exact Hc1).
  rewrite Hu1, Hcu1 in Hc2.
  change (QueryCounter.runningQueries (host_queryCounter (fst (HostOps.inc h))))
    with (AddUint32 (QueryCounter.runningQueries (host_queryCounter h)) 1) in Hc2.
  rewrite !inc_then_dec in Hc2 by assumption.
  rewrite Hinc, Hdec. cbn [fst].
  change ((UserOps.runningQueries (s_user s) + 1) mod 2 ^ 32)
    with (AddUint32 (UserOps.runningQueries (s_user s)) 1).
  change ((ClusterUserOps.runningQueries (s_clusterUser s) + 1) mod 2 ^ 32)
    with (AddUint32 (ClusterUserOps.runningQueries (s_clusterUser s)) 1).
  change ((QueryCounter.runningQueries (host_queryCounter h) + 1) mod 2 ^ 32)
    with (AddUint32 (QueryCounter.runningQueries (host_queryCounter h)) 1).
  set (bc := (0 <? cu_maxConcurrentQueries (s_clusterUser s))
             && (cu_maxConcurrentQueries (s_clusterUser s)
                 <? AddUint32 (ClusterUserOps.runningQueries (s_clusterUser s)) 1)).
  set (bu := (0 <? u_maxConcurrentQueries (s_user s))
             && (u_maxConcurrentQueries (s_user s)
                 <? AddUint32 (UserOps.runningQueries (s_user s)) 1)).
  assert (Hbc : bc = true <->
                0 < cu_maxConcurrentQueries (s_clusterUser s) /\
                cu_maxConcurrentQueries (s_clusterUser s)
                < AddUint32 (ClusterUserOps.runningQueries (s_clusterUser s)) 1)
    by (unfold bc; rewrite andb_true_iff, !Z.ltb_lt; reflexivity).
  assert (Hbu : bu = true <->
                0 < u_maxConcurrentQueries (s_user s) /\
                u_maxConcurrentQueries (s_user s)
                < AddUint32 (UserOps.runningQueries (s_user s)) 1)
    by (unfold bu; rewrite andb_true_iff, !Z.ltb_lt; reflexivity).
  destruct (bc || bu) eqn:Hb.
  - eexists; eexists. split; [reflexivity|].
    split; [|split; [|split]].
    + split; [intros _|intros _; discriminate].
      apply orb_true_iff in Hb as [Hb|Hb]; [right; apply Hbc|left; apply Hbu]; exact Hb.
    + intros _. rewrite Hc2. unfold ScopeOps.counters. rewrite Hh. reflexivity.
    + intros Hr. destruct bc; discriminate Hr.
    + intros Hr. destruct bc; discriminate Hr.
  - apply orb_false_iff in Hb as [Hbc0 Hbu0].
    eexists; eexists. split; [reflexivity|].
    split; [|split; [|split]].
    + split; [intros Hr; exfalso; apply Hr; reflexivity|].
      intros [Hor|Hor]; [apply Hbu in Hor|apply Hbc in Hor]; congruence.
    + intros Hr. exfalso. apply Hr. reflexivity.
    + intros _. exact Hc1.
    + intros _ Hum Hcm Hhm. rewrite Hc1.
      rewrite !inc_exact by assumption. reflexivity.
Qed.

(** S4: with a limit of two and two queries running, the third admission
    is refused and the three counters are back at 2. *)
Lemma inc_admission_witness :
  ScopeOps.host_of (scopeS4 2) = Some (mkHost "h1:8123" 1 2 0) /\
  U32.in_range (UserOps.runningQueries (s_user (scopeS4 2))) /\
  U32.in_range (ClusterUserOps.runningQueries (s_clusterUser (scopeS4 2))) /\
  U32.in_range (QueryCounter.runningQueries
                  (host_queryCounter (mkHost "h1:8123" 1 2 0))) /\
  exists s' r,
    ScopeOps.inc (scopeS4 2) = (s', Returned r) /\ r <> None /\
    ScopeOps.counters s' = (2, 2, Some 2).
Proof.
  assert (Hr : U32.in_range 2) by (unfold U32.in_range, U32.modulus; lia).
  split; [reflexivity|]. do 3 (split; [exact Hr|]).
  destruct (inc_admission (scopeS4 2) (mkHost "h1:8123" 1 2 0) eq_refl Hr Hr Hr)
    as (s' & r & Hinc & Hiff & Hfail & _).
  exists s', r. split; [exact Hinc|].
  assert (Hne : r <> None).
  { apply Hiff. left. split; reflexivity. }
  split; [exact Hne|]. rewrite (Hfail Hne). reflexivity.
Defined.

(** C4 as stated fails where a counter wraps: an admission that succeeds
    on a proxy-user counter holding [2^32 - 1] leaves it at 0, which is
    not one greater. *)
Lemma inc_success_not_one_greater :
  exists s',
    ScopeOps.inc scopeWrap = (s', Returned None) /\
    UserOps.runningQueries (s_user scopeWrap) = 4294967295 /\
    UserOps.runningQueries (s_user s') = 0 /\
    UserOps.runningQueries (s_user s')
    <> UserOps.runningQueries (s_user scopeWrap) + 1.
Proof.
  eexists. split; [reflexivity|]. cbn. repeat split. discriminate.
Qed.

(** ** Penalties *)

Section PenaltyFacts.

Import Penalty.

Lemma inv_start h t0 : penalty h = 0 -> inv (start h t0).
Proof.
  intros Hp. unfold inv, start, penaltySize, penaltyMaxSize. cbn. lia.
Qed.

Lemma add_penalty p : 0 <= p < penaltyMaxSize -> AddUint32 p penaltySize = p + 5.
Proof.
  unfold penaltyMaxSize, penaltySize. intros Hp.
  apply wrap_small. unfold U32.in_range, U32.modulus. lia.
Qed.

Lemma sub_penalty p :
  5 <= p < U32.modulus -> AddUint32 p (U32.not (penaltySize - 1)) = p - 5.
Proof.
  intros Hp. rewrite not32_penalty. unfold AddUint32, U32.add, U32.wrap.
  rewrite (mod_shift _ (-1) U32.modulus).
  unfold U32.modulus in *.
  replace (p + (4294967296 - 5) + -1 * 2 ^ 32) with (p - 5) by lia.
  apply Z.mod_small. lia.
Qed.

Lemma inv_bounds w :
  inv w ->
  penalty (pw_host w) mod 5 = 0 /\ 0 <= penalty (pw_host w) <= 300.
Proof.
  unfold inv, penaltySize, penaltyMaxSize.
  destruct (pw_call w) as [[p|]|]; intros H.
  - destruct H as (-> & Hle & Hp). split; [|lia].
    rewrite Z.mul_comm. apply Z_mod_mult.
  - destruct H as (-> & Hle). split; [|lia].
    rewrite Z.mul_comm. apply Z_mod_mult.
  - destruct H as (-> & Hle). split; [|lia].
    rewrite Z.mul_comm. apply Z_mod_mult.
Qed.

Lemma inv_load w : pw_call w = None -> inv w -> inv (load w).
Proof.
  unfold inv, load. intros Hc. rewrite Hc. intros [Hp Hn].
  destruct (Z.leb_spec penaltyMaxSize (penalty (pw_host w))) as [Hge|Hlt].
  - rewrite Hc. split; assumption.
  - cbn [pw_call pw_host pw_timers]. repeat split; [exact Hp|lia|exact Hlt].
Qed.

Lemma inv_add w p :
  pw_call w = Some (Loaded p) -> inv w ->
  penalty (pw_host (add w)) = penalty (pw_host w) + 5 /\ inv (add w).
Proof.
  unfold inv, add. intros Hc. rewrite Hc. intros (Hp & Hle & Hmax).
  cbn [pw_call pw_host pw_timers set_penalty penalty].
  assert (Hadd : AddUint32 (penalty (pw_host w)) penaltySize
                 = penalty (pw_host w) + 5)
    by (apply add_penalty; unfold penaltySize in *; lia).
  rewrite Hadd. split; [reflexivity|].
  unfold penaltySize, penaltyMaxSize in *. lia.
Qed.

Lemma inv_schedule w : pw_call w = Some Added -> inv w -> inv (schedule w).
Proof.
  unfold inv, schedule. intros Hc. rewrite Hc. intros [Hp Hn].
  cbn [pw_call pw_host pw_timers]. rewrite length_app. cbn [length].
  unfold penaltySize, penaltyMaxSize in *. lia.
Qed.

Lemma inv_fire w k due :
  inv w -> pw_timers w !! k = Some due ->
  penalty (decay (pw_host w)) = penalty (pw_host w) - 5 /\
  inv {| pw_host := decay (pw_host w); pw_now := pw_now w;
         pw_timers := delete k (pw_timers w);
         pw_hostPenalties := pw_hostPenalties w; pw_call := pw_call w |}.
Proof.
  intros Hinv Hk.
  assert (Hlen : (k < length (pw_timers w))%nat) by (eapply lookup_lt_Some; eassumption).
  assert (Hdel : length (delete k (pw_timers w)) = pred (length (pw_timers w)))
    by (rewrite length_delete by eauto; lia).
  assert (Hdec : penalty (decay (pw_host w)) = penalty (pw_host w) - 5).
  { unfold decay, set_penalty. cbn [penalty]. apply sub_penalty.
    unfold inv, penaltySize, penaltyMaxSize, U32.modulus in *.
    destruct (pw_call w) as [[p|]|]; lia. }
  split; [exact Hdec|].
  unfold inv in *. cbn [pw_host pw_timers pw_call]. rewrite Hdec, Hdel.
  unfold penaltySize, penaltyMaxSize in *.
  destruct (pw_call w) as [[p|]|]; lia.
Qed.

Lemma inv_step w e w' : inv w -> step w e = Some w' -> inv w'.
Proof.
  intros Hinv. destruct e as [| | |d|k]; cbn [step].
  - destruct (pw_call w) as [c|] eqn:Hc; [discriminate|].
    intros [= <-]. apply inv_load; assumption.
  - destruct (pw_call w) as [[p|]|] eqn:Hc; try discriminate.
    intros [= <-]. eapply inv_add; eassumption.
  - destruct (pw_call w) as [[p|]|] eqn:Hc; try discriminate.
    intros [= <-]. apply inv_schedule; assumption.
  - destruct (0 <=? d); [|discriminate]. intros [= <-]. exact Hinv.
  - destruct (pw_timers w !! k) as [due|] eqn:Hk; [|discriminate].
    destruct (due <=? pw_now w); [|discriminate]. intros [= <-].
    apply (inv_fire w k due Hinv Hk).
Qed.

Lemma inv_run es : forall w w', inv w -> run w es = Some w' -> inv w'.
Proof.
  induction es as [|e es IH]; intros w w' Hinv; cbn [run].
  - intros [= <-]. exact Hinv.
  - destruct (step w e) as [w1|] eqn:Hs; [|discriminate].
    apply IH. eapply inv_step; eassumption.
Qed.

Lemma latest_due now ts :
  now <= foldr Z.max now ts /\ Forall (fun due => due <= foldr Z.max now ts) ts.
Proof.
  induction ts as [|t ts [IH1 IH2]]; cbn [foldr].
  - split; [lia|constructor].
  - split; [lia|]. constructor; [lia|].
    eapply Forall_impl; [exact IH2|]. cbn. intros. lia.
Qed.

(** A whole call is the three operations in a row, or the load alone
    when the penalty is at the maximum. *)
Lemma penalize_run w :
  pw_call w = None ->
  (penaltyMaxSize <= penalty (pw_host w) ->
   run w [CallLoads] = Some (penalize w)) /\
  (penalty (pw_host w) < penaltyMaxSize ->
   run w [CallLoads; CallAdds; CallSchedules] = Some (penalize w)).
Proof.
  intros Hc. unfold penalize. cbn [run step]. rewrite Hc. unfold load. split.
  - intros Hge. apply Z.leb_le in Hge. rewrite Hge. reflexivity.
  - intros Hlt. apply Z.leb_gt in Hlt. rewrite Hlt. reflexivity.
Qed.

End PenaltyFacts.

(** ** Overlapping calls of [penalize] *)

Section OverlapFacts.

Import Overlap.

Lemma countIf_bounds {A} (f : A -> bool) l :
  0 <= countIf f l <= Z.of_nat (length l).
Proof.
  induction l as [|x l IH]; cbn [countIf length]; [lia|].
  destruct (f x); lia.
Qed.

Lemma countIf_app {A} (f : A -> bool) l l' :
  countIf f (l ++ l') = countIf f l + countIf f l'.
Proof.
  induction l as [|x l IH]; cbn [countIf app]; [lia|]. rewrite IH. lia.
Qed.

Lemma countIf_insert {A} (f : A -> bool) l i x y :
  l !! i = Some x ->
  countIf f (<[i := y]> l)
  = countIf f l - (if f x then 1 else 0) + (if f y then 1 else 0).
Proof.
  revert i. induction l as [|z l IH]; intros [|i] Hi; try discriminate.
  - injection Hi as ->. cbn [insert list_insert countIf]. lia.
  - change (<[S i := y]> (z :: l)) with (z :: <[i := y]> l).
    cbn [countIf]. rewrite (IH i Hi). lia.
Qed.

Lemma countIf_delete {A} (f : A -> bool) l i x :
  l !! i = Some x ->
  countIf f (delete i l) = countIf f l - (if f x then 1 else 0).
Proof.
  revert i. induction l as [|z l IH]; intros [|i] Hi; try discriminate.
  - injection Hi as ->. cbn [delete list_delete countIf]. lia.
  - change (delete (S i) (z :: l)) with (z :: delete i l).
    cbn [countIf]. rewrite (IH i Hi). lia.
Qed.

Lemma wrap_add_penalty k :
  AddUint32 (U32.wrap (penaltySize * k)) penaltySize
  = U32.wrap (penaltySize * (k + 1)).
Proof.
  unfold AddUint32, U32.add, U32.wrap, penaltySize.
  rewrite Zplus_mod_idemp_l. f_equal. lia.
Qed.

Lemma wrap_sub_penalty k :
  AddUint32 (U32.wrap (penaltySize * k)) (U32.not (penaltySize - 1))
  = U32.wrap (penaltySize * (k - 1)).
Proof.
  rewrite not32_penalty. unfold AddUint32, U32.add, U32.wrap, penaltySize.
  rewrite Zplus_mod_idemp_l.
  rewrite (mod_shift (5 * (k - 1)) 1 U32.modulus). f_equal.
  unfold U32.modulus. lia.
Qed.

Lemma owed_nonneg w : 0 <= owed w.
Proof.
  unfold owed. pose proof (countIf_bounds isAdded (ow_calls w)). lia.
Qed.

Lemma overlap_inv_start h t0 : penalty h = 0 -> inv (start h t0).
Proof. intros Hp. unfold inv, start, owed. cbn. exact Hp. Qed.

Lemma overlap_within_start h t0 n : within n (start h t0).
Proof. unfold within, start, owed, penaltySize, penaltyMaxSize. cbn. lia. Qed.

(** The decays owed across one event. *)
Lemma owed_step w e w' :
  step w e = Some w' ->
  owed w' = owed w + match e with
                     | Adds _ => 1
                     | Fires _ => -1
                     | _ => 0
                     end.
Proof.
  destruct e as [|i|i|d|k]; cbn [step].
  - intros [= <-]. unfold load.
    destruct (penaltyMaxSize <=? penalty (ow_host w)); [lia|].
    unfold owed. cbn [ow_timers ow_calls]. rewrite countIf_app. cbn. lia.
  - destruct (ow_calls w !! i) as [[p|]|] eqn:Hi; try discriminate.
    intros [= <-]. unfold owed, add. cbn [ow_timers ow_calls].
    rewrite (countIf_insert _ _ _ _ _ Hi). cbn [isAdded]. lia.
  - destruct (ow_calls w !! i) as [[p|]|] eqn:Hi; try discriminate.
    intros [= <-]. unfold owed, schedule. cbn [ow_timers ow_calls].
    rewrite (countIf_delete _ _ _ _ Hi), length_app. cbn [isAdded length]. lia.
  - destruct (0 <=? d); [|discriminate]. intros [= <-].
    unfold owed. cbn [ow_timers ow_calls]. lia.
  - destruct (ow_timers w !! k) as [due|] eqn:Hk; [|discriminate].
    destruct (due <=? ow_now w); [|discriminate]. intros [= <-].
    unfold owed. cbn [ow_timers ow_calls].
    assert (Hlen : (k < length (ow_timers w))%nat)
      by (eapply lookup_lt_Some; eassumption).
    rewrite length_delete by eauto. lia.
Qed.

Lemma overlap_inv_step w e w' : inv w -> step w e = Some w' -> inv w'.
Proof.
  intros Hinv Hs. pose proof (owed_step w e w' Hs) as Ho.
  unfold inv in *. rewrite Ho. clear Ho.
  destruct e as [|i|i|d|k]; cbn [step] in Hs.
  - injection Hs as <-. rewrite Z.add_0_r. unfold load.
    destruct (penaltyMaxSize <=? penalty (ow_host w)); exact Hinv.
  - destruct (ow_calls w !! i) as [[p|]|]; try discriminate.
    injection Hs as <-. cbn [add ow_host Penalty.set_penalty penalty].
    rewrite Hinv. apply wrap_add_penalty.
  - destruct (ow_calls w !! i) as [[p|]|]; try discriminate.
    injection Hs as <-. rewrite Z.add_0_r. exact Hinv.
  - destruct (0 <=? d); [|discriminate]. injection Hs as <-.
    rewrite Z.add_0_r. exact Hinv.
  - destruct (ow_timers w !! k) as [due|]; [|discriminate].
    destruct (due <=? ow_now w); [|discriminate]. injection Hs as <-.
    cbn [ow_host Penalty.decay Penalty.set_penalty penalty].
    rewrite Hinv. apply wrap_sub_penalty.
Qed.

Lemma overlap_inv_run es : forall w w', inv w -> run w es = Some w' -> inv w'.
Proof.
  induction es as [|e es IH]; intros w w' Hinv; cbn [run].
  - intros [= <-]. exact Hinv.
  - destruct (step w e) as [w1|] eqn:Hs; [|discriminate].
    apply IH. eapply overlap_inv_step; eassumption.
Qed.

Section Within.

Variable n : nat.
Hypothesis Hn : penaltyMaxSize - penaltySize + penaltySize * Z.of_nat n < U32.modulus.

(** Within the bound nothing wraps: the penalty is 5 for each decay
    owed. *)
Lemma within_exact w :
  inv w -> within n w ->
  penalty (ow_host w) = penaltySize * owed w /\
  0 <= penalty (ow_host w) <= penaltyMaxSize - penaltySize + penaltySize * Z.of_nat n.
Proof.
  unfold inv, within. intros Hinv Hw.
  pose proof (owed_nonneg w) as Ho.
  pose proof (countIf_bounds isLoaded (ow_calls w)) as Hl.
  assert (Hsmall : U32.wrap (penaltySize * owed w) = penaltySize * owed w).
  { apply wrap_small. unfold U32.in_range, penaltySize, penaltyMaxSize in *. lia. }
  rewrite Hinv, Hsmall. unfold penaltySize, penaltyMaxSize in *. lia.
Qed.

Lemma within_step w e w' :
  inv w -> within n w -> step w e = Some w' ->
  (length (ow_calls w') <= n)%nat -> within n w'.
Proof.
  intros Hinv Hw Hs Hlen.
  destruct (within_exact w Hinv Hw) as [Hp _].
  pose proof (owed_step w e w' Hs) as Ho.
  unfold within in *. rewrite Ho. clear Ho.
  destruct e as [|i|i|d|k]; cbn [step] in Hs.
  - injection Hs as <-. unfold load in *.
    destruct (Z.leb_spec penaltyMaxSize (penalty (ow_host w))) as [Hge|Hlt];
      [rewrite Z.add_0_r; exact Hw|].
    cbn [ow_calls] in *. rewrite countIf_app. rewrite length_app in Hlen.
    cbn [countIf isLoaded length] in *.
    pose proof (countIf_bounds isLoaded (ow_calls w)) as Hl.
    unfold penaltySize, penaltyMaxSize in *. lia.
  - destruct (ow_calls w !! i) as [[p|]|] eqn:Hi; try discriminate.
    injection Hs as <-. cbn [add ow_calls].
    rewrite (countIf_insert _ _ _ _ _ Hi). cbn [isLoaded].
    unfold penaltySize, penaltyMaxSize in *. lia.
  - destruct (ow_calls w !! i) as [[p|]|] eqn:Hi; try discriminate.
    injection Hs as <-. cbn [schedule ow_calls].
    rewrite (countIf_delete _ _ _ _ Hi). cbn [isLoaded].
    unfold penaltySize, penaltyMaxSize in *. lia.
  - destruct (0 <=? d); [|discriminate]. injection Hs as <-.
    cbn [ow_calls]. rewrite Z.add_0_r. exact Hw.
  - destruct (ow_timers w !! k) as [due|]; [|discriminate].
    destruct (due <=? ow_now w); [|discriminate]. injection Hs as <-.
    cbn [ow_calls]. unfold penaltySize, penaltyMaxSize in *. lia.
Qed.

Lemma peak_calls w es : (length (ow_calls w) <= peak w es)%nat.
Proof. destruct es; cbn [peak]; lia. Qed.

Lemma within_run es : forall w w',
  inv w -> within n w -> (peak w es <= n)%nat -> run w es = Some w' ->
  within n w' /\ (length (ow_calls w') <= n)%nat.
Proof.
  induction es as [|e es IH]; intros w w' Hinv Hw Hpk; cbn [run].
  - intros [= <-]. split; [exact Hw|exact Hpk].
  - cbn [peak] in Hpk.
    destruct (step w e) as [w1|] eqn:Hs; [|discriminate].
    pose proof (peak_calls w1 es) as Hc.
    apply IH; [eapply overlap_inv_step; eassumption| |lia].
    eapply within_step; try eassumption. lia.
Qed.

End Within.

(** Firing the first pending timer, as often as there are timers, once
    all of them are due. *)
Lemma overlap_fire_all ts : forall h now hp calls,
  Forall (fun due => due <= now) ts ->
  exists h',
    run {| ow_host := h; ow_now := now; ow_timers := ts; ow_hostPenalties := hp;
           ow_calls := calls |}
        (replicate (length ts) (Fires 0))
    = Some {| ow_host := h'; ow_now := now; ow_timers := [];
              ow_hostPenalties := hp; ow_calls := calls |}.
Proof.
  induction ts as [|t ts IH]; intros h now hp calls Hdue.
  - exists h. reflexivity.
  - inversion Hdue as [|? ? Ht Hts]; subst.
    cbn [length replicate run step ow_timers lookup list_lookup].
    cbn [ow_now ow_host ow_hostPenalties ow_calls].
    apply Z.leb_le in Ht. rewrite Ht. cbn [delete list_delete].
    apply IH. exact Hts.
Qed.

(** Once the clock has advanced by [d], far enough for every pending
    timer, all of them fire. *)
Lemma overlap_drain w d :
  0 <= d -> Forall (fun due => due <= ow_now w + d) (ow_timers w) ->
  exists w',
    run w (Passes d :: replicate (length (ow_timers w)) (Fires 0)) = Some w' /\
    ow_now w' = ow_now w + d /\ ow_timers w' = [] /\ ow_calls w' = ow_calls w.
Proof.
  intros Hd Hdue. destruct w as [h now ts hp calls].
  cbn [ow_now ow_timers ow_calls] in *.
  cbn [run step ow_now ow_host ow_timers ow_hostPenalties ow_calls].
  destruct (Z.leb_spec 0 d) as [_|Hneg]; [|lia].
  destruct (overlap_fire_all ts h (now + d) hp calls Hdue) as [h' Hrun].
  eexists. split; [exact Hrun|]. repeat split.
Qed.

Lemma overlap_dueSoon_step w e w' : dueSoon w -> step w e = Some w' -> dueSoon w'.
Proof.
  unfold dueSoon. intros Hdue.
  destruct e as [|i|i|d|k]; cbn [step].
  - intros [= <-]. unfold load.
    destruct (penaltyMaxSize <=? penalty (ow_host w)); exact Hdue.
  - destruct (ow_calls w !! i) as [[p|]|]; try discriminate.
    intros [= <-]. exact Hdue.
  - destruct (ow_calls w !! i) as [[p|]|]; try discriminate.
    intros [= <-]. cbn [schedule ow_timers ow_now].
    apply Forall_app. split; [exact Hdue|]. constructor; [lia|constructor].
  - destruct (Z.leb_spec 0 d) as [Hd|]; [|discriminate]. intros [= <-].
    cbn [ow_timers ow_now]. eapply Forall_impl; [exact Hdue|].
    cbn. intros. lia.
  - destruct (ow_timers w !! k) as [due|]; [|discriminate].
    destruct (due <=? ow_now w); [|discriminate]. intros [= <-].
    cbn [ow_timers ow_now]. apply Forall_delete. exact Hdue.
Qed.

Lemma overlap_dueSoon_run es : forall w w',
  dueSoon w -> run w es = Some w' -> dueSoon w'.
Proof.
  induction es as [|e es IH]; intros w w' Hdue; cbn [run].
  - intros [= <-]. exact Hdue.
  - destruct (step w e) as [w1|] eqn:Hs; [|discriminate].
    apply IH. eapply overlap_dueSoon_step; eassumption.
Qed.

(** With no call in progress and no timer pending nothing is owed. *)
Lemma overlap_inv_idle w :
  inv w -> ow_calls w = [] -> ow_timers w = [] -> penalty (ow_host w) = 0.
Proof.
  unfold inv, owed. intros Hinv Hc Ht. rewrite Hinv, Hc, Ht. reflexivity.
Qed.

End OverlapFacts.

(** Calls one after another are overlapping calls of which at most one
    is in progress: every run of the first model is a run of the second,
    event by event. *)
Lemma overlap_of_step w e w' :
  Penalty.step w e = Some w' ->
  Overlap.step (overlapOf w) (overlapEventOf e) = Some (overlapOf w').
Proof.
  destruct w as [h now ts hp call].
  destruct e as [| | |d|k]; cbn [Penalty.step overlapEventOf pw_call].
  - destruct call as [c|]; [discriminate|]. intros [= <-].
    cbn [Overlap.step]. unfold Overlap.load, Penalty.load, overlapOf.
    cbn [ow_host pw_host penalty].
    destruct (penaltyMaxSize <=? penalty h); reflexivity.
  - destruct call as [[p|]|]; try discriminate. intros [= <-]. reflexivity.
  - destruct call as [[p|]|]; try discriminate. intros [= <-]. reflexivity.
  - cbn [Overlap.step]. destruct (0 <=? d); [|discriminate].
    intros [= <-]. reflexivity.
  - cbn [Overlap.step overlapOf ow_timers pw_timers pw_now ow_now].
    destruct (ts !! k) as [due|]; [|discriminate].
    destruct (due <=? now); [|discriminate]. intros [= <-]. reflexivity.
Qed.

Lemma overlap_of_run es : forall w w',
  Penalty.run w es = Some w' ->
  Overlap.run (overlapOf w) (overlapEventOf <$> es) = Some (overlapOf w') /\
  (Overlap.peak (overlapOf w) (overlapEventOf <$> es) <= 1)%nat.
Proof.
  induction es as [|e es IH]; intros w w'; cbn [Penalty.run fmap list_fmap].
  - intros [= <-]. split; [reflexivity|].
    cbn [Overlap.peak overlapOf ow_calls]. destruct (pw_call w); cbn; lia.
  - destruct (Penalty.step w e) as [w1|] eqn:Hs; [|discriminate].
    intros Hrun. destruct (IH w1 w' Hrun) as [IH1 IH2].
    change (list_fmap _ _ overlapEventOf es) with (overlapEventOf <$> es).
    cbn [Overlap.run Overlap.peak]. rewrite (overlap_of_step w e w1 Hs).
    split; [exact IH1|].
    assert (Hc : (length (ow_calls (overlapOf w)) <= 1)%nat)
      by (cbn [overlapOf ow_calls]; destruct (pw_call w); cbn; lia).
    lia.
Qed.

(** C5, as the code has it.  From a host with penalty 0, after any
    events of any number of [penalize] calls, overlapping or not (each
    taken operation by operation), clock advances and timer firings, as
    long as the number [n] of calls in progress at once stays far enough
    below [2^32 / 5] for the counter not to wrap:
    - the penalty is a multiple of 5 between 0 and [295 + 5 * n], so
      between 0 and 300 while calls do not overlap;
    - a call that loads a penalty of 300 or more changes nothing, and so
      schedules nothing; any other call is in progress with the value it
      loaded;
    - a call in progress adds exactly 5, whatever happened since its
      load, and then schedules exactly one decay, due 10 seconds after
      the instant of scheduling, and is over;
    - a decay that fires subtracts exactly 5 and is no longer pending;
    - with no call in progress and no decay pending the penalty is 0, and
      letting the pending decays fire leads to such a state. *)
Theorem penalty_bounded_and_decays (h : host) (t0 : Z)
    (es : list overlapEvent) (w : overlapWorld) :
  penalty h = 0 ->
  Overlap.run (Overlap.start h t0) es = Some w ->
  295 + 5 * Z.of_nat (Overlap.peak (Overlap.start h t0) es) < U32.modulus ->
  (penalty (ow_host w) mod 5 = 0 /\
   0 <= penalty (ow_host w)
     <= 295 + 5 * Z.of_nat (Overlap.peak (Overlap.start h t0) es)) /\
  ((Overlap.peak (Overlap.start h t0) es <= 1)%nat ->
   penalty (ow_host w) <= 300) /\
  (300 <= penalty (ow_host w) -> Overlap.step w Loads = Some w) /\
  (penalty (ow_host w) < 300 ->
   exists w', Overlap.step w Loads = Some w' /\
              ow_calls w' = ow_calls w ++ [Loaded (penalty (ow_host w))] /\
              penalty (ow_host w') = penalty (ow_host w) /\
              ow_timers w' = ow_timers w) /\
  (forall i w', Overlap.step w (Adds i) = Some w' ->
     penalty (ow_host w') = penalty (ow_host w) + 5 /\
     ow_timers w' = ow_timers w /\
     ow_calls w' = <[i := Added]> (ow_calls w)) /\
  (forall i w', Overlap.step w (Schedules i) = Some w' ->
     penalty (ow_host w') = penalty (ow_host w) /\
     ow_timers w' = ow_timers w ++ [ow_now w + 10 * 1000000000] /\
     ow_calls w' = delete i (ow_calls w)) /\
  (forall k w', Overlap.step w (Fires k) = Some w' ->
     penalty (ow_host w') = penalty (ow_host w) - 5 /\
     length (ow_timers w') = pred (length (ow_timers w)) /\
     ow_calls w' = ow_calls w) /\
  (ow_calls w = [] -> ow_timers w = [] -> penalty (ow_host w) = 0) /\
  (ow_calls w = [] ->
   exists w', Overlap.run w (Overlap.settle w) = Some w' /\
              ow_calls w' = [] /\ ow_timers w' = [] /\
              penalty (ow_host w') = 0).
Proof.
  intros Hp Hrun Hn.
  set (n := Overlap.peak (Overlap.start h t0) es) in *.
  assert (Hn' : penaltyMaxSize - penaltySize + penaltySize * Z.of_nat n < U32.modulus)
    by (unfold penaltyMaxSize, penaltySize; lia).
  assert (Hinv : Overlap.inv w)
    by (eapply overlap_inv_run; [apply overlap_inv_start; exact Hp|exact Hrun]).
  destruct (within_run n Hn' es _ w (overlap_inv_start h t0 Hp)
              (overlap_within_start h t0 n) (Nat.le_refl _) Hrun) as [Hw Hlen].
  destruct (within_exact n Hn' w Hinv Hw) as [Hexact Hbound].
  pose proof (owed_nonneg w) as Ho.
  unfold penaltyMaxSize, penaltySize in Hexact, Hbound.
  split; [|split; [|split; [|split; [|split; [|split; [|split; [|split]]]]]]].
  - split; [|lia]. rewrite Hexact, Z.mul_comm. apply Z_mod_mult.
  - intros H1. lia.
  - intros Hge. cbn [Overlap.step]. unfold Overlap.load, penaltyMaxSize.
    apply Z.leb_le in Hge. rewrite Hge. reflexivity.
  - intros Hlt. cbn [Overlap.step]. unfold Overlap.load, penaltyMaxSize.
    apply Z.leb_gt in Hlt. rewrite Hlt. eexists. split; [reflexivity|].
    repeat split.
  - intros i w' Hs.
    pose proof (overlap_inv_step w (Adds i) w' Hinv Hs) as Hinv'.
    assert (Hw' : Overlap.within n w').
    { apply (within_step n Hn' w (Adds i) w' Hinv Hw Hs).
      cbn [Overlap.step] in Hs.
      destruct (ow_calls w !! i) as [[p|]|]; try discriminate.
      injection Hs as <-. unfold Overlap.add. cbn [ow_calls].
      rewrite length_insert. exact Hlen. }
    destruct (within_exact n Hn' w' Hinv' Hw') as [Hexact' _].
    pose proof (owed_step w (Adds i) w' Hs) as Hstep. cbn beta iota in Hstep.
    unfold penaltySize in Hexact'.
    split; [lia|]. cbn [Overlap.step] in Hs.
    destruct (ow_calls w !! i) as [[p|]|]; try discriminate.
    injection Hs as <-. split; reflexivity.
  - intros i w'. cbn [Overlap.step].
    destruct (ow_calls w !! i) as [[p|]|]; try discriminate.
    intros [= <-]. repeat split.
  - intros k w' Hs.
    pose proof (overlap_inv_step w (Fires k) w' Hinv Hs) as Hinv'.
    pose proof (owed_step w (Fires k) w' Hs) as Hstep. cbn beta iota in Hstep.
    cbn [Overlap.step] in Hs.
    destruct (ow_timers w !! k) as [due|] eqn:Hk; [|discriminate].
    destruct (due <=? ow_now w); [|discriminate]. injection Hs as <-.
    assert (Hk' : (k < length (ow_timers w))%nat)
      by (eapply lookup_lt_Some; eassumption).
    assert (Hw' : Overlap.within n
              {| ow_host := Penalty.decay (ow_host w); ow_now := ow_now w;
                 ow_timers := delete k (ow_timers w);
                 ow_hostPenalties := ow_hostPenalties w;
                 ow_calls := ow_calls w |}).
    { unfold Overlap.within in *. rewrite Hstep. cbn [ow_calls].
      unfold penaltyMaxSize, penaltySize in *. lia. }
    destruct (within_exact n Hn' _ Hinv' Hw') as [Hexact' _].
    unfold penaltySize in Hexact'. cbn [ow_host ow_timers ow_calls] in *.
    split; [lia|]. split; [|reflexivity].
    rewrite length_delete by eauto. lia.
  - intros Hc Ht. apply overlap_inv_idle; assumption.
  - intros Hc.
    pose proof (latest_due (ow_now w) (ow_timers w)) as [Hnow Hdue].
    destruct (overlap_drain w (Overlap.latest w - ow_now w)) as (w' & Hs & _ & Ht & Hc').
    { unfold Overlap.latest. lia. }
    { unfold Overlap.latest.
      replace (ow_now w + (foldr Z.max (ow_now w) (ow_timers w) - ow_now w))
        with (foldr Z.max (ow_now w) (ow_timers w)) by ring.
      exact Hdue. }
    exists w'. split; [exact Hs|]. rewrite Hc' , Hc. split; [reflexivity|].
    split; [exact Ht|].
    apply overlap_inv_idle; [|congruence|exact Ht].
    eapply overlap_inv_run; [exact Hinv|exact Hs].
Qed.

(** Two calls that overlap at a penalty of 295: the bound [295 + 5 * 2]
    is reached. *)
Lemma penalty_bounded_and_decays_witness :
  penalty (mkHost "h1:8123" 1 0 0) = 0 /\
  Overlap.run (Overlap.start (mkHost "h1:8123" 1 0 0) 0) overlapTrace
  = Some overlapTraceEnd /\
  Overlap.peak (Overlap.start (mkHost "h1:8123" 1 0 0) 0) overlapTrace = 2%nat /\
  295 + 5 * Z.of_nat 2 < U32.modulus /\
  penalty (ow_host overlapTraceEnd) mod 5 = 0 /\
  0 <= penalty (ow_host overlapTraceEnd) <= 295 + 5 * Z.of_nat 2.
Proof.
  assert (Hn : 295 + 5 * Z.of_nat 2 < U32.modulus) by reflexivity.
  split; [reflexivity|]. split; [reflexivity|]. split; [reflexivity|].
  split; [exact Hn|].
  exact (proj1 (penalty_bounded_and_decays (mkHost "h1:8123" 1 0 0) 0 overlapTrace
                  overlapTraceEnd eq_refl eq_refl Hn)).
Defined.

(** C5 as stated fails when calls overlap: at a penalty of 295 two calls
    load before either adds, both find 295 below the maximum, and both
    add; the penalty is 305. *)
Lemma penalize_overlap_exceeds_max :
  penalty (mkHost "h1:8123" 1 0 0) = 0 /\
  Overlap.run (Overlap.start (mkHost "h1:8123" 1 0 0) 0) overlapTrace
  = Some overlapTraceEnd /\
  penalty (ow_host overlapTraceEnd) = 305 /\
  ~ (0 <= penalty (ow_host overlapTraceEnd) <= 300).
Proof.
  split; [reflexivity|]. split; [reflexivity|]. split; [reflexivity|].
  cbn. lia.
Qed.

(** ** Query strings *)

Section QueryStrings.

Import NetUrl.

Local Ltac each_byte c :=
  destruct c as [[] [] [] [] [] [] [] []].

Lemma unescape_escape_byte c r :
  QueryUnescape (QueryEscape (String c r))
  = String c <$> QueryUnescape (QueryEscape r).
Proof. each_byte c; reflexivity. Qed.

Lemma QueryUnescape_QueryEscape s : QueryUnescape (QueryEscape s) = Some s.
Proof.
  induction s as [|c s IH].
  - reflexivity.
  - rewrite unescape_escape_byte, IH. reflexivity.
Qed.

Lemma escape_no_amp_byte c r :
  contains "&" (QueryEscape (String c r)) = contains "&" (QueryEscape r).
Proof. each_byte c; reflexivity. Qed.

Lemma escape_no_semicolon_byte c r :
  contains ";" (QueryEscape (String c r)) = contains ";" (QueryEscape r).
Proof. each_byte c; reflexivity. Qed.

Lemma escape_no_equals_byte c r :
  contains "=" (QueryEscape (String c r)) = contains "=" (QueryEscape r).
Proof. each_byte c; reflexivity. Qed.

Lemma escape_no_amp s : contains "&" (QueryEscape s) = false.
Proof.
  induction s as [|c s IH]; [reflexivity|]. rewrite escape_no_amp_byte. exact IH.
Qed.

Lemma escape_no_semicolon s : contains ";" (QueryEscape s) = false.
Proof.
  induction s as [|c s IH]; [reflexivity|]. rewrite escape_no_semicolon_byte. exact IH.
Qed.

Lemma escape_no_equals s : contains "=" (QueryEscape s) = false.
Proof.
  induction s as [|c s IH]; [reflexivity|]. rewrite escape_no_equals_byte. exact IH.
Qed.

Lemma contains_app c a b :
  contains c (a +:+ b) = contains c a || contains c b.
Proof.
  induction a as [|x a IH]; [reflexivity|].
  simpl. rewrite IH. apply orb_assoc.
Qed.

Lemma segments_clean sep a : contains sep a = false -> segments sep a = [a].
Proof.
  induction a as [|x a IH]; [reflexivity|].
  cbn [contains segments]. intros H. apply orb_false_iff in H as [Hx Ha].
  rewrite Hx, (IH Ha). reflexivity.
Qed.

Lemma segments_app sep a b :
  contains sep a = false ->
  segments sep (a +:+ String sep b) = a :: segments sep b.
Proof.
  induction a as [|x a IH]; simpl; intros H.
  - rewrite Ascii.eqb_refl. reflexivity.
  - apply orb_false_iff in H as [Hx Ha]. rewrite Hx, (IH Ha). reflexivity.
Qed.

Lemma cut_app sep a b :
  contains sep a = false -> cut sep (a +:+ String sep b) = (a, b).
Proof.
  induction a as [|x a IH]; simpl; intros H.
  - rewrite Ascii.eqb_refl. reflexivity.
  - apply orb_false_iff in H as [Hx Ha]. rewrite Hx, (IH Ha). reflexivity.
Qed.

Lemma cut_clean sep a : contains sep a = false -> cut sep a = (a, EmptyString).
Proof.
  induction a as [|x a IH]; cbn [contains cut]; intros H; [reflexivity|].
  apply orb_false_iff in H as [Hx Ha]. rewrite Hx, (IH Ha). reflexivity.
Qed.

(** One turn of the parsing loop on a pair written by [Encode], for a key
    that needs no escaping. *)
Lemma parsePair_encoded m key val :
  key <> EmptyString -> QueryEscape key = key ->
  parsePair m (key +:+ String "=" (QueryEscape val))
  = <[key := default [] (m !! key) ++ [val]]> m.
Proof.
  intros Hne Hkey. unfold parsePair.
  assert (Hk_eq : contains "=" key = false) by (rewrite <- Hkey; apply escape_no_equals).
  assert (Hk_sc : contains ";" key = false) by (rewrite <- Hkey; apply escape_no_semicolon).
  assert (Hsc : contains ";" (key +:+ String "=" (QueryEscape val)) = false).
  { rewrite contains_app. simpl. rewrite Hk_sc, escape_no_semicolon. reflexivity. }
  assert (Hnil : String.eqb (key +:+ String "=" (QueryEscape val)) "" = false)
    by (destruct key; [congruence|reflexivity]).
  pose proof (QueryUnescape_QueryEscape key) as Hun. rewrite Hkey in Hun.
  rewrite Hsc, Hnil, cut_app by exact Hk_eq.
  rewrite Hun, QueryUnescape_QueryEscape. reflexivity.
Qed.

Lemma append_assoc (a b c : string) : (a +:+ b) +:+ c = a +:+ (b +:+ c).
Proof.
  induction a as [|x a IH]; [reflexivity|].
  change (String x ((a +:+ b) +:+ c) = String x (a +:+ (b +:+ c))).
  rewrite IH. reflexivity.
Qed.

Lemma Encode_query_id i :
  Encode {["query_id" := [i]]} = "query_id" +:+ String "=" (QueryEscape i).
Proof. reflexivity. Qed.

Lemma Encode_query_and_id q i :
  Encode (<["query" := [q]]> {["query_id" := [i]]})
  = ("query" +:+ String "=" (QueryEscape q))
    +:+ String "&" ("query_id" +:+ String "=" (QueryEscape i)).
Proof.
  unfold Encode.
  change (sortedKeys (<["query" := [q]]> {["query_id" := [i]]}))
    with ["query"; "query_id"].
  cbn [foldl].
  change (<["query" := [q]]> {["query_id" := [i]]} !! "query") with (Some [q]).
  change (<["query" := [q]]> {["query_id" := [i]]} !! "query_id") with (Some [i]).
  cbn [default foldl]. simpl.
  rewrite !append_assoc. reflexivity.
Qed.

Lemma ParseQuery_Encode_query_id i :
  ParseQuery (Encode {["query_id" := [i]]}) = {["query_id" := [i]]}.
Proof.
  rewrite Encode_query_id. unfold ParseQuery.
  rewrite segments_clean.
  - cbn [foldl]. rewrite parsePair_encoded by (discriminate || reflexivity).
    rewrite lookup_empty. reflexivity.
  - rewrite contains_app. simpl. apply escape_no_amp.
Qed.

Lemma ParseQuery_Encode_query_and_id q i :
  ParseQuery (Encode (<["query" := [q]]> {["query_id" := [i]]}))
  = <["query" := [q]]> {["query_id" := [i]]}.
Proof.
  rewrite Encode_query_and_id. unfold ParseQuery.
  rewrite segments_app by (rewrite contains_app; simpl; apply escape_no_amp).
  rewrite segments_clean by (rewrite contains_app; simpl; apply escape_no_amp).
  cbn [foldl].
  rewrite !parsePair_encoded by (discriminate || reflexivity).
  rewrite lookup_empty, lookup_insert_ne by discriminate.
  rewrite lookup_empty. cbn [default app].
  rewrite insert_insert_ne by discriminate. reflexivity.
Qed.

End QueryStrings.

(** ** Request rewriting *)

(** C3, as the code has it.  After [decorateRequest] the query of the URL
    holds exactly [query_id], the decimal scope identifier, and, when the
    first [query] value of the inbound URL is not empty, [query] with that
    value; nothing else.  An inbound [query] parameter whose first value
    is empty is dropped like the other parameters. *)
Theorem decorateRequest_query (s : scope) (req : Request) (h : host) :
  ScopeOps.host_of s = Some h ->
  exists req',
    ScopeOps.decorateRequest s req = Returned req' /\
    NetUrl.Query (req_URL req')
    = (if String.eqb (NetUrl.Get (NetUrl.Query (req_URL req)) "query") ""
       then {["query_id" := [Itoa (id s)]]}
       else <["query" := [NetUrl.Get (NetUrl.Query (req_URL req)) "query"]]>
              {["query_id" := [Itoa (id s)]]}).
Proof.
  intros Hh. unfold ScopeOps.decorateRequest. rewrite Hh.
  eexists. split; [reflexivity|].
  cbn [req_URL Http.set_Header Http.set_URL Http.SetBasicAuth].
  unfold NetUrl.Query at 1.
  cbn [RawQuery NetUrl.set_Scheme_Host NetUrl.set_RawQuery].
  unfold ScopeOps.decorateParams, NetUrl.Set_, int_of_uint32.
  destruct (NetUrl.Get (NetUrl.Query (req_URL req)) "query") as [|c q].
  - cbn [String.length Nat.ltb Nat.leb String.eqb].
    rewrite insert_empty. apply ParseQuery_Encode_query_id.
  - cbn [String.length Nat.ltb Nat.leb String.eqb].
    rewrite insert_empty. apply ParseQuery_Encode_query_and_id.
Qed.

(** S6: of [query=SELECT+1&database=x&query_id=99] only [query] is kept,
    and [query_id] becomes the scope identifier. *)
Lemma decorateRequest_query_witness :
  ScopeOps.host_of scopeS5 = Some (mkHost "h1:8123" 1 0 0) /\
  exists req',
    ScopeOps.decorateRequest scopeS5
      (inbound "query=SELECT+1&database=x&query_id=99") = Returned req' /\
    NetUrl.Query (req_URL req')
    = <["query" := ["SELECT 1"]]> {["query_id" := ["7"]]}.
Proof.
  split; [reflexivity|].
  exact (decorateRequest_query scopeS5
           (inbound "query=SELECT+1&database=x&query_id=99")
           (mkHost "h1:8123" 1 0 0) eq_refl).
Defined.

(** C3 as stated fails for an inbound [query] parameter with an empty
    value: the inbound URL has the parameter, the outbound URL does not. *)
Lemma decorateRequest_drops_empty_query :
  NetUrl.Query (req_URL (inbound "query=&database=x")) !! "query" = Some [""] /\
  exists req',
    ScopeOps.decorateRequest scopeS5 (inbound "query=&database=x") = Returned req' /\
    RawQuery (req_URL req') = "query_id=7" /\
    NetUrl.Query (req_URL req') !! "query" = None.
Proof.
  split; [reflexivity|].
  eexists. split; [reflexivity|]. split; reflexivity.
Qed.

(** ** Cancellation *)

(** C9.  Without cancellation credentials (an empty
    [killQueryUserName]) [killQuery] returns success and hands no request
    to the HTTP client.  With credentials, for a scope whose host address
    renders to a text that [url.Parse] accepts, exactly one request is
    handed to the client: a POST to the parsed host address whose body is
    [KILL QUERY WHERE query_id = '<id>'] with the identifier in decimal,
    with Basic authorization of the cluster's cancellation user, under
    the 30 second timeout. *)
Theorem killQuery_request
    (url_Parse : string -> URL + string) (URL_String : URL -> string)
    (http_Do : Request -> Response + string) (s : scope) :
  (killQueryUserName (s_cluster s) = "" ->
   ScopeOps.killQuery url_Parse URL_String http_Do s = ([], Returned None)) /\
  (forall h u,
     killQueryUserName (s_cluster s) <> "" ->
     ScopeOps.host_of s = Some h ->
     url_Parse (URL_String (addr h)) = inl u ->
     exists req,
       fst (ScopeOps.killQuery url_Parse URL_String http_Do s) = [req] /\
       Method req = "POST" /\
       req_URL req = u /\
       Body req = "KILL QUERY WHERE query_id = '" +:+ Itoa (id s) +:+ "'" /\
       Header req !! "Authorization"
       = Some ["Basic " +:+ Base64.EncodeToString
                 (killQueryUserName (s_cluster s) +:+ ":"
                  +:+ killQueryUserPassword (s_cluster s))] /\
       ctx_Timeout req = Some (30 * 1000000000)).
Proof.
  split.
  - intros Hname. unfold ScopeOps.killQuery. rewrite Hname. reflexivity.
  - intros h u Hname Hh Hparse. unfold ScopeOps.killQuery.
    destruct (killQueryUserName (s_cluster s)) as [|c name] eqn:Hn; [congruence|].
    cbn [String.length Nat.eqb]. rewrite Hh.
    unfold Http.NewRequest. rewrite Hparse.
    eexists. split.
    + destruct (http_Do _) as [resp|err]; [|reflexivity].
      destruct (negb (StatusCode resp =? StatusOK)); reflexivity.
    + cbn [Method req_URL Body Header ctx_Timeout Http.SetBasicAuth Http.WithTimeout
           Http.set_Header Http.Header_Set Http.basicAuth].
      unfold ScopeOps.killQueryText, ScopeOps.killQueryTimeout.
      unfold Http.Header_Set, Http.basicAuth. rewrite lookup_insert_eq. repeat split.
Qed.

(** S5: scope 7 on [http://h1:8123]. *)
Lemma killQuery_request_witness :
  killQueryUserName (s_cluster scopeNoKill) = "" /\
  ScopeOps.killQuery (parseTo (mkURL "http" "h1:8123")) renderURL
    (respond 200 "") scopeNoKill = ([], Returned None) /\
  killQueryUserName (s_cluster scopeS5) <> "" /\
  ScopeOps.host_of scopeS5 = Some (mkHost "h1:8123" 1 0 0) /\
  parseTo (mkURL "http" "h1:8123") (renderURL (addr (mkHost "h1:8123" 1 0 0)))
  = inl (mkURL "http" "h1:8123") /\
  renderURL (addr (mkHost "h1:8123" 1 0 0)) = "http://h1:8123" /\
  exists req,
    fst (ScopeOps.killQuery (parseTo (mkURL "http" "h1:8123")) renderURL
           (respond 200 "") scopeS5) = [req] /\
    Method req = "POST" /\
    req_URL req = mkURL "http" "h1:8123" /\
    Body req = "KILL QUERY WHERE query_id = '7'" /\
    Header req !! "Authorization" = Some ["Basic a2lsbGVyOmh1bnRlcjI="] /\
    ctx_Timeout req = Some (30 * 1000000000).
Proof.
  assert (Hname : killQueryUserName (s_cluster scopeS5) <> "") by discriminate.
  split; [reflexivity|].
  split; [exact (proj1 (killQuery_request (parseTo (mkURL "http" "h1:8123"))
                          renderURL (respond 200 "") scopeNoKill) eq_refl)|].
  split; [exact Hname|]. do 3 (split; [reflexivity|]).
  exact (proj2 (killQuery_request (parseTo (mkURL "http" "h1:8123")) renderURL
                  (respond 200 "") scopeS5)
           (mkHost "h1:8123" 1 0 0) (mkURL "http" "h1:8123") Hname eq_refl eq_refl).
Defined.

(** C2, as the code has it.  For a scope with cancellation credentials
    whose request reaches the backend and is answered: [killQuery] returns
    success exactly when the status code is 200, and the
    unexpected-status error, carrying the query, the address, the code and
    the whole response body, exactly when the code is not 200. *)
Theorem killQuery_status
    (url_Parse : string -> URL + string) (URL_String : URL -> string)
    (http_Do : Request -> Response + string) (s : scope) (h : host) (u : URL)
    (resp : Response) :
  killQueryUserName (s_cluster s) <> "" ->
  ScopeOps.host_of s = Some h ->
  url_Parse (URL_String (addr h)) = inl u ->
  (forall req, http_Do req = inl resp) ->
  (snd (ScopeOps.killQuery url_Parse URL_String http_Do s) = Returned None
   <-> StatusCode resp = 200) /\
  (snd (ScopeOps.killQuery url_Parse URL_String http_Do s)
   = Returned (Some (ErrUnexpectedStatus
                       ("KILL QUERY WHERE query_id = '" +:+ Itoa (id s) +:+ "'")
                       (URL_String (addr h)) (StatusCode resp) (resp_Body resp)))
   <-> StatusCode resp <> 200).
Proof.
  intros Hname Hh Hparse Hdo. unfold ScopeOps.killQuery.
  destruct (killQueryUserName (s_cluster s)) as [|c name] eqn:Hn; [congruence|].
  cbn [String.length Nat.eqb]. rewrite Hh.
  unfold Http.NewRequest. rewrite Hparse, Hdo. unfold StatusOK.
  destruct (Z.eqb_spec (StatusCode resp) 200) as [Heq|Hne]; cbn [negb snd].
  - split; split.
    + intros _. exact Heq.
    + intros _. reflexivity.
    + discriminate.
    + intros Hne. contradiction.
  - split; split.
    + discriminate.
    + intros Heq. contradiction.
    + intros _. exact Hne.
    + intros _. reflexivity.
Qed.

Lemma killQuery_status_witness :
  killQueryUserName (s_cluster scopeS5) <> "" /\
  ScopeOps.host_of scopeS5 = Some (mkHost "h1:8123" 1 0 0) /\
  parseTo (mkURL "http" "h1:8123") (renderURL (addr (mkHost "h1:8123" 1 0 0)))
  = inl (mkURL "http" "h1:8123") /\
  (forall req, respond 500 "DB::Exception" req
               = inl {| StatusCode := 500; resp_Body := "DB::Exception" |}) /\
  snd (ScopeOps.killQuery (parseTo (mkURL "http" "h1:8123")) renderURL
         (respond 500 "DB::Exception") scopeS5)
  = Returned (Some (ErrUnexpectedStatus "KILL QUERY WHERE query_id = '7'"
                      "http://h1:8123" 500 "DB::Exception")).
Proof.
  assert (Hname : killQueryUserName (s_cluster scopeS5) <> "") by discriminate.
  split; [exact Hname|]. do 2 (split; [reflexivity|]).
  split; [intros req; reflexivity|].
  apply (killQuery_status (parseTo (mkURL "http" "h1:8123")) renderURL
           (respond 500 "DB::Exception") scopeS5 (mkHost "h1:8123" 1 0 0)
           (mkURL "http" "h1:8123")
           {| StatusCode := 500; resp_Body := "DB::Exception" |}
           Hname eq_refl eq_refl (fun req => eq_refl)).
  discriminate.
Defined.

(** C2 as stated fails for the other statuses of the 2xx class: a
    backend that answers 204 makes [killQuery] return the
    unexpected-status error. *)
Lemma killQuery_204_is_error :
  200 <= 204 < 300 /\
  killQueryUserName (s_cluster scopeS5) <> "" /\
  ScopeOps.killQuery (parseTo (mkURL "http" "h1:8123")) renderURL
    (respond 204 "") scopeS5
  = ([Http.SetBasicAuth
        (Http.WithTimeout
           {| Method := "POST"; req_URL := mkURL "http" "h1:8123"; Header := ∅;
              Body := "KILL QUERY WHERE query_id = '7'"; RemoteAddr := "";
              ctx_LocalAddr := None; ctx_Timeout := None |}
           (30 * 1000000000))
        "killer" "hunter2"],
     Returned (Some (ErrUnexpectedStatus "KILL QUERY WHERE query_id = '7'"
                       "http://h1:8123" 204 ""))).
Proof.
  split; [lia|]. split; [discriminate|]. reflexivity.
Qed.

(** * Further properties *)

(** ** Host selection, continued *)

Section GetHostMore.

Import ClusterOps.

(** *** An idle active host is found *)

Lemma getHost_loop_idle hs l idx :
  l = Z.of_nat (length hs) -> 0 <= idx < l -> l < U32.modulus ->
  forall fuel k idle idleN m hm,
    1 <= k <= m -> m < l -> l - k < Z.of_nat fuel ->
    hs !! Z.to_nat ((idx + m) mod l) = Some hm ->
    HostOps.isActive hm = true -> HostOps.runningQueries hm = 0 ->
    exists mj hj,
      k <= mj <= m /\
      getHost_loop fuel hs l idx ((idx + k) mod l) idle idleN
      = Returned (Some (Z.to_nat ((idx + mj) mod l))) /\
      hs !! Z.to_nat ((idx + mj) mod l) = Some hj /\
      HostOps.isActive hj = true /\ HostOps.runningQueries hj = 0 /\
      forall m' h',
        k <= m' < mj -> hs !! Z.to_nat ((idx + m') mod l) = Some h' ->
        ~ (HostOps.isActive h' = true /\ HostOps.runningQueries h' = 0).
Proof.
  intros Hlen Hidx Hl.
  induction fuel as [|fuel IH]; intros k idle idleN m hm Hk Hm Hfuel Hhm Ham Hlm;
    [lia|].
  cbn [getHost_loop].
  pose proof (circ_neq l idx k Hidx ltac:(lia)) as Hneq.
  pose proof (circ_range l idx k Hidx ltac:(lia)) as Hr.
  apply Z.eqb_neq in Hneq. rewrite Hneq.
  rewrite circ_next by lia.
  assert (Hi : (Z.to_nat ((idx + k) mod l) < length hs)%nat) by lia.
  destruct (lookup_lt_is_Some_2 hs _ Hi) as [h Hh]. rewrite Hh.
  assert (Hnext : forall idle' idleN',
    ~ (HostOps.isActive h = true /\ HostOps.runningQueries h = 0) ->
    exists mj hj,
      k <= mj <= m /\
      getHost_loop fuel hs l idx ((idx + (k + 1)) mod l) idle' idleN'
      = Returned (Some (Z.to_nat ((idx + mj) mod l))) /\
      hs !! Z.to_nat ((idx + mj) mod l) = Some hj /\
      HostOps.isActive hj = true /\ HostOps.runningQueries hj = 0 /\
      forall m' h',
        k <= m' < mj -> hs !! Z.to_nat ((idx + m') mod l) = Some h' ->
        ~ (HostOps.isActive h' = true /\ HostOps.runningQueries h' = 0)).
  { intros idle' idleN' Hnot.
    assert (Hkm : k <> m).
    { intros ->. apply Hnot. assert (h = hm) as -> by congruence. split; assumption. }
    destruct (IH (k + 1) idle' idleN' m hm ltac:(lia) Hm ltac:(lia) Hhm Ham Hlm)
      as (mj & hj & Hmj & Hloop & Hhj & Haj & Hlj & Hfirst).
    exists mj, hj. split; [lia|]. split; [exact Hloop|].
    do 3 (split; [assumption|]).
    intros m' h' Hm' Hh'. destruct (Z.eq_dec m' k) as [->|Hne].
    - assert (h' = h) as -> by congruence. exact Hnot.
    - apply (Hfirst m' h'); [lia|exact Hh']. }
  destruct (HostOps.isActive h) eqn:Ha; cbn [negb].
  - destruct (Z.eqb_spec (HostOps.runningQueries h) 0) as [Hz|Hnz].
    + exists k, h. split; [lia|]. split; [reflexivity|].
      do 3 (split; [assumption|]). intros m' h' Hm'. lia.
    + destruct (HostOps.runningQueries h <? idleN);
        apply Hnext; intros [_ Hc]; contradiction.
  - apply Hnext. intros [Hc _]. discriminate.
Qed.

End GetHostMore.

(** X3.  If some active host has load 0, [getHost] returns an active
    host of load 0: the first one in the circular order that starts at the
    advanced cursor. *)
Theorem getHost_prefers_idle (c : cluster) (x : nat) (hx : host) :
  0 < Z.of_nat (length (hosts c)) < U32.modulus ->
  hosts c !! x = Some hx ->
  HostOps.isActive hx = true -> HostOps.runningQueries hx = 0 ->
  exists j hj,
    ClusterOps.getHost c
    = (ClusterOps.set_nextIdx c (AddUint32 (nextIdx c) 1), Returned (Some j)) /\
    hosts c !! j = Some hj /\
    HostOps.isActive hj = true /\ HostOps.runningQueries hj = 0 /\
    forall k hk,
      hosts c !! k = Some hk ->
      HostOps.isActive hk = true -> HostOps.runningQueries hk = 0 ->
      scanPos (Z.of_nat (length (hosts c)))
              (AddUint32 (nextIdx c) 1 mod Z.of_nat (length (hosts c)))
              (Z.of_nat j)
      <= scanPos (Z.of_nat (length (hosts c)))
                 (AddUint32 (nextIdx c) 1 mod Z.of_nat (length (hosts c)))
                 (Z.of_nat k).
Proof.
  intros Hlen Hx Hax Hlx.
  set (l := Z.of_nat (length (hosts c))) in *.
  set (idx := AddUint32 (nextIdx c) 1 mod l).
  assert (Hidx : 0 <= idx < l) by (apply Z.mod_pos_bound; lia).
  assert (Hof : U32.of_len (length (hosts c)) = l)
    by (apply wrap_small; unfold U32.in_range; fold l; lia).
  assert (Hi : (Z.to_nat idx < length (hosts c))%nat) by lia.
  destruct (lookup_lt_is_Some_2 (hosts c) _ Hi) as [first Hfirst].
  assert (Hpos : forall k hk, hosts c !! k = Some hk ->
            0 <= scanPos l idx (Z.of_nat k) < l /\
            hosts c !! Z.to_nat ((idx + scanPos l idx (Z.of_nat k)) mod l) = Some hk).
  { intros k hk Hk.
    assert (Hkl : 0 <= Z.of_nat k < l) by (apply lookup_lt_Some in Hk; lia).
    destruct (circ_scanPos l idx (Z.of_nat k) Hidx Hkl) as [Hp Hback].
    split; [exact Hp|]. rewrite Hback, Nat2Z.id. exact Hk. }
  unfold ClusterOps.getHost, ClusterOps.getHost_fuel.
  rewrite Hof. fold idx.
  destruct (Z.eqb_spec l 0) as [|_]; [lia|].
  rewrite Hfirst.
  destruct ((HostOps.runningQueries first =? 0) && HostOps.isActive first) eqn:Hfast.
  - apply andb_true_iff in Hfast as [Hz Ha]. apply Z.eqb_eq in Hz.
    exists (Z.to_nat idx), first. split; [reflexivity|].
    do 3 (split; [assumption|]).
    intros k hk Hk _ _. destruct (Hpos k hk Hk) as [Hp _].
    rewrite Z2Nat.id by lia. unfold scanPos at 1.
    rewrite Z.sub_diag, Z.mod_0_l by lia. lia.
  - destruct (Hpos x hx Hx) as [Hpx Hbx].
    assert (Hx0 : scanPos l idx (Z.of_nat x) <> 0).
    { intros H0. rewrite H0, Z.add_0_r, (Z.mod_small idx l) in Hbx by lia.
      assert (hx = first) as -> by congruence.
      rewrite Hax in Hfast. apply Z.eqb_eq in Hlx. rewrite Hlx in Hfast.
      discriminate. }
    rewrite circ_first by lia.
    destruct (getHost_loop_idle (hosts c) l idx eq_refl Hidx (proj2 Hlen)
                (length (hosts c)) 1 (Z.to_nat idx) (HostOps.runningQueries first)
                (scanPos l idx (Z.of_nat x)) hx ltac:(lia) ltac:(lia) ltac:(lia)
                Hbx Hax Hlx)
      as (mj & hj & Hmj & Hloop & Hhj & Haj & Hlj & Hmin).
    exists (Z.to_nat ((idx + mj) mod l)), hj.
    split; [rewrite Hloop; reflexivity|].
    do 3 (split; [assumption|]).
    intros k hk Hk Hak Hlk. destruct (Hpos k hk Hk) as [Hpk Hbk].
    rewrite Z2Nat.id by (apply Z.mod_pos_bound; lia).
    rewrite scanPos_circ by lia.
    destruct (Z_le_gt_dec mj (scanPos l idx (Z.of_nat k))) as [Hle|Hgt];
      [exact Hle|].
    exfalso.
    destruct (Z.eq_dec (scanPos l idx (Z.of_nat k)) 0) as [H0|Hn0].
    + rewrite H0, Z.add_0_r, (Z.mod_small idx l) in Hbk by lia.
      assert (hk = first) as -> by congruence.
      rewrite Hak in Hfast. apply Z.eqb_eq in Hlk. rewrite Hlk in Hfast.
      discriminate.
    + apply (Hmin (scanPos l idx (Z.of_nat k)) hk); [lia|exact Hbk|].
      split; assumption.
Qed.

Lemma wrap_succ x k : U32.wrap (U32.wrap (x + 1) + k) = U32.wrap (x + (1 + k)).
Proof.
  unfold U32.wrap. rewrite Zplus_mod_idemp_l. f_equal. ring.
Qed.

(** X4.  Round robin: while every host is active with load 0, the [k]-th
    of [n] successive calls returns the host at index
    [(nextIdx + k) mod 2^32 mod len(hosts)]. *)
Theorem getHost_round_robin_all_idle (n : nat) :
  forall c : cluster,
    0 < Z.of_nat (length (hosts c)) < U32.modulus ->
    Forall (fun h => HostOps.isActive h = true /\ HostOps.runningQueries h = 0)
           (hosts c) ->
    snd (successive ClusterOps.getHost n c)
    = map (fun k => Returned (Some (Z.to_nat
             (U32.wrap (nextIdx c + Z.of_nat k) mod Z.of_nat (length (hosts c))))))
          (seq 1 n).
Proof.
  induction n as [|n IH]; intros c Hlen Hall; [reflexivity|].
  cbn [successive].
  assert (Hof : U32.of_len (length (hosts c)) = Z.of_nat (length (hosts c)))
    by (apply wrap_small; unfold U32.in_range; lia).
  set (l := Z.of_nat (length (hosts c))) in *.
  set (idx := AddUint32 (nextIdx c) 1 mod l).
  assert (Hidx : 0 <= idx < l) by (apply Z.mod_pos_bound; lia).
  assert (Hi : (Z.to_nat idx < length (hosts c))%nat) by lia.
  destruct (lookup_lt_is_Some_2 (hosts c) _ Hi) as [first Hfirst].
  assert (Hin : first ∈ hosts c) by (eapply list_elem_of_lookup_2; eassumption).
  rewrite Forall_forall in Hall. destruct (Hall first Hin) as [Ha Hz].
  assert (Hcall : ClusterOps.getHost c
                  = (ClusterOps.set_nextIdx c (AddUint32 (nextIdx c) 1),
                     Returned (Some (Z.to_nat idx)))).
  { unfold ClusterOps.getHost.
    pose proof (getHost_fast_path (length (hosts c)) c first) as Hfast.
    cbn zeta in Hfast. rewrite Hof in Hfast. fold l idx in Hfast.
    apply Hfast; [lia|exact Hfirst|exact Hz|exact Ha]. }
  rewrite Hcall.
  specialize (IH (ClusterOps.set_nextIdx c (AddUint32 (nextIdx c) 1))).
  cbn [hosts nextIdx ClusterOps.set_nextIdx] in IH. fold l in IH.
  destruct (successive ClusterOps.getHost n
              (ClusterOps.set_nextIdx c (AddUint32 (nextIdx c) 1))) as [c2 rs].
  cbn [snd] in *. rewrite IH by (rewrite ?Forall_forall; assumption).
  cbn [seq map].
  assert (Htail :
    map (fun k => Returned (Some (Z.to_nat
           (U32.wrap (AddUint32 (nextIdx c) 1 + Z.of_nat k) mod l)))) (seq 1 n)
    = map (fun k => Returned (Some (Z.to_nat
             (U32.wrap (nextIdx c + Z.of_nat k) mod l)))) (seq 2 n)).
  { rewrite <- (seq_shift n 1), map_map. apply map_ext. intros k.
    unfold AddUint32, U32.add. rewrite wrap_succ.
    replace (1 + Z.of_nat k) with (Z.of_nat (S k)) by lia. reflexivity. }
  rewrite Htail. reflexivity.
Qed.

Section GetHostCandidates.

Import ClusterOps.

Variable hs : list host.
Variables l idx : Z.
Hypothesis Hlen : l = Z.of_nat (length hs).
Hypothesis Hidx : 0 <= idx < l.
Hypothesis Hl : l < U32.modulus.
Hypothesis Hloaded :
  forall h, h ∈ hs -> HostOps.isActive h = true -> HostOps.runningQueries h <> 0.

Lemma candidates_start h :
  hs !! Z.to_nat idx = Some h ->
  scannedCandidates hs l idx 1 (Z.to_nat idx) (HostOps.runningQueries h).
Proof.
  intros Hh. exists 0, h. unfold candidateAt.
  rewrite Z.add_0_r, (Z.mod_small idx l) by lia.
  split; [lia|]. split; [reflexivity|]. split; [split; [exact Hh|left; reflexivity]|].
  split; [reflexivity|].
  intros m' h' Hm' [Hh' _].
  assert (m' = 0) as -> by lia.
  rewrite Z.add_0_r, (Z.mod_small idx l) in Hh' by lia.
  assert (h' = h) as -> by congruence. lia.
Qed.

Lemma candidates_skip k idle idleN h :
  1 <= k < l ->
  hs !! Z.to_nat ((idx + k) mod l) = Some h ->
  HostOps.isActive h = false ->
  scannedCandidates hs l idx k idle idleN ->
  scannedCandidates hs l idx (k + 1) idle idleN.
Proof.
  intros Hk Hh Ha (m & hm & Hm & Hidle & Hcand & Hload & Hmin).
  exists m, hm.
  split; [lia|]. do 3 (split; [assumption|]).
  intros m' h' Hm' Hc'.
  destruct (Z.eq_dec m' k) as [->|Hne].
  - destruct Hc' as [Hh' [H0|Ha']]; [lia|].
    assert (h' = h) as -> by congruence. congruence.
  - apply (Hmin m' h'); [lia|assumption].
Qed.

Lemma candidates_keep k idle idleN h :
  1 <= k < l ->
  hs !! Z.to_nat ((idx + k) mod l) = Some h ->
  idleN <= HostOps.runningQueries h ->
  scannedCandidates hs l idx k idle idleN ->
  scannedCandidates hs l idx (k + 1) idle idleN.
Proof.
  intros Hk Hh Hle (m & hm & Hm & Hidle & Hcand & Hload & Hmin).
  exists m, hm.
  split; [lia|]. do 3 (split; [assumption|]).
  intros m' h' Hm' Hc'.
  destruct (Z.eq_dec m' k) as [->|Hne].
  - destruct Hc' as [Hh' _].
    assert (h' = h) as -> by congruence. lia.
  - apply (Hmin m' h'); [lia|assumption].
Qed.

Lemma candidates_adopt k idle idleN h :
  1 <= k < l ->
  hs !! Z.to_nat ((idx + k) mod l) = Some h ->
  HostOps.isActive h = true ->
  HostOps.runningQueries h < idleN ->
  scannedCandidates hs l idx k idle idleN ->
  scannedCandidates hs l idx (k + 1) (Z.to_nat ((idx + k) mod l))
    (HostOps.runningQueries h).
Proof.
  intros Hk Hh Ha Hlt (m & hm & Hm & Hidle & Hcand & Hload & Hmin).
  exists k, h.
  split; [lia|]. split; [reflexivity|].
  split; [split; [exact Hh|right; exact Ha]|]. split; [reflexivity|].
  intros m' h' Hm' Hc'.
  destruct (Z.eq_dec m' k) as [->|Hne].
  - destruct Hc' as [Hh' _]. assert (h' = h) as -> by congruence. lia.
  - destruct (Hmin m' h') as [Hle _]; [lia|assumption|lia].
Qed.

Lemma getHost_loop_candidates :
  forall fuel k idle idleN,
    1 <= k <= l -> l - k < Z.of_nat fuel ->
    scannedCandidates hs l idx k idle idleN ->
    exists j hj,
      hs !! j = Some hj /\
      getHost_loop fuel hs l idx ((idx + k) mod l) idle idleN
      = Returned (if HostOps.isActive hj then Some j else None) /\
      scannedCandidates hs l idx l j (HostOps.runningQueries hj).
Proof.
  induction fuel as [|fuel IH]; intros k idle idleN Hk Hfuel Hinv; [lia|].
  cbn [getHost_loop].
  destruct (Z.eq_dec k l) as [->|Hne].
  - rewrite circ_full by exact Hidx. rewrite Z.eqb_refl.
    destruct Hinv as (m & hm & Hm & Hidle & Hcand & Hload & Hmin).
    assert (Hlk : hs !! idle = Some hm) by (rewrite Hidle; apply Hcand).
    exists idle, hm. split; [exact Hlk|]. split.
    + unfold getHost_finish. rewrite Hlk.
      destruct (HostOps.isActive hm); reflexivity.
    + exists m, hm. rewrite Hload.
      split; [exact Hm|]. split; [exact Hidle|]. split; [exact Hcand|].
      split; [reflexivity|]. exact Hmin.
  - pose proof (circ_neq l idx k Hidx ltac:(lia)) as Hneq.
    pose proof (circ_range l idx k Hidx ltac:(lia)) as Hr.
    apply Z.eqb_neq in Hneq. rewrite Hneq.
    rewrite circ_next by lia.
    assert (Hi : (Z.to_nat ((idx + k) mod l) < length hs)%nat) by lia.
    destruct (lookup_lt_is_Some_2 hs _ Hi) as [h Hh]. rewrite Hh.
    assert (Hin : h ∈ hs) by (eapply list_elem_of_lookup_2; eassumption).
    destruct (HostOps.isActive h) eqn:Ha; cbn [negb].
    + pose proof (Hloaded h Hin Ha) as Hnz. apply Z.eqb_neq in Hnz. rewrite Hnz.
      destruct (Z.ltb_spec (HostOps.runningQueries h) idleN) as [Hlt|Hge].
      * apply IH; [lia|lia|]. eapply candidates_adopt; try eassumption. lia.
      * apply IH; [lia|lia|]. eapply candidates_keep; try eassumption. lia.
    + apply IH; [lia|lia|]. eapply candidates_skip; try eassumption. lia.
Qed.

End GetHostCandidates.

(** X5.  When no active host has load 0, [getHost] looks for the first
    host of least load, in the circular order from the advanced cursor,
    among the host under the cursor and the active hosts; it returns that
    host if it is active and nil if it is not (it is then the host under
    the cursor). *)
Theorem getHost_least_candidate (c : cluster) :
  0 < Z.of_nat (length (hosts c)) < U32.modulus ->
  Forall (fun h => HostOps.isActive h = true -> HostOps.runningQueries h <> 0)
         (hosts c) ->
  exists j hj,
    hosts c !! j = Some hj /\
    ClusterOps.getHost c
    = (ClusterOps.set_nextIdx c (AddUint32 (nextIdx c) 1),
       Returned (if HostOps.isActive hj then Some j else None)) /\
    (scanPos (Z.of_nat (length (hosts c)))
             (AddUint32 (nextIdx c) 1 mod Z.of_nat (length (hosts c)))
             (Z.of_nat j) = 0
     \/ HostOps.isActive hj = true) /\
    forall k hk,
      hosts c !! k = Some hk ->
      scanPos (Z.of_nat (length (hosts c)))
              (AddUint32 (nextIdx c) 1 mod Z.of_nat (length (hosts c)))
              (Z.of_nat k) = 0
      \/ HostOps.isActive hk = true ->
      HostOps.runningQueries hj <= HostOps.runningQueries hk /\
      (HostOps.runningQueries hk = HostOps.runningQueries hj ->
       scanPos (Z.of_nat (length (hosts c)))
               (AddUint32 (nextIdx c) 1 mod Z.of_nat (length (hosts c)))
               (Z.of_nat j)
       <= scanPos (Z.of_nat (length (hosts c)))
                  (AddUint32 (nextIdx c) 1 mod Z.of_nat (length (hosts c)))
                  (Z.of_nat k)).
Proof.
  intros Hlen Hall. rewrite Forall_forall in Hall.
  set (l := Z.of_nat (length (hosts c))) in *.
  set (idx := AddUint32 (nextIdx c) 1 mod l).
  assert (Hidx : 0 <= idx < l) by (apply Z.mod_pos_bound; lia).
  assert (Hof : U32.of_len (length (hosts c)) = l)
    by (apply wrap_small; unfold U32.in_range; fold l; lia).
  assert (Hi : (Z.to_nat idx < length (hosts c))%nat) by lia.
  destruct (lookup_lt_is_Some_2 (hosts c) _ Hi) as [first Hfirst].
  assert (Hin : first ∈ hosts c) by (eapply list_elem_of_lookup_2; eassumption).
  destruct (getHost_loop_candidates (hosts c) l idx eq_refl Hidx (proj2 Hlen) Hall
              (length (hosts c)) 1 (Z.to_nat idx) (HostOps.runningQueries first)
              ltac:(lia) ltac:(lia) (candidates_start _ _ _ Hidx first Hfirst))
    as (j & hj & Hj & Hloop & m & hm & Hm & Hjm & [Hhm Hcm] & Hload & Hmin).
  assert (Hjpos : scanPos l idx (Z.of_nat j) = m).
  { rewrite Hjm. rewrite Z2Nat.id by (apply Z.mod_pos_bound; lia).
    apply scanPos_circ; lia. }
  assert (hm = hj) as -> by (rewrite <- Hjm in Hhm; congruence).
  exists j, hj. split; [exact Hj|]. split; [|split].
  - unfold ClusterOps.getHost, ClusterOps.getHost_fuel.
    rewrite Hof. fold idx.
    destruct (Z.eqb_spec l 0) as [|_]; [lia|].
    rewrite Hfirst.
    assert (Hfast : (HostOps.runningQueries first =? 0) && HostOps.isActive first
                    = false).
    { destruct (HostOps.isActive first) eqn:Ha; [|apply andb_false_r].
      pose proof (Hall first Hin Ha) as Hnz. apply Z.eqb_neq in Hnz.
      rewrite Hnz. reflexivity. }
    rewrite Hfast, circ_first by lia. rewrite Hloop. reflexivity.
  - rewrite Hjpos. exact Hcm.
  - intros k hk Hk Hck.
    assert (Hkl : 0 <= Z.of_nat k < l) by (apply lookup_lt_Some in Hk; lia).
    destruct (circ_scanPos l idx (Z.of_nat k) Hidx Hkl) as [Hpos Hback].
    rewrite Hjpos.
    apply (Hmin (scanPos l idx (Z.of_nat k)) hk Hpos).
    split; [rewrite Hback, Nat2Z.id; exact Hk|exact Hck].
Qed.

(** ** Counters and admission, continued *)

Section CounterSequences.

Lemma applyOp_value qc op :
  value (applyOp qc op)
  = U32.wrap (value qc + (if isInc op then 1 else -1)).
Proof.
  destruct op; cbn [applyOp isInc QueryCounter.inc QueryCounter.dec fst value].
  - reflexivity.
  - rewrite not32_zero. unfold AddUint32, U32.add, U32.wrap.
    rewrite (mod_shift (value qc + 4294967295) (-1) U32.modulus).
    f_equal. unfold U32.modulus. lia.
Qed.

Lemma applyOps_value ops : forall qc,
  value (applyOps qc ops)
  = (if ops is [] then value qc
     else U32.wrap (value qc + countIf isInc ops
                    - countIf (fun op => negb (isInc op)) ops)).
Proof.
  induction ops as [|op ops IH]; intros qc; [reflexivity|].
  unfold applyOps in *. cbn [foldl countIf]. rewrite IH.
  rewrite applyOp_value. destruct ops as [|op' ops].
  - cbn [countIf]. f_equal. destruct op; cbn [isInc negb]; lia.
  - unfold U32.wrap. rewrite <- Z.add_sub_assoc, Zplus_mod_idemp_l.
    f_equal. destruct op; cbn [isInc negb]; lia.
Qed.

End CounterSequences.

(** X6.  Counter pairing: after any sequence of [inc] and [dec] calls a
    counter holds its first value plus the number of [inc]s minus the
    number of [dec]s, modulo [2^32]; with as many [dec]s as [inc]s, in any
    order, the counter is back at its first value. *)
Theorem queryCounter_pairing (qc : queryCounter) (ops : list counterOp) :
  U32.in_range (value qc) ->
  value (applyOps qc ops)
  = (value qc + countIf isInc ops - countIf (fun op => negb (isInc op)) ops)
    mod 2 ^ 32 /\
  (countIf isInc ops = countIf (fun op => negb (isInc op)) ops ->
   applyOps qc ops = qc).
Proof.
  intros Hv.
  assert (Hval : value (applyOps qc ops)
                 = U32.wrap (value qc + countIf isInc ops
                             - countIf (fun op => negb (isInc op)) ops)).
  { rewrite applyOps_value. destruct ops; [|reflexivity].
    cbn [countIf]. rewrite Z.add_0_r, Z.sub_0_r. symmetry. apply wrap_small, Hv. }
  split; [exact Hval|].
  intros Heq. rewrite Heq in Hval.
  replace (value qc + countIf (fun op => negb (isInc op)) ops
           - countIf (fun op => negb (isInc op)) ops) with (value qc) in Hval by lia.
  rewrite wrap_small in Hval by exact Hv.
  destruct (applyOps qc ops) as [v'], qc as [v]. cbn [value] in Hval. congruence.
Qed.

Section AdmissionState.

Lemma inc_dec_state (s : scope) (h : host) :
  ScopeOps.host_of s = Some h ->
  U32.in_range (UserOps.runningQueries (s_user s)) ->
  U32.in_range (ClusterUserOps.runningQueries (s_clusterUser s)) ->
  U32.in_range (QueryCounter.runningQueries (host_queryCounter h)) ->
  exists s1,
    ScopeOps.dec s1 = (s, Returned tt) /\
    forall s' r, ScopeOps.inc s = (s', Returned r) ->
                 if r is Some _ then s' = s else s' = s1.
Proof.
  destruct s as [i hp [nx hs us kn kp hb] u cu].
  destruct u as [tu tc dh dhs an un up ut um [uv]].
  destruct cu as [cn cp ct cm [cv]].
  destruct h as [pen act ad [hv]].
  unfold ScopeOps.host_of, UserOps.runningQueries, ClusterUserOps.runningQueries,
    QueryCounter.runningQueries.
  cbn [s_cluster s_host s_user s_clusterUser hosts u_queryCounter cu_queryCounter
       host_queryCounter value].
  intros Hh Hu Hc Hhv.
  assert (Hlt : (hp < length hs)%nat) by (eapply lookup_lt_Some; eassumption).
  assert (Hback :
    ScopeOps.dec
      {| id := i; s_host := hp;
         s_cluster := {| nextIdx := nx;
                         hosts := <[hp := {| penalty := pen; active := act; addr := ad;
                                             host_queryCounter :=
                                               {| value := AddUint32 hv 1 |} |}]> hs;
                         users := us; killQueryUserName := kn;
                         killQueryUserPassword := kp; heartBeatInterval := hb |};
         s_user := {| toUser := tu; toCluster := tc; denyHTTP := dh;
                      denyHTTPS := dhs; allowedNetworks := an; u_name := un;
                      u_password := up; u_maxExecutionTime := ut;
                      u_maxConcurrentQueries := um;
                      u_queryCounter := {| value := AddUint32 uv 1 |} |};
         s_clusterUser := {| cu_name := cn; cu_password := cp;
                             cu_maxExecutionTime := ct;
                             cu_maxConcurrentQueries := cm;
                             cu_queryCounter := {| value := AddUint32 cv 1 |} |} |}
    = ({| id := i; s_host := hp;
          s_cluster := {| nextIdx := nx; hosts := hs; users := us;
                          killQueryUserName := kn; killQueryUserPassword := kp;
                          heartBeatInterval := hb |};
          s_user := {| toUser := tu; toCluster := tc; denyHTTP := dh;
                       denyHTTPS := dhs; allowedNetworks := an; u_name := un;
                       u_password := up; u_maxExecutionTime := ut;
                       u_maxConcurrentQueries := um;
                       u_queryCounter := {| value := uv |} |};
          s_clusterUser := {| cu_name := cn; cu_password := cp;
                              cu_maxExecutionTime := ct;
                              cu_maxConcurrentQueries := cm;
                              cu_queryCounter := {| value := cv |} |} |},
       Returned tt)).
  { unfold ScopeOps.dec, ScopeOps.host_of.
    cbn -[AddUint32 U32.not].
    rewrite list_lookup_insert_eq by exact Hlt.
    unfold ScopeOps.set_host, ScopeOps.set_clusterUser, ScopeOps.set_user,
      UserOps.dec, ClusterUserOps.dec, HostOps.dec, QueryCounter.dec,
      UserOps.set_counter, ClusterUserOps.set_counter.
    cbn -[AddUint32 U32.not].
    rewrite list_insert_insert_same.
    rewrite !inc_then_dec by assumption.
    rewrite (list_insert_id hs hp _ Hh). reflexivity. }
  eexists. split; [exact Hback|].
  intros s' r. unfold ScopeOps.inc.
  cbn -[AddUint32 Z.ltb U32.not ScopeOps.dec].
  rewrite Hh.
  cbn -[AddUint32 Z.ltb U32.not ScopeOps.dec].
  destruct ((0 <? cm) && (cm <? AddUint32 cv 1));
    destruct ((0 <? um) && (um <? AddUint32 uv 1));
    cbn -[AddUint32 Z.ltb U32.not ScopeOps.dec];
    unfold ScopeOps.set_host, ScopeOps.set_clusterUser, ScopeOps.set_user,
      UserOps.set_counter, ClusterUserOps.set_counter;
    cbn -[AddUint32 Z.ltb U32.not ScopeOps.dec];
    rewrite ?Hback; intros [= <- <-]; reflexivity.
Qed.

End AdmissionState.

(** X7.  A refused admission changes nothing: after [inc] has returned
    an error the scope, with its user, cluster user and cluster, is in the
    state it had before the call. *)
Theorem inc_refused_restores_state (s s' : scope) (h : host) (e : error) :
  ScopeOps.host_of s = Some h ->
  U32.in_range (UserOps.runningQueries (s_user s)) ->
  U32.in_range (ClusterUserOps.runningQueries (s_clusterUser s)) ->
  U32.in_range (QueryCounter.runningQueries (host_queryCounter h)) ->
  ScopeOps.inc s = (s', Returned (Some e)) ->
  s' = s.
Proof.
  intros Hh Hu Hc Hhv Hinc.
  destruct (inc_dec_state s h Hh Hu Hc Hhv) as (s1 & _ & Hcases).
  exact (Hcases s' (Some e) Hinc).
Qed.

(** X8.  Admission and release pair up: [dec] after a successful [inc]
    brings the scope, with its user, cluster user and cluster, back to the
    state before the [inc]. *)
Theorem inc_then_dec_restores_state (s s' : scope) (h : host) :
  ScopeOps.host_of s = Some h ->
  U32.in_range (UserOps.runningQueries (s_user s)) ->
  U32.in_range (ClusterUserOps.runningQueries (s_clusterUser s)) ->
  U32.in_range (QueryCounter.runningQueries (host_queryCounter h)) ->
  ScopeOps.inc s = (s', Returned None) ->
  ScopeOps.dec s' = (s, Returned tt).
Proof.
  intros Hh Hu Hc Hhv Hinc.
  destruct (inc_dec_state s h Hh Hu Hc Hhv) as (s1 & Hdec & Hcases).
  rewrite (Hcases s' None Hinc). exact Hdec.
Qed.

(** X9.  Which error [inc] returns: the cluster user's limit error
    whenever the cluster user's limit is exceeded, also when the proxy
    user's limit is exceeded too; the proxy user's limit error only when
    its limit alone is exceeded; each error carries the name and the limit
    of the user it is about. *)
Theorem inc_error_precedence (s : scope) (h : host) :
  ScopeOps.host_of s = Some h ->
  (0 < cu_maxConcurrentQueries (s_clusterUser s)
   < AddUint32 (ClusterUserOps.runningQueries (s_clusterUser s)) 1 ->
   snd (ScopeOps.inc s)
   = Returned (Some (ErrClusterUserLimit (cu_name (s_clusterUser s))
                       (cu_maxConcurrentQueries (s_clusterUser s))))) /\
  (~ (0 < cu_maxConcurrentQueries (s_clusterUser s)
      < AddUint32 (ClusterUserOps.runningQueries (s_clusterUser s)) 1) ->
   0 < u_maxConcurrentQueries (s_user s)
   < AddUint32 (UserOps.runningQueries (s_user s)) 1 ->
   snd (ScopeOps.inc s)
   = Returned (Some (ErrUserLimit (u_name (s_user s))
                       (u_maxConcurrentQueries (s_user s))))).
Proof.
  intros Hh.
  destruct (inc_unfold s h Hh) as (s1 & _ & _ & Hinc). rewrite Hinc.
  set (bc := (0 <? cu_maxConcurrentQueries (s_clusterUser s))
             && (cu_maxConcurrentQueries (s_clusterUser s)
                 <? AddUint32 (ClusterUserOps.runningQueries (s_clusterUser s)) 1)).
  set (bu := (0 <? u_maxConcurrentQueries (s_user s))
             && (u_maxConcurrentQueries (s_user s)
                 <? AddUint32 (UserOps.runningQueries (s_user s)) 1)).
  assert (Hbc : bc = true <->
                0 < cu_maxConcurrentQueries (s_clusterUser s)
                < AddUint32 (ClusterUserOps.runningQueries (s_clusterUser s)) 1)
    by (unfold bc; rewrite andb_true_iff, !Z.ltb_lt; reflexivity).
  assert (Hbu : bu = true <->
                0 < u_maxConcurrentQueries (s_user s)
                < AddUint32 (UserOps.runningQueries (s_user s)) 1)
    by (unfold bu; rewrite andb_true_iff, !Z.ltb_lt; reflexivity).
  split.
  - intros Hc. apply Hbc in Hc. rewrite Hc. reflexivity.
  - intros Hnc Hu. apply Hbu in Hu. rewrite Hu.
    destruct bc; [exfalso; apply Hnc, Hbc; reflexivity|reflexivity].
Qed.


(** ** Scope construction *)

Section NewScope.

Lemma getHost_active_result (c c' : cluster) (j : nat) :
  ClusterOps.getHost c = (c', Returned (Some j)) ->
  c' = ClusterOps.set_nextIdx c (AddUint32 (nextIdx c) 1) /\
  exists h, hosts c !! j = Some h /\ HostOps.isActive h = true.
Proof.
  unfold ClusterOps.getHost, ClusterOps.getHost_fuel. intros H.
  destruct (U32.of_len (length (hosts c)) =? 0); [congruence|].
  destruct (hosts c !! Z.to_nat _) as [idle|] eqn:Hl; [|congruence].
  destruct ((HostOps.runningQueries idle =? 0) && HostOps.isActive idle) eqn:Hfast.
  - injection H as <- <-. split; [reflexivity|].
    apply andb_true_iff in Hfast as [_ Ha]. eauto.
  - injection H as <- H. split; [reflexivity|].
    eapply getHost_loop_active; eassumption.
Qed.

Lemma getHost_cursor (c : cluster) :
  fst (ClusterOps.getHost c) = ClusterOps.set_nextIdx c (AddUint32 (nextIdx c) 1).
Proof.
  unfold ClusterOps.getHost, ClusterOps.getHost_fuel.
  destruct (U32.of_len (length (hosts c)) =? 0); [reflexivity|].
  destruct (hosts c !! Z.to_nat _) as [idle|]; [|reflexivity].
  destruct ((HostOps.runningQueries idle =? 0) && HostOps.isActive idle);
    reflexivity.
Qed.

Lemma wrap_inj a k1 k2 :
  0 <= k1 < U32.modulus -> 0 <= k2 < U32.modulus ->
  U32.wrap (a + k1) = U32.wrap (a + k2) -> k1 = k2.
Proof.
  unfold U32.wrap. intros H1 H2 Heq.
  assert (Hd : (k1 - k2) mod U32.modulus = 0).
  { replace (k1 - k2) with ((a + k1) - (a + k2)) by ring.
    rewrite Zminus_mod, Heq, Z.sub_diag. reflexivity. }
  apply Z.mod_divide in Hd; [|unfold U32.modulus; lia].
  destruct Hd as [q Hq]. unfold U32.modulus in *. nia.
Qed.

Lemma scopeIds_length rs : (length (scopeIds rs) <= length rs)%nat.
Proof.
  unfold scopeIds. induction rs as [|r rs IH]; cbn; [lia|].
  destruct r as [[s|e]| |]; cbn; lia.
Qed.

Lemma newScopes_length n : forall scopeID u cu c,
  length (snd (newScopes n scopeID u cu c)) = n.
Proof.
  induction n as [|n IH]; intros scopeID u cu c; [reflexivity|].
  cbn [newScopes].
  destruct (ScopeOps.newScope scopeID u cu c) as [[i1 c1] r].
  specialize (IH i1 u cu c1).
  destruct (newScopes n i1 u cu c1) as [[i2 c2] rs].
  cbn [snd length] in *. lia.
Qed.

Lemma scopeIds_scope s rs : scopeIds (Returned (inl s) :: rs) = id s :: scopeIds rs.
Proof. reflexivity. Qed.

Lemma newScopes_ids_closed n : forall scopeID u cu c,
  scopeIds (snd (newScopes n scopeID u cu c))
  = (fun k => U32.wrap (scopeID + Z.of_nat k))
      <$> seq 1 (length (scopeIds (snd (newScopes n scopeID u cu c)))).
Proof.
  induction n as [|n IH]; intros scopeID u cu c; [reflexivity|].
  cbn [newScopes].
  destruct (ScopeOps.newScope scopeID u cu c) as [[i1 c1] r] eqn:Hnew.
  specialize (IH i1 u cu c1).
  destruct (newScopes n i1 u cu c1) as [[i2 c2] rs].
  cbn [snd] in *.
  unfold ScopeOps.newScope in Hnew.
  destruct (ClusterOps.getHost c) as [c' [[j|]| |]];
    injection Hnew as <- <- <-; try exact IH.
  rewrite scopeIds_scope. cbn [id length seq]. rewrite fmap_cons.
  apply (f_equal2 (@cons Z)); [reflexivity|].
  rewrite <- fmap_S_seq, <- list_fmap_compose.
  rewrite IH at 1. apply list_fmap_ext. intros _ k _. cbn.
  unfold AddUint32, U32.add, U32.wrap. rewrite Zplus_mod_idemp_l.
  f_equal. lia.
Qed.

End NewScope.

(** X11.  What [newScope] returns.  A scope is returned for a host that
    [getHost] found active; its identifier is the process counter plus
    one modulo [2^32], which is also the counter's new value; it refers to
    the user and cluster user passed in and to the cluster with the cursor
    advanced by one.  The only error is "no active hosts", and it leaves
    the process counter as it was. *)
Theorem newScope_result (scopeID : Z) (u : user) (cu : clusterUser) (c : cluster) :
  (forall s,
     snd (ScopeOps.newScope scopeID u cu c) = Returned (inl s) ->
     id s = AddUint32 scopeID 1 /\
     fst (fst (ScopeOps.newScope scopeID u cu c)) = id s /\
     s_user s = u /\ s_clusterUser s = cu /\
     s_cluster s = ClusterOps.set_nextIdx c (AddUint32 (nextIdx c) 1) /\
     exists h, ScopeOps.host_of s = Some h /\ HostOps.isActive h = true) /\
  (forall e,
     snd (ScopeOps.newScope scopeID u cu c) = Returned (inr e) ->
     e = ErrNoActiveHosts /\
     snd (ClusterOps.getHost c) = Returned None /\
     fst (fst (ScopeOps.newScope scopeID u cu c)) = scopeID).
Proof.
  unfold ScopeOps.newScope.
  destruct (ClusterOps.getHost c) as [c' [[j|]| |]] eqn:Hget; cbn [fst snd].
  - apply getHost_active_result in Hget as [-> (h & Hh & Ha)].
    split; [|discriminate].
    intros s [= <-]. cbn [id s_user s_clusterUser s_cluster].
    do 5 (split; [reflexivity|]).
    exists h. split; [exact Hh|exact Ha].
  - split; [discriminate|]. intros e [= <-]. repeat split.
  - split; discriminate.
  - split; discriminate.
Qed.

(** X12.  Scope identifiers are fresh: among fewer than [2^32] calls of
    [newScope] in a row, the scopes returned carry the identifiers
    [scopeID + 1], [scopeID + 2], ... modulo [2^32] in call order, a failed
    call consuming none, and no two of them are equal. *)
Theorem newScopes_ids_distinct (n : nat) (scopeID : Z) (u : user)
    (cu : clusterUser) (c : cluster) :
  Z.of_nat n < U32.modulus ->
  scopeIds (snd (newScopes n scopeID u cu c))
  = (fun k => U32.wrap (scopeID + Z.of_nat k))
      <$> seq 1 (length (scopeIds (snd (newScopes n scopeID u cu c)))) /\
  NoDup (scopeIds (snd (newScopes n scopeID u cu c))).
Proof.
  intros Hn. split; [apply newScopes_ids_closed|].
  rewrite newScopes_ids_closed.
  pose proof (scopeIds_length (snd (newScopes n scopeID u cu c))) as Hlen.
  rewrite newScopes_length in Hlen.
  set (m := length (scopeIds (snd (newScopes n scopeID u cu c)))) in *.
  apply NoDup_fmap_2_strong; [|apply NoDup_seq].
  intros k1 k2 Hk1 Hk2 Heq.
  apply elem_of_seq in Hk1, Hk2.
  apply wrap_inj in Heq; lia.
Qed.

(** ** Cancellation, continued *)

(** X13.  When [killQuery] succeeds: exactly when the cluster has no
    cancellation user, or the request could be created, the client
    delivered a response to it, and that response has status 200. *)
Theorem killQuery_success_iff
    (url_Parse : string -> URL + string) (URL_String : URL -> string)
    (http_Do : Request -> Response + string) (s : scope) (h : host) :
  ScopeOps.host_of s = Some h ->
  snd (ScopeOps.killQuery url_Parse URL_String http_Do s) = Returned None
  <-> killQueryUserName (s_cluster s) = ""
      \/ exists req resp,
           Http.NewRequest url_Parse "POST" (URL_String (addr h))
             (ScopeOps.killQueryText (id s)) = inl req /\
           http_Do (Http.SetBasicAuth
                      (Http.WithTimeout req ScopeOps.killQueryTimeout)
                      (killQueryUserName (s_cluster s))
                      (killQueryUserPassword (s_cluster s))) = inl resp /\
           StatusCode resp = 200.
Proof.
  intros Hh. unfold ScopeOps.killQuery.
  destruct (killQueryUserName (s_cluster s)) as [|c name] eqn:Hn.
  - cbn [String.length Nat.eqb snd]. split; [intros _; left; reflexivity|reflexivity].
  - cbn [String.length Nat.eqb]. rewrite Hh.
    destruct (Http.NewRequest _ _ _ _) as [req|err] eqn:Hreq; cbn [snd].
    + destruct (http_Do _) as [resp|err] eqn:Hdo; cbn [snd].
      * unfold StatusOK.
        destruct (Z.eqb_spec (StatusCode resp) 200) as [Heq|Hne]; cbn [negb snd].
        -- split; [intros _; right; exists req, resp; repeat split; assumption|reflexivity].
        -- split; [discriminate|].
           intros [Hc|(req' & resp' & [= <-] & Hdo' & Hst)]; [discriminate|].
           rewrite Hdo in Hdo'. injection Hdo' as <-. contradiction.
      * split; [discriminate|].
        intros [Hc|(req' & resp' & [= <-] & Hdo' & Hst)]; [discriminate|].
        rewrite Hdo in Hdo'. discriminate.
    + split; [discriminate|].
      intros [Hc|(req' & resp' & Hc & _)]; discriminate.
Qed.

(** X14.  How [killQuery] fails short of a response, and what it sends.
    If the request cannot be created, the error names the address and the
    cause and nothing is handed to the client; if the client fails, the
    error names the query, the address and the cause, after exactly one
    request.  In no case is more than one request handed to the client,
    and with a host the call does not panic. *)
Theorem killQuery_failures
    (url_Parse : string -> URL + string) (URL_String : URL -> string)
    (http_Do : Request -> Response + string) (s : scope) (h : host) :
  ScopeOps.host_of s = Some h ->
  (forall cause,
     killQueryUserName (s_cluster s) <> "" ->
     url_Parse (URL_String (addr h)) = inr cause ->
     ScopeOps.killQuery url_Parse URL_String http_Do s
     = ([], Returned (Some (ErrCreateRequest (URL_String (addr h)) cause)))) /\
  (forall cause,
     killQueryUserName (s_cluster s) <> "" ->
     (forall req, http_Do req = inr cause) ->
     forall u, url_Parse (URL_String (addr h)) = inl u ->
     exists req,
       ScopeOps.killQuery url_Parse URL_String http_Do s
       = ([req], Returned (Some (ErrExecute (ScopeOps.killQueryText (id s))
                                   (URL_String (addr h)) cause)))) /\
  (length (fst (ScopeOps.killQuery url_Parse URL_String http_Do s)) <= 1)%nat /\
  snd (ScopeOps.killQuery url_Parse URL_String http_Do s) <> Panicked.
Proof.
  intros Hh. unfold ScopeOps.killQuery, Http.NewRequest.
  destruct (killQueryUserName (s_cluster s)) as [|c name] eqn:Hn.
  - cbn [String.length Nat.eqb fst snd length].
    split; [intros cause Hc; congruence|].
    split; [intros cause Hc; congruence|].
    split; [lia|discriminate].
  - cbn [String.length Nat.eqb]. rewrite Hh.
    split; [intros cause _ Hparse; rewrite Hparse; reflexivity|].
    split.
    + intros cause _ Hdo u Hparse. rewrite Hparse, Hdo. eexists. reflexivity.
    + destruct (url_Parse _) as [u|err]; cbn [fst snd length].
      * destruct (http_Do _) as [resp|err]; cbn [fst snd length].
        -- destruct (negb _); cbn [fst snd length]; (split; [lia|discriminate]).
        -- split; [lia|discriminate].
      * split; [lia|discriminate].
Qed.

(** ** Request rewriting, continued *)

Section DecorateMore.

Import NetUrl.

Lemma escape_digits d :
  QueryEscape (NilEmpty.string_of_uint d) = NilEmpty.string_of_uint d.
Proof.
  induction d as [|d IH|d IH|d IH|d IH|d IH|d IH|d IH|d IH|d IH|d IH];
    cbn [NilEmpty.string_of_uint]; [reflexivity|..];
    (etransitivity; [|apply (f_equal (String _)); exact IH]); reflexivity.
Qed.

Lemma escape_uint d :
  QueryEscape (NilZero.string_of_uint d) = NilZero.string_of_uint d.
Proof. destruct d; try reflexivity; apply escape_digits. Qed.

Lemma QueryEscape_Itoa z : QueryEscape (Itoa z) = Itoa z.
Proof.
  unfold Itoa. destruct (Z.to_int z) as [d|d]; cbn [NilZero.string_of_int].
  - apply escape_uint.
  - etransitivity; [|apply (f_equal (String _)); apply escape_uint]. reflexivity.
Qed.

Lemma length_append a b :
  String.length (a +:+ b) = (String.length a + String.length b)%nat.
Proof.
  induction a as [|x a IH]; [reflexivity|].
  change (S (String.length (a +:+ b)) = S (String.length a + String.length b)).
  rewrite IH. reflexivity.
Qed.

(** The parameters of a decorated request, read back from its URL. *)
Lemma decorateParams_parsed s req :
  ParseQuery (Encode (ScopeOps.decorateParams s req)) = ScopeOps.decorateParams s req.
Proof.
  unfold ScopeOps.decorateParams, Set_, int_of_uint32.
  destruct (Get (Query (req_URL req)) "query") as [|c q];
    cbn [String.length Nat.ltb Nat.leb]; rewrite insert_empty.
  - apply ParseQuery_Encode_query_id.
  - apply ParseQuery_Encode_query_and_id.
Qed.

Lemma decorateParams_query s req :
  Get (ScopeOps.decorateParams s req) "query" = Get (Query (req_URL req)) "query".
Proof.
  unfold ScopeOps.decorateParams, Set_, Get at 1.
  destruct (Get (Query (req_URL req)) "query") as [|c q];
    cbn [String.length Nat.ltb Nat.leb].
  - rewrite lookup_insert_ne by discriminate. rewrite lookup_empty. reflexivity.
  - rewrite lookup_insert_eq. reflexivity.
Qed.

Lemma decorateParams_ext s r r' :
  Get (Query (req_URL r)) "query" = Get (Query (req_URL r')) "query" ->
  ScopeOps.decorateParams s r = ScopeOps.decorateParams s r'.
Proof. unfold ScopeOps.decorateParams. intros ->. reflexivity. Qed.

Lemma decorateRequest_unfold s req h :
  ScopeOps.host_of s = Some h ->
  ScopeOps.decorateRequest s req
  = Returned
      {| Method := Method req;
         req_URL := {| Scheme := Scheme (addr h); Host := Host (addr h);
                       Path := Path (req_URL req);
                       RawQuery := Encode (ScopeOps.decorateParams s req) |};
         Header :=
           <["User-Agent" :=
               ["RemoteAddr: " +:+ RemoteAddr req +:+ "; LocalAddr: "
                +:+ default "unknown" (ctx_LocalAddr req)
                +:+ "; CHProxy-User: " +:+ u_name (s_user s)
                +:+ "; CHProxy-ClusterUser: " +:+ cu_name (s_clusterUser s)
                +:+ "; " +:+ Http.UserAgent req]]>
             (<["Authorization" :=
                  [Http.basicAuth (cu_name (s_clusterUser s))
                     (cu_password (s_clusterUser s))]]> (Header req));
         Body := Body req; RemoteAddr := RemoteAddr req;
         ctx_LocalAddr := ctx_LocalAddr req; ctx_Timeout := ctx_Timeout req |}.
Proof.
  intros Hh. unfold ScopeOps.decorateRequest. rewrite Hh.
  unfold Http.UserAgent, Http.Header_Get, Http.SetBasicAuth, Http.set_Header,
    Http.set_URL, Http.Header_Set, set_Scheme_Host, set_RawQuery.
  cbn [Method req_URL Header Body RemoteAddr ctx_LocalAddr ctx_Timeout
       Scheme Host Path RawQuery].
  rewrite lookup_insert_ne by discriminate.
  destruct (ctx_LocalAddr req); reflexivity.
Qed.

End DecorateMore.

(** X15.  Decorating twice: the URL and the Authorization header of a
    request decorated twice by the same scope are those of the request
    decorated once; the User-Agent header is not, the second decoration
    wraps the first. *)
Theorem decorateRequest_twice (s : scope) (req : Request) (h : host) :
  ScopeOps.host_of s = Some h ->
  exists r1 r2,
    ScopeOps.decorateRequest s req = Returned r1 /\
    ScopeOps.decorateRequest s r1 = Returned r2 /\
    req_URL r2 = req_URL r1 /\
    Header r2 !! "Authorization" = Header r1 !! "Authorization" /\
    Http.UserAgent r2
    = "RemoteAddr: " +:+ RemoteAddr req +:+ "; LocalAddr: "
      +:+ default "unknown" (ctx_LocalAddr req)
      +:+ "; CHProxy-User: " +:+ u_name (s_user s)
      +:+ "; CHProxy-ClusterUser: " +:+ cu_name (s_clusterUser s)
      +:+ "; " +:+ Http.UserAgent r1 /\
    Http.UserAgent r2 <> Http.UserAgent r1.
Proof.
  intros Hh.
  eexists. eexists.
  split; [apply (decorateRequest_unfold s req h Hh)|].
  split; [apply (decorateRequest_unfold s _ h Hh)|].
  cbn [req_URL Header Path RemoteAddr ctx_LocalAddr].
  split; [|split; [|split]].
  - f_equal. f_equal. apply decorateParams_ext.
    unfold NetUrl.Query at 1. cbn [req_URL RawQuery].
    rewrite decorateParams_parsed. apply decorateParams_query.
  - rewrite !(lookup_insert_ne _ "User-Agent" "Authorization") by discriminate.
    rewrite !lookup_insert_eq. reflexivity.
  - unfold Http.UserAgent at 1, Http.Header_Get. cbn [Header].
    rewrite lookup_insert_eq. reflexivity.
  - unfold Http.UserAgent at 1, Http.Header_Get. cbn [Header].
    rewrite lookup_insert_eq.
    intros Heq. apply (f_equal String.length) in Heq.
    rewrite !length_append in Heq. cbn [String.length] in Heq. lia.
Qed.

(** X16.  The query string on the wire: [query_id=<id>] with the scope
    identifier in decimal, preceded by [query=<escaped query>&] when the
    first [query] value of the inbound URL is not empty; the escaped query
    holds no [&], [=] or [;]. *)
Theorem decorateRequest_raw_query (s : scope) (req : Request) (h : host) :
  ScopeOps.host_of s = Some h ->
  exists r1,
    ScopeOps.decorateRequest s req = Returned r1 /\
    RawQuery (req_URL r1)
    = (if String.eqb (NetUrl.Get (NetUrl.Query (req_URL req)) "query") ""
       then "query_id=" +:+ Itoa (id s)
       else "query="
            +:+ NetUrl.QueryEscape (NetUrl.Get (NetUrl.Query (req_URL req)) "query")
            +:+ "&query_id=" +:+ Itoa (id s)) /\
    NetUrl.contains "&"
      (NetUrl.QueryEscape (NetUrl.Get (NetUrl.Query (req_URL req)) "query")) = false /\
    NetUrl.contains "="
      (NetUrl.QueryEscape (NetUrl.Get (NetUrl.Query (req_URL req)) "query")) = false /\
    NetUrl.contains ";"
      (NetUrl.QueryEscape (NetUrl.Get (NetUrl.Query (req_URL req)) "query")) = false.
Proof.
  intros Hh. eexists.
  split; [apply (decorateRequest_unfold s req h Hh)|].
  cbn [req_URL RawQuery].
  split; [|split; [apply escape_no_amp|split; [apply escape_no_equals|apply escape_no_semicolon]]].
  unfold ScopeOps.decorateParams, NetUrl.Set_, int_of_uint32.
  destruct (NetUrl.Get (NetUrl.Query (req_URL req)) "query") as [|c q];
    cbn [String.length Nat.ltb Nat.leb String.eqb]; rewrite insert_empty.
  - rewrite Encode_query_id, QueryEscape_Itoa. reflexivity.
  - rewrite Encode_query_and_id, QueryEscape_Itoa, !append_assoc. reflexivity.
Qed.

(** X17.  What [decorateRequest] rewrites and what it keeps.  The
    scheme and host of the URL become those of the scope's host; the
    Authorization header, whatever it held, becomes the single Basic value
    of the cluster user's name and password; the User-Agent header
    becomes the line made of the remote address, the local address (or
    [unknown]), the two user names and the previous User-Agent.  The
    method, the body, the path, the remote address, the context and every
    other header are kept. *)
Theorem decorateRequest_rewrites (s : scope) (req : Request) (h : host) :
  ScopeOps.host_of s = Some h ->
  exists r1,
    ScopeOps.decorateRequest s req = Returned r1 /\
    Scheme (req_URL r1) = Scheme (addr h) /\
    Host (req_URL r1) = Host (addr h) /\
    Header r1 !! "Authorization"
    = Some ["Basic " +:+ Base64.EncodeToString
              (cu_name (s_clusterUser s) +:+ ":" +:+ cu_password (s_clusterUser s))] /\
    Header r1 !! "User-Agent"
    = Some ["RemoteAddr: " +:+ RemoteAddr req +:+ "; LocalAddr: "
            +:+ default "unknown" (ctx_LocalAddr req)
            +:+ "; CHProxy-User: " +:+ u_name (s_user s)
            +:+ "; CHProxy-ClusterUser: " +:+ cu_name (s_clusterUser s)
            +:+ "; " +:+ Http.UserAgent req] /\
    (forall key, key <> "Authorization" -> key <> "User-Agent" ->
                 Header r1 !! key = Header req !! key) /\
    Method r1 = Method req /\ Body r1 = Body req /\
    Path (req_URL r1) = Path (req_URL req) /\
    RemoteAddr r1 = RemoteAddr req /\
    ctx_LocalAddr r1 = ctx_LocalAddr req /\ ctx_Timeout r1 = ctx_Timeout req.
Proof.
  intros Hh. eexists.
  split; [apply (decorateRequest_unfold s req h Hh)|].
  cbn [req_URL Header Method Body RemoteAddr ctx_LocalAddr ctx_Timeout
       Scheme Host Path].
  do 2 (split; [reflexivity|]).
  split; [rewrite lookup_insert_ne by discriminate; apply lookup_insert_eq|].
  split; [apply lookup_insert_eq|].
  split; [|repeat split].
  intros key Hk1 Hk2. rewrite !lookup_insert_ne by congruence. reflexivity.
Qed.

(** X18.  The identifier a request is tagged with is the one its
    cancellation names: the [query_id] parameter of the decorated URL and
    the [query_id] of the [KILL QUERY] text sent for the same scope are
    the same decimal text. *)
Theorem killQuery_names_decorated_id
    (url_Parse : string -> URL + string) (URL_String : URL -> string)
    (http_Do : Request -> Response + string)
    (s : scope) (req : Request) (h : host) (u : URL) :
  ScopeOps.host_of s = Some h ->
  killQueryUserName (s_cluster s) <> "" ->
  url_Parse (URL_String (addr h)) = inl u ->
  exists r1 kreq text,
    ScopeOps.decorateRequest s req = Returned r1 /\
    NetUrl.Query (req_URL r1) !! "query_id" = Some [text] /\
    fst (ScopeOps.killQuery url_Parse URL_String http_Do s) = [kreq] /\
    Body kreq = "KILL QUERY WHERE query_id = '" +:+ text +:+ "'".
Proof.
  intros Hh Hname Hparse.
  eexists.
  exists (Http.SetBasicAuth
            (Http.WithTimeout
               {| Method := "POST"; req_URL := u; Header := ∅;
                  Body := ScopeOps.killQueryText (id s); RemoteAddr := "";
                  ctx_LocalAddr := None; ctx_Timeout := None |}
               ScopeOps.killQueryTimeout)
            (killQueryUserName (s_cluster s))
            (killQueryUserPassword (s_cluster s))).
  exists (Itoa (id s)).
  split; [apply (decorateRequest_unfold s req h Hh)|].
  split.
  - unfold NetUrl.Query. cbn [req_URL RawQuery].
    rewrite decorateParams_parsed.
    unfold ScopeOps.decorateParams, NetUrl.Set_, int_of_uint32.
    destruct (0 <? String.length _)%nat.
    + rewrite lookup_insert_ne by discriminate. apply lookup_insert_eq.
    + apply lookup_insert_eq.
  - unfold ScopeOps.killQuery.
    assert (Hlen : (String.length (killQueryUserName (s_cluster s)) =? 0)%nat = false)
      by (destruct (killQueryUserName (s_cluster s)); [congruence|reflexivity]).
    rewrite Hlen, Hh.
    unfold Http.NewRequest. rewrite Hparse.
    assert (Hone : forall (x : Request) r,
              fst (match http_Do x with
                   | inl resp =>
                       if negb (StatusCode resp =? StatusOK)
                       then ([x], Returned (Some
                               (ErrUnexpectedStatus (ScopeOps.killQueryText (id s))
                                  (URL_String (addr h)) (StatusCode resp)
                                  (resp_Body resp))))
                       else ([x], Returned None)
                   | inr err => ([x], r err)
                   end) = [x]).
    { intros x r. destruct (http_Do x) as [resp|err]; [|reflexivity].
      destruct (negb _); reflexivity. }
    split; [apply (Hone _ (fun err => Returned (Some (ErrExecute _ _ err))))|].
    reflexivity.
Qed.

(** ** Penalties, continued *)

Section PenaltyMore.

Import Penalty.

(** The counts behind a run: calls that added, decays that fired. *)
Lemma run_accounting es : forall w w',
  inv w -> run w es = Some w' ->
  pw_hostPenalties w' = pw_hostPenalties w + countIf isAdd es /\
  penalty (pw_host w')
  = penalty (pw_host w) + 5 * countIf isAdd es - 5 * countIf isFire es.
Proof.
  induction es as [|e es IH]; intros w w' Hinv; cbn [run countIf].
  - intros [= <-]. lia.
  - destruct (step w e) as [w1|] eqn:Hs; [|discriminate]. intros Hrun.
    pose proof (inv_step w e w1 Hinv Hs) as Hinv1.
    destruct (IH w1 w' Hinv1 Hrun) as [Hm Hp]. rewrite Hm, Hp.
    destruct e as [| | |d|k]; cbn [step isAdd isFire] in *.
    + destruct (pw_call w); [discriminate|]. injection Hs as <-.
      unfold load. destruct (penaltyMaxSize <=? _); cbn; lia.
    + destruct (pw_call w) as [[p|]|] eqn:Hc; try discriminate.
      injection Hs as <-.
      destruct (inv_add w p Hc Hinv) as [Hadd _]. rewrite Hadd.
      cbn [add pw_hostPenalties]. lia.
    + destruct (pw_call w) as [[p|]|]; try discriminate.
      injection Hs as <-. cbn. lia.
    + destruct (0 <=? d); [|discriminate]. injection Hs as <-. cbn. lia.
    + destruct (pw_timers w !! k) as [due|] eqn:Hk; [|discriminate].
      destruct (due <=? pw_now w); [|discriminate]. injection Hs as <-.
      destruct (inv_fire w k due Hinv Hk) as [Hdec _].
      cbn [pw_host pw_hostPenalties]. rewrite Hdec. lia.
Qed.

End PenaltyMore.

(** X19.  The decays in flight are bounded: at any moment at most 60
    timers are pending, and the penalty is 5 for each pending timer, plus 5
    for a call that has added its penalty and not yet set its timer. *)
Theorem penalty_pending_timers_bounded (h : host) (t0 : Z)
    (es : list penaltyEvent) (w : penaltyWorld) :
  penalty h = 0 ->
  Penalty.run (Penalty.start h t0) es = Some w ->
  (length (pw_timers w) <= 60)%nat /\
  penalty (pw_host w)
  = 5 * (Z.of_nat (length (pw_timers w))
         + (if pw_call w is Some Added then 1 else 0)).
Proof.
  intros Hp Hrun.
  assert (Hinv : Penalty.inv w)
    by (eapply inv_run; [apply inv_start; exact Hp|exact Hrun]).
  unfold Penalty.inv, penaltySize, penaltyMaxSize in Hinv.
  destruct (pw_call w) as [[p|]|]; lia.
Qed.

(** X20.  Accounting: the metric [hostPenalties] counts the calls that
    added a penalty, and the penalty is 5 times the number of those calls
    minus the number of decays that have fired. *)
Theorem penalty_accounting (h : host) (t0 : Z)
    (es : list penaltyEvent) (w : penaltyWorld) :
  penalty h = 0 ->
  Penalty.run (Penalty.start h t0) es = Some w ->
  pw_hostPenalties w = countIf isAdd es /\
  penalty (pw_host w) = 5 * (countIf isAdd es - countIf isFire es).
Proof.
  intros Hp Hrun.
  destruct (run_accounting es _ w (inv_start h t0 Hp) Hrun) as [Hm Hpen].
  cbn [Penalty.start pw_hostPenalties pw_host] in Hm, Hpen.
  rewrite Hp in Hpen. lia.
Qed.

(** X21.  Ten seconds of quiescence are enough, whatever the calls
    before, overlapping or not: from a host with penalty 0, every
    pending decay is due within [penaltyDuration] of the current instant,
    so once no call is in progress and at least 10 seconds pass, all
    pending decays can fire, and after them the penalty is 0. *)
Theorem penalty_zero_after_duration (h : host) (t0 : Z)
    (es : list overlapEvent) (w : overlapWorld) (d : Z) :
  penalty h = 0 ->
  Overlap.run (Overlap.start h t0) es = Some w ->
  ow_calls w = [] ->
  10 * 1000000000 <= d ->
  Forall (fun due => due <= ow_now w + 10 * 1000000000) (ow_timers w) /\
  exists w',
    Overlap.run w (Passes d :: replicate (length (ow_timers w)) (Fires 0))
    = Some w' /\
    ow_now w' = ow_now w + d /\ ow_timers w' = [] /\ ow_calls w' = [] /\
    penalty (ow_host w') = 0.
Proof.
  intros Hp Hrun Hc Hd.
  assert (Hinv : Overlap.inv w)
    by (eapply overlap_inv_run; [apply overlap_inv_start; exact Hp|exact Hrun]).
  assert (Hdue : Overlap.dueSoon w).
  { eapply overlap_dueSoon_run; [|exact Hrun]. unfold Overlap.dueSoon. cbn. constructor. }
  unfold Overlap.dueSoon, penaltyDuration in Hdue.
  split; [exact Hdue|].
  destruct (overlap_drain w d) as (w' & Hs & Hnow & Ht & Hc'); [lia| |].
  { eapply Forall_impl; [exact Hdue|]. cbn. intros. lia. }
  exists w'. split; [exact Hs|]. split; [exact Hnow|]. split; [exact Ht|].
  split; [congruence|].
  apply overlap_inv_idle; [|congruence|exact Ht].
  eapply overlap_inv_run; [exact Hinv|exact Hs].
Qed.

(** ** Heartbeat *)

(** X22.  After the health checks of [runHeartbeat] a host is active
    exactly when the latest check succeeded; the checks leave the
    penalty, the counter and the address alone, and with them the load
    that host selection reads. *)
Theorem runHeartbeat_latest (first : bool) (ticks : list bool) (h : host) :
  HostOps.isActive (runHeartbeat first ticks h) = List.last ticks first /\
  HostOps.runningQueries (runHeartbeat first ticks h) = HostOps.runningQueries h /\
  penalty (runHeartbeat first ticks h) = penalty h /\
  addr (runHeartbeat first ticks h) = addr h.
Proof.
  unfold runHeartbeat. revert first h.
  induction ticks as [|t ticks IH]; intros first h.
  - cbn [foldl List.last]. destruct first; repeat split.
  - cbn [foldl].
    assert (Hsame : HostOps.heartbeat t (HostOps.heartbeat first h)
                    = HostOps.heartbeat t h) by reflexivity.
    rewrite Hsame.
    assert (Hlast : List.last (t :: ticks) first = List.last ticks t).
    { clear. revert first t.
      induction ticks as [|b ticks IHt]; intros first t; [reflexivity|].
      change (List.last (b :: ticks) first = List.last (b :: ticks) t).
      rewrite !IHt. reflexivity. }
    rewrite Hlast. apply IH.
Qed.

(** ** Instances *)

(** An inactive idle host under the cursor and an active host with one
    running query: nil. *)
Lemma getHost_nil_iff_witness :
  0 < Z.of_nat (length (hosts clusterInactiveStart)) < U32.modulus /\
  hosts clusterInactiveStart
    !! Z.to_nat (AddUint32 (nextIdx clusterInactiveStart) 1
                 mod Z.of_nat (length (hosts clusterInactiveStart)))
  = Some (mkHost "A:8123" 0 0 0) /\
  (snd (ClusterOps.getHost clusterInactiveStart) = Returned None
   <-> HostOps.isActive (mkHost "A:8123" 0 0 0) = false /\
       Forall (fun h => HostOps.isActive h = true ->
                        HostOps.runningQueries h <> 0 /\
                        HostOps.runningQueries (mkHost "A:8123" 0 0 0)
                        <= HostOps.runningQueries h)
              (hosts clusterInactiveStart)).
Proof.
  assert (Hlen : 0 < Z.of_nat (length (hosts clusterInactiveStart)) < U32.modulus)
    by (split; reflexivity).
  split; [exact Hlen|]. split; [reflexivity|].
  exact (getHost_nil_iff clusterInactiveStart (mkHost "A:8123" 0 0 0) Hlen eq_refl).
Defined.

(** The idle active host is the third of the scan. *)
Lemma getHost_prefers_idle_witness :
  0 < Z.of_nat (length (hosts clusterIdleLast)) < U32.modulus /\
  hosts clusterIdleLast !! 2%nat = Some (mkHost "C:8123" 1 0 0) /\
  HostOps.isActive (mkHost "C:8123" 1 0 0) = true /\
  HostOps.runningQueries (mkHost "C:8123" 1 0 0) = 0 /\
  snd (ClusterOps.getHost clusterIdleLast) = Returned (Some 2%nat) /\
  exists j hj,
    ClusterOps.getHost clusterIdleLast
    = (ClusterOps.set_nextIdx clusterIdleLast
         (AddUint32 (nextIdx clusterIdleLast) 1), Returned (Some j)) /\
    hosts clusterIdleLast !! j = Some hj /\
    HostOps.isActive hj = true /\ HostOps.runningQueries hj = 0.
Proof.
  assert (Hlen : 0 < Z.of_nat (length (hosts clusterIdleLast)) < U32.modulus)
    by (split; reflexivity).
  split; [exact Hlen|]. do 4 (split; [reflexivity|]).
  destruct (getHost_prefers_idle clusterIdleLast 2 (mkHost "C:8123" 1 0 0)
              Hlen eq_refl eq_refl eq_refl)
    as (j & hj & Hget & Hj & Ha & Hl & _).
  exists j, hj. repeat split; assumption.
Defined.

(** S1, five calls. *)
Lemma getHost_round_robin_all_idle_witness :
  0 < Z.of_nat (length (hosts clusterS1)) < U32.modulus /\
  Forall (fun h => HostOps.isActive h = true /\ HostOps.runningQueries h = 0)
         (hosts clusterS1) /\
  snd (successive ClusterOps.getHost 5 clusterS1)
  = [Returned (Some 1%nat); Returned (Some 2%nat); Returned (Some 0%nat);
     Returned (Some 1%nat); Returned (Some 2%nat)].
Proof.
  assert (Hlen : 0 < Z.of_nat (length (hosts clusterS1)) < U32.modulus)
    by (split; reflexivity).
  assert (Hall : Forall (fun h => HostOps.isActive h = true /\
                                  HostOps.runningQueries h = 0) (hosts clusterS1))
    by (repeat constructor).
  split; [exact Hlen|]. split; [exact Hall|].
  exact (getHost_round_robin_all_idle 5 clusterS1 Hlen Hall).
Defined.

(** The inactive host under the cursor has the highest load: the active
    host with two running queries is returned. *)
Lemma getHost_least_candidate_witness :
  0 < Z.of_nat (length (hosts clusterMixed)) < U32.modulus /\
  Forall (fun h => HostOps.isActive h = true -> HostOps.runningQueries h <> 0)
         (hosts clusterMixed) /\
  snd (ClusterOps.getHost clusterMixed) = Returned (Some 2%nat) /\
  exists j hj,
    hosts clusterMixed !! j = Some hj /\
    ClusterOps.getHost clusterMixed
    = (ClusterOps.set_nextIdx clusterMixed (AddUint32 (nextIdx clusterMixed) 1),
       Returned (if HostOps.isActive hj then Some j else None)).
Proof.
  assert (Hlen : 0 < Z.of_nat (length (hosts clusterMixed)) < U32.modulus)
    by (split; reflexivity).
  assert (Hall : Forall (fun h => HostOps.isActive h = true ->
                                  HostOps.runningQueries h <> 0)
                        (hosts clusterMixed))
    by (repeat constructor; discriminate).
  split; [exact Hlen|]. split; [exact Hall|]. split; [reflexivity|].
  destruct (getHost_least_candidate clusterMixed Hlen Hall)
    as (j & hj & Hj & Hget & _).
  exists j, hj. split; assumption.
Defined.

(** Two increments and two decrements, starting with a decrement. *)
Lemma queryCounter_pairing_witness :
  U32.in_range (value {| value := 0 |}) /\
  countIf isInc [OpDec; OpInc; OpInc; OpDec]
  = countIf (fun op => negb (isInc op)) [OpDec; OpInc; OpInc; OpDec] /\
  applyOps {| value := 0 |} [OpDec; OpInc; OpInc; OpDec] = {| value := 0 |}.
Proof.
  assert (Hr : U32.in_range (value {| value := 0 |}))
    by (unfold U32.in_range, U32.modulus; cbn [value]; lia).
  split; [exact Hr|]. split; [reflexivity|].
  exact (proj2 (queryCounter_pairing {| value := 0 |} [OpDec; OpInc; OpInc; OpDec] Hr)
           eq_refl).
Defined.

(** S4 with two running queries: the third is refused. *)
Lemma inc_refused_restores_state_witness :
  ScopeOps.host_of (scopeS4 2) = Some (mkHost "h1:8123" 1 2 0) /\
  U32.in_range (UserOps.runningQueries (s_user (scopeS4 2))) /\
  U32.in_range (ClusterUserOps.runningQueries (s_clusterUser (scopeS4 2))) /\
  U32.in_range (QueryCounter.runningQueries
                  (host_queryCounter (mkHost "h1:8123" 1 2 0))) /\
  ScopeOps.inc (scopeS4 2)
  = (fst (ScopeOps.inc (scopeS4 2)), Returned (Some (ErrUserLimit "web" 2))) /\
  fst (ScopeOps.inc (scopeS4 2)) = scopeS4 2.
Proof.
  assert (Hr : U32.in_range 2) by (unfold U32.in_range, U32.modulus; lia).
  split; [reflexivity|]. do 3 (split; [exact Hr|]). split; [reflexivity|].
  exact (inc_refused_restores_state (scopeS4 2) _ (mkHost "h1:8123" 1 2 0)
           (ErrUserLimit "web" 2) eq_refl Hr Hr Hr eq_refl).
Defined.

(** S4 with no running query. *)
Lemma inc_then_dec_restores_state_witness :
  ScopeOps.host_of (scopeS4 0) = Some (mkHost "h1:8123" 1 0 0) /\
  U32.in_range (UserOps.runningQueries (s_user (scopeS4 0))) /\
  U32.in_range (ClusterUserOps.runningQueries (s_clusterUser (scopeS4 0))) /\
  U32.in_range (QueryCounter.runningQueries
                  (host_queryCounter (mkHost "h1:8123" 1 0 0))) /\
  ScopeOps.inc (scopeS4 0) = (scopeS4 1, Returned None) /\
  ScopeOps.dec (scopeS4 1) = (scopeS4 0, Returned tt).
Proof.
  assert (Hr : U32.in_range 0) by (unfold U32.in_range, U32.modulus; lia).
  split; [reflexivity|]. do 3 (split; [exact Hr|]). split; [reflexivity|].
  exact (inc_then_dec_restores_state (scopeS4 0) (scopeS4 1)
           (mkHost "h1:8123" 1 0 0) eq_refl Hr Hr Hr eq_refl).
Defined.

(** Both limits are exceeded: the error names the cluster user. *)
Lemma inc_error_precedence_witness :
  ScopeOps.host_of scopeBothLimits = Some (mkHost "h1:8123" 1 1 0) /\
  0 < cu_maxConcurrentQueries (s_clusterUser scopeBothLimits)
  < AddUint32 (ClusterUserOps.runningQueries (s_clusterUser scopeBothLimits)) 1 /\
  0 < u_maxConcurrentQueries (s_user scopeBothLimits)
  < AddUint32 (UserOps.runningQueries (s_user scopeBothLimits)) 1 /\
  snd (ScopeOps.inc scopeBothLimits)
  = Returned (Some (ErrClusterUserLimit "default" 1)).
Proof.
  assert (Hc : 0 < cu_maxConcurrentQueries (s_clusterUser scopeBothLimits)
               < AddUint32 (ClusterUserOps.runningQueries
                              (s_clusterUser scopeBothLimits)) 1)
    by (split; reflexivity).
  split; [reflexivity|]. split; [exact Hc|]. split; [split; reflexivity|].
  exact (proj1 (inc_error_precedence scopeBothLimits (mkHost "h1:8123" 1 1 0)
                  eq_refl) Hc).
Defined.


(** A scope on S1, and no scope on a cluster without a selectable host. *)
Lemma newScope_result_witness :
  snd (ScopeOps.newScope 41 (mkUser "web" 0 0)
         (mkClusterUser "default" "secret" 0 0) clusterS1)
  = Returned (inl {| id := 42; s_host := 1;
                     s_cluster := ClusterOps.set_nextIdx clusterS1 1;
                     s_user := mkUser "web" 0 0;
                     s_clusterUser := mkClusterUser "default" "secret" 0 0 |}) /\
  fst (fst (ScopeOps.newScope 41 (mkUser "web" 0 0)
              (mkClusterUser "default" "secret" 0 0) clusterS1)) = 42 /\
  snd (ScopeOps.newScope 41 (mkUser "web" 0 0)
         (mkClusterUser "default" "secret" 0 0) clusterInactiveStart)
  = Returned (inr ErrNoActiveHosts) /\
  fst (fst (ScopeOps.newScope 41 (mkUser "web" 0 0)
              (mkClusterUser "default" "secret" 0 0) clusterInactiveStart)) = 41.
Proof.
  split; [reflexivity|].
  split.
  - exact (proj1 (proj2 (proj1 (newScope_result 41 (mkUser "web" 0 0)
                                  (mkClusterUser "default" "secret" 0 0) clusterS1)
                           _ eq_refl))).
  - split; [reflexivity|].
    exact (proj2 (proj2 (proj2 (newScope_result 41 (mkUser "web" 0 0)
                                  (mkClusterUser "default" "secret" 0 0)
                                  clusterInactiveStart)
                           ErrNoActiveHosts eq_refl))).
Defined.

(** Three scopes across the wrap of the process counter. *)
Lemma newScopes_ids_distinct_witness :
  Z.of_nat 3 < U32.modulus /\
  scopeIds (snd (newScopes 3 4294967294 (mkUser "web" 0 0)
                   (mkClusterUser "default" "secret" 0 0) clusterS1))
  = [4294967295; 0; 1] /\
  NoDup (scopeIds (snd (newScopes 3 4294967294 (mkUser "web" 0 0)
                          (mkClusterUser "default" "secret" 0 0) clusterS1))).
Proof.
  assert (Hn : Z.of_nat 3 < U32.modulus) by reflexivity.
  split; [exact Hn|]. split; [reflexivity|].
  exact (proj2 (newScopes_ids_distinct 3 4294967294 (mkUser "web" 0 0)
                  (mkClusterUser "default" "secret" 0 0) clusterS1 Hn)).
Defined.

(** S5 with a backend that answers 200. *)
Lemma killQuery_success_iff_witness :
  ScopeOps.host_of scopeS5 = Some (mkHost "h1:8123" 1 0 0) /\
  snd (ScopeOps.killQuery (parseTo (mkURL "http" "h1:8123")) renderURL
         (respond 200 "") scopeS5) = Returned None /\
  (killQueryUserName (s_cluster scopeS5) = ""
   \/ exists req resp,
        Http.NewRequest (parseTo (mkURL "http" "h1:8123")) "POST"
          (renderURL (addr (mkHost "h1:8123" 1 0 0)))
          (ScopeOps.killQueryText (id scopeS5)) = inl req /\
        respond 200 "" (Http.SetBasicAuth
                          (Http.WithTimeout req ScopeOps.killQueryTimeout)
                          (killQueryUserName (s_cluster scopeS5))
                          (killQueryUserPassword (s_cluster scopeS5))) = inl resp /\
        StatusCode resp = 200).
Proof.
  split; [reflexivity|]. split; [reflexivity|].
  exact (proj1 (killQuery_success_iff (parseTo (mkURL "http" "h1:8123")) renderURL
                  (respond 200 "") scopeS5 (mkHost "h1:8123" 1 0 0) eq_refl)
           eq_refl).
Defined.

(** S5 with an address that does not parse, and with a client that fails. *)
Lemma killQuery_failures_witness :
  ScopeOps.host_of scopeS5 = Some (mkHost "h1:8123" 1 0 0) /\
  killQueryUserName (s_cluster scopeS5) <> "" /\
  ScopeOps.killQuery (fun _ => inr "missing protocol scheme") renderURL
    (respond 200 "") scopeS5
  = ([], Returned (Some (ErrCreateRequest "http://h1:8123"
                           "missing protocol scheme"))) /\
  exists req,
    ScopeOps.killQuery (parseTo (mkURL "http" "h1:8123")) renderURL
      (fun _ => inr "connection refused") scopeS5
    = ([req], Returned (Some (ErrExecute "KILL QUERY WHERE query_id = '7'"
                                "http://h1:8123" "connection refused"))).
Proof.
  assert (Hname : killQueryUserName (s_cluster scopeS5) <> "") by discriminate.
  split; [reflexivity|]. split; [exact Hname|].
  split.
  - exact (proj1 (killQuery_failures (fun _ => inr "missing protocol scheme")
                    renderURL (respond 200 "") scopeS5 (mkHost "h1:8123" 1 0 0)
                    eq_refl)
             "missing protocol scheme" Hname eq_refl).
  - exact (proj1 (proj2 (killQuery_failures (parseTo (mkURL "http" "h1:8123"))
                           renderURL (fun _ => inr "connection refused") scopeS5
                           (mkHost "h1:8123" 1 0 0) eq_refl))
             "connection refused" Hname (fun _ => eq_refl)
             (mkURL "http" "h1:8123") eq_refl).
Defined.

(** S6, decorated twice. *)
Lemma decorateRequest_twice_witness :
  ScopeOps.host_of scopeS5 = Some (mkHost "h1:8123" 1 0 0) /\
  exists r1 r2,
    ScopeOps.decorateRequest scopeS5
      (inbound "query=SELECT+1&database=x&query_id=99") = Returned r1 /\
    ScopeOps.decorateRequest scopeS5 r1 = Returned r2 /\
    req_URL r2 = req_URL r1 /\
    Http.UserAgent r2 <> Http.UserAgent r1.
Proof.
  split; [reflexivity|].
  destruct (decorateRequest_twice scopeS5
              (inbound "query=SELECT+1&database=x&query_id=99")
              (mkHost "h1:8123" 1 0 0) eq_refl)
    as (r1 & r2 & H1 & H2 & Hurl & _ & _ & Hua).
  exists r1, r2. repeat split; assumption.
Defined.

(** S6: the query string on the wire. *)
Lemma decorateRequest_raw_query_witness :
  ScopeOps.host_of scopeS5 = Some (mkHost "h1:8123" 1 0 0) /\
  NetUrl.Get (NetUrl.Query (req_URL (inbound "query=SELECT+1&database=x&query_id=99")))
    "query" = "SELECT 1" /\
  exists r1,
    ScopeOps.decorateRequest scopeS5
      (inbound "query=SELECT+1&database=x&query_id=99") = Returned r1 /\
    RawQuery (req_URL r1) = "query=SELECT+1&query_id=7".
Proof.
  split; [reflexivity|]. split; [reflexivity|].
  destruct (decorateRequest_raw_query scopeS5
              (inbound "query=SELECT+1&database=x&query_id=99")
              (mkHost "h1:8123" 1 0 0) eq_refl)
    as (r1 & H1 & Hraw & _).
  exists r1. split; [exact H1|]. rewrite Hraw. reflexivity.
Defined.

(** S6: the headers on the wire. *)
Lemma decorateRequest_rewrites_witness :
  ScopeOps.host_of scopeS5 = Some (mkHost "h1:8123" 1 0 0) /\
  exists r1,
    ScopeOps.decorateRequest scopeS5
      (inbound "query=SELECT+1&database=x&query_id=99") = Returned r1 /\
    Host (req_URL r1) = "h1:8123" /\
    Header r1 !! "Authorization" = Some ["Basic ZGVmYXVsdDpzZWNyZXQ="] /\
    Header r1 !! "User-Agent"
    = Some ["RemoteAddr: 10.0.0.9:51234; LocalAddr: 10.0.0.1:9090; CHProxy-User: web; CHProxy-ClusterUser: default; curl/7.58.0"].
Proof.
  split; [reflexivity|].
  destruct (decorateRequest_rewrites scopeS5
              (inbound "query=SELECT+1&database=x&query_id=99")
              (mkHost "h1:8123" 1 0 0) eq_refl)
    as (r1 & H1 & _ & Hhost & Hauth & Hua & _).
  exists r1. split; [exact H1|]. split; [exact Hhost|].
  split; [rewrite Hauth; reflexivity|rewrite Hua; reflexivity].
Defined.

(** S5 and S6 together. *)
Lemma killQuery_names_decorated_id_witness :
  ScopeOps.host_of scopeS5 = Some (mkHost "h1:8123" 1 0 0) /\
  killQueryUserName (s_cluster scopeS5) <> "" /\
  parseTo (mkURL "http" "h1:8123") (renderURL (addr (mkHost "h1:8123" 1 0 0)))
  = inl (mkURL "http" "h1:8123") /\
  exists r1 kreq text,
    ScopeOps.decorateRequest scopeS5
      (inbound "query=SELECT+1&database=x&query_id=99") = Returned r1 /\
    NetUrl.Query (req_URL r1) !! "query_id" = Some [text] /\
    fst (ScopeOps.killQuery (parseTo (mkURL "http" "h1:8123")) renderURL
           (respond 200 "") scopeS5) = [kreq] /\
    Body kreq = "KILL QUERY WHERE query_id = '" +:+ text +:+ "'".
Proof.
  assert (Hname : killQueryUserName (s_cluster scopeS5) <> "") by discriminate.
  split; [reflexivity|]. split; [exact Hname|]. split; [reflexivity|].
  exact (killQuery_names_decorated_id (parseTo (mkURL "http" "h1:8123")) renderURL
           (respond 200 "") scopeS5
           (inbound "query=SELECT+1&database=x&query_id=99")
           (mkHost "h1:8123" 1 0 0) (mkURL "http" "h1:8123")
           eq_refl Hname eq_refl).
Defined.

(** The trace of two penalties and one decay: one timer is pending. *)
Lemma penalty_pending_timers_bounded_witness :
  penalty (mkHost "h1:8123" 1 0 0) = 0 /\
  Penalty.run (Penalty.start (mkHost "h1:8123" 1 0 0) 0) penaltyTrace
  = Some penaltyTraceEnd /\
  (length (pw_timers penaltyTraceEnd) <= 60)%nat /\
  penalty (pw_host penaltyTraceEnd) = 5 * (Z.of_nat 1 + 0).
Proof.
  split; [reflexivity|]. split; [reflexivity|].
  exact (penalty_pending_timers_bounded (mkHost "h1:8123" 1 0 0) 0 penaltyTrace
           penaltyTraceEnd eq_refl eq_refl).
Defined.

(** The same trace: two additions, one decay. *)
Lemma penalty_accounting_witness :
  penalty (mkHost "h1:8123" 1 0 0) = 0 /\
  Penalty.run (Penalty.start (mkHost "h1:8123" 1 0 0) 0) penaltyTrace
  = Some penaltyTraceEnd /\
  pw_hostPenalties penaltyTraceEnd = 2 /\
  penalty (pw_host penaltyTraceEnd) = 5 * (2 - 1).
Proof.
  split; [reflexivity|]. split; [reflexivity|].
  exact (penalty_accounting (mkHost "h1:8123" 1 0 0) 0 penaltyTrace
           penaltyTraceEnd eq_refl eq_refl).
Defined.

(** After the two overlapping calls have set their timers, ten seconds
    later. *)
Lemma penalty_zero_after_duration_witness :
  penalty (mkHost "h1:8123" 1 0 0) = 0 /\
  Overlap.run (Overlap.start (mkHost "h1:8123" 1 0 0) 0)
    (overlapTrace ++ [Schedules 0; Schedules 0])
  = Some overlapTraceSet /\
  ow_calls overlapTraceSet = [] /\
  penalty (ow_host overlapTraceSet) = 305 /\
  10 * 1000000000 <= 10 * 1000000000 /\
  exists w',
    Overlap.run overlapTraceSet
      (Passes (10 * 1000000000) :: replicate 61 (Fires 0)) = Some w' /\
    ow_now w' = ow_now overlapTraceSet + 10 * 1000000000 /\
    ow_timers w' = [] /\ ow_calls w' = [] /\ penalty (ow_host w') = 0.
Proof.
  assert (Hd : 10 * 1000000000 <= 10 * 1000000000) by lia.
  split; [reflexivity|]. split; [reflexivity|]. split; [reflexivity|].
  split; [reflexivity|]. split; [exact Hd|].
  exact (proj2 (penalty_zero_after_duration (mkHost "h1:8123" 1 0 0) 0
                  (overlapTrace ++ [Schedules 0; Schedules 0])
                  overlapTraceSet (10 * 1000000000) eq_refl eq_refl eq_refl Hd)).
Defined.
